(** * Conversion progress broadcast and temporary artifact store

    A shallow embedding of the conversion core of the converter service:
    the two codec wrappers ([utils/imageConverter.js], [utils/pdfConverter.js]),
    the two orchestrators ([controllers/imageController.js],
    [controllers/pdfController.js]) and the routes of [routes/convert.js],
    together with the process-wide [global.tempFiles] object they share.
    The upload route ([routes/upload.js]) and the error-handling
    middleware of [server.js] are embedded as far as they decide how an
    upload is answered.

    JavaScript values are modelled as the code uses them:
    - a [Buffer] is a list of bytes, [buffer.length] its length;
    - a number that takes part in floating-point arithmetic is an IEEE 754
      binary64 value ([spec_float] with precision 53 and [emax] 1024);
      byte counts and [Date.now()] readings are integers far below 2^53 and
      are kept in [Z];
    - an object used as a dictionary is a [gmap] of its own properties, and
      a property read falls back on the members every object inherits from
      [Object.prototype];
    - a thrown [Error] is the [Throw] outcome of a call, carrying
      [error.message];
    - request fields are strings, as the JSDoc of the functions types them.

    A request is followed on its own: what other requests do to the
    listeners and to the store while it waits at an [await] is not part of
    its run.  The operations on the store ([storeForDownload],
    [cleanupOldFiles], the download handler, the timer callbacks) are
    synchronous code, so each of them is one atomic step of the process. *)

From Stdlib Require Import ZArith List Bool Ascii String Lia.
From Stdlib Require Import Floats.SpecFloat.
From stdpp Require Import base decidable option list strings pretty gmap fin_maps.

Local Open Scope string_scope.
Local Open Scope list_scope.
Local Open Scope Z_scope.

(** ** The JavaScript runtime, as far as the code relies on it *)

Module JS.

(** Outcome of a call: a value, or a thrown [Error] with its message. *)
Inductive Result (A : Type) : Type :=
| Ok (a : A)
| Throw (message : string).
Arguments Ok {A} a.
Arguments Throw {A} message.

(** The own property names of [Object.prototype]: a property read
    [o[k]] on a plain object [o] that has no own property [k] finds the
    inherited member when [k] is one of these, and [undefined] otherwise.
    Every one of these members is a function or an object, hence truthy. *)
Definition ObjectPrototypeKeys : list string :=
  [ "constructor"; "__defineGetter__"; "__defineSetter__"; "hasOwnProperty";
    "__lookupGetter__"; "__lookupSetter__"; "isPrototypeOf";
    "propertyIsEnumerable"; "toString"; "valueOf"; "__proto__";
    "toLocaleString" ].

Definition inherited (k : string) : bool :=
  bool_decide (k ∈ ObjectPrototypeKeys).

(** The value of a property read [o[k]] on an object literal used as a
    dictionary with values in [V]. *)
Inductive Lookup (V : Type) : Type :=
| Own (v : V)
| Inherited (k : string)
| Undefined.
Arguments Own {V} v.
Arguments Inherited {V} k.
Arguments Undefined {V}.

Definition get {V} (o : gmap string V) (k : string) : Lookup V :=
  match o !! k with
  | Some v => Own v
  | None => if inherited k then Inherited k else Undefined
  end.

(** [Object.keys(o)]: the own enumerable property names. *)
Definition keys {V} (o : gmap string V) : list string := (map_to_list o).*1.

(** [String.prototype.toLowerCase] on the ASCII letters; other bytes are
    left as they are. *)
Definition lower_ascii (c : ascii) : ascii :=
  let n := nat_of_ascii c in
  if (Nat.leb 65 n && Nat.leb n 90)%bool then ascii_of_nat (n + 32)%nat else c.

Fixpoint toLowerCase (s : string) : string :=
  match s with
  | EmptyString => EmptyString
  | String c s' => String (lower_ascii c) (toLowerCase s')
  end.

(** [Array.prototype.includes] on an array of strings. *)
Definition includes (l : list string) (s : string) : bool := bool_decide (s ∈ l).

(** *** Numbers: IEEE 754 binary64 *)

Definition number := spec_float.
Definition prec : Z := 53.
Definition emax : Z := 1024.

(** The number denoted by an integer literal or an integer value. *)
Definition of_Z (z : Z) : number := binary_normalize prec emax z 0 false.

Definition add : number -> number -> number := SFadd prec emax.
Definition sub : number -> number -> number := SFsub prec emax.
Definition mul : number -> number -> number := SFmul prec emax.
Definition div : number -> number -> number := SFdiv prec emax.
Definition leb : number -> number -> bool := SFleb.
Definition ltb : number -> number -> bool := SFltb.

(** The literals [0.6] and [0.7]: the doubles nearest to 6/10 and 7/10,
    which is what the correctly rounded quotient yields. *)
Definition lit_0_6 : number := div (of_Z 6) (of_Z 10).
Definition lit_0_7 : number := div (of_Z 7) (of_Z 10).

(** *** [Number.prototype.toFixed] *)

(** The integer [n] for which [n / 10^f] is nearest to [m * 2^e], the
    larger one on a tie. *)
Definition scaled_round (f : nat) (m : positive) (e : Z) : Z :=
  let num := Zpos m * 10 ^ Z.of_nat f in
  match e with
  | Zneg k => (2 * num + 2 ^ Zpos k) / (2 * 2 ^ Zpos k)
  | _ => num * 2 ^ e
  end.

(** [m * 2^e >= 10^21] *)
Definition huge (m : positive) (e : Z) : bool :=
  match e with
  | Zneg k => (10 ^ 21 * 2 ^ Zpos k <=? Zpos m)%Z
  | _ => (10 ^ 21 <=? Zpos m * 2 ^ e)%Z
  end.

Fixpoint zeros (n : nat) : string :=
  match n with
  | O => EmptyString
  | S n' => String "0" (zeros n')
  end.

(** Steps 9 and 10 of [toFixed]: the decimal digits of [n], padded with
    zeros on the left to [f + 1] digits, with a point before the last [f]. *)
Definition fixed_digits (f : nat) (n : Z) : string :=
  let m := pretty n in
  let m := zeros (S f - String.length m) +:+ m in
  let k := String.length m in
  match f with
  | O => m
  | _ => substring 0 (k - f) m +:+ "." +:+ substring (k - f) f m
  end.

(** [x.toFixed(f)].  For a magnitude of 10^21 and above the standard
    falls back on [Number::toString], which is taken from the host in
    [toStringLarge]. *)
Definition toFixed (toStringLarge : number -> string) (f : nat) (x : number) : string :=
  match x with
  | S754_nan => "NaN"
  | S754_infinity false => "Infinity"
  | S754_infinity true => "-Infinity"
  | S754_zero _ => fixed_digits f 0
  | S754_finite s m e =>
      if huge m e then toStringLarge x
      else (if s then "-" else "") +:+ fixed_digits f (scaled_round f m e)
  end.

End JS.

Export JS (Result, Ok, Throw).

(** ** The process-wide artifact store, [global.tempFiles] *)

Definition Buffer := list Byte.byte.

(** A value read from an object used as a table: a string the program put
    there, or a member inherited from [Object.prototype]. *)
Inductive HeaderValue :=
| Str (s : string)
| InheritedMember (k : string).

Record FileData := mkFileData {
  buffer : Buffer;
  mimeType : HeaderValue;
  originalName : string;
  timestamp : Z
}.

(** [global.tempFiles] is [undefined] until the first [storeForDownload]. *)
Definition TempFiles := option (gmap string FileData).

(** A pending [setTimeout] callback of the download route: at [due] it
    deletes the record of [target]. *)
Record Timer := mkTimer { due : Z; target : string }.

Record Globals := mkGlobals {
  tempFiles : TempFiles;
  timers : list Timer
}.

(** The own record stored under [k], if any. *)
Definition live (tf : TempFiles) (k : string) : option FileData :=
  match tf with
  | Some files => files !! k
  | None => None
  end.

Definition maxAge : Z := 10 * 60 * 1000.

(** [cleanupOldFiles], word for word the same in both controllers; [now]
    is its [Date.now()] reading.  The loop runs over the key snapshot taken
    by [Object.keys] and deletes from the live object; a key of the snapshot
    is still present when its turn comes, since only the key in turn is
    ever deleted. *)
Definition cleanup_step (now : Z) (files : gmap string FileData) (filename : string)
  : gmap string FileData :=
  match files !! filename with
  | Some f => if now - timestamp f >? maxAge then delete filename files else files
  | None => files
  end.

Definition cleanupOldFiles (now : Z) (tf : TempFiles) : TempFiles :=
  match tf with
  | None => None
  | Some files => Some (foldl (cleanup_step now) files (JS.keys files))
  end.

Definition downloadPrefix : string := "/api/convert/download/".

Module ImageStore.

Definition mimeTypes : gmap string string :=
  list_to_map
    [ ("jpg", "image/jpeg"); ("jpeg", "image/jpeg"); ("png", "image/png");
      ("webp", "image/webp"); ("bmp", "image/bmp"); ("gif", "image/gif");
      ("tiff", "image/tiff") ].

(** [mimeTypes[format.toLowerCase()] || 'application/octet-stream'] *)
Definition getMimeType (format : string) : HeaderValue :=
  match JS.get mimeTypes (JS.toLowerCase format) with
  | JS.Own s => Str s
  | JS.Inherited k => InheritedMember k
  | JS.Undefined => Str "application/octet-stream"
  end.

Definition filename (t_name : Z) (format : string) : string :=
  "converted_" +:+ pretty t_name +:+ "." +:+ format.

Definition record (t_stamp : Z) (buf : Buffer) (format : string) : FileData :=
  {| buffer := buf;
     mimeType := getMimeType format;
     originalName := "converted_image." +:+ format;
     timestamp := t_stamp |}.

(** [ImageController.storeForDownload(buffer, format, metadata)];
    [t_name], [t_stamp] and [t_sweep] are its three [Date.now()] readings,
    in program order.  The [metadata] argument is not used by the body. *)
Definition storeForDownload (t_name t_stamp t_sweep : Z)
    (buf : Buffer) (format : string) (g : Globals) : string * Globals :=
  let files := default ∅ (tempFiles g) in
  let files := <[filename t_name format := record t_stamp buf format]> files in
  (downloadPrefix +:+ filename t_name format,
   {| tempFiles := cleanupOldFiles t_sweep (Some files); timers := timers g |}).

End ImageStore.

Module PdfStore.

Definition filename (t_name : Z) : string :=
  "compressed_" +:+ pretty t_name +:+ ".pdf".

Definition record (t_stamp : Z) (buf : Buffer) : FileData :=
  {| buffer := buf;
     mimeType := Str "application/pdf";
     originalName := "compressed_document.pdf";
     timestamp := t_stamp |}.

(** [PDFController.storeForDownload(buffer)] *)
Definition storeForDownload (t_name t_stamp t_sweep : Z)
    (buf : Buffer) (g : Globals) : string * Globals :=
  let files := default ∅ (tempFiles g) in
  let files := <[filename t_name := record t_stamp buf]> files in
  (downloadPrefix +:+ filename t_name,
   {| tempFiles := cleanupOldFiles t_sweep (Some files); timers := timers g |}).

End PdfStore.

(** *** The download route and its deferred deletion *)

Inductive Response :=
| FileResponse (contentType : HeaderValue) (contentDisposition : string)
               (contentLength : Z) (body : Buffer)
| JsonError (status : Z) (error : string).

Definition graceDelay : Z := 60000.

Definition dquote : string := String (ascii_of_nat 34) EmptyString.

(** [`attachment; filename="${fileData.originalName}"`] *)
Definition contentDisposition_of (name : string) : string :=
  "attachment; filename=" +:+ dquote +:+ name +:+ dquote.

(** [GET /download/:filename], handled at time [now].  When the property
    read finds an inherited member, [fileData.buffer] is [undefined] and
    building the header object throws; the [catch] answers 500. *)
Definition download (now : Z) (filename : string) (g : Globals) : Response * Globals :=
  match tempFiles g with
  | None => (JsonError 404 "File not found or expired", g)
  | Some files =>
      match JS.get files filename with
      | JS.Undefined => (JsonError 404 "File not found or expired", g)
      | JS.Inherited _ => (JsonError 500 "Failed to download file", g)
      | JS.Own f =>
          (FileResponse (mimeType f)
             (contentDisposition_of (originalName f))
             (Z.of_nat (length (buffer f))) (buffer f),
           {| tempFiles := tempFiles g;
              timers := timers g ++ [mkTimer (now + graceDelay) filename] |})
      end
  end.

(** The [setTimeout] callback of the download route:
    [if (global.tempFiles && global.tempFiles[filename]) delete ...]. *)
Definition fire (filename : string) (tf : TempFiles) : TempFiles :=
  match tf with
  | None => None
  | Some files =>
      match JS.get files filename with
      | JS.Undefined => Some files
      | _ => Some (delete filename files)
      end
  end.

(** The event loop reaches time [now]: every pending callback that is due
    runs, in the order it was scheduled, and leaves the timer list. *)
Definition runTimers (now : Z) (g : Globals) : Globals :=
  {| tempFiles :=
       foldl (fun tf tm => if due tm <=? now then fire (target tm) tf else tf)
             (tempFiles g) (timers g);
     timers := filter (fun tm => now < due tm) (timers g) |}.

(** An artifact handed to one of the two [storeForDownload]s. *)
Inductive Artifact :=
| ImageArtifact (buf : Buffer) (format : string)
| PdfArtifact (buf : Buffer).

Definition artifact_filename (t_name : Z) (a : Artifact) : string :=
  match a with
  | ImageArtifact _ format => ImageStore.filename t_name format
  | PdfArtifact _ => PdfStore.filename t_name
  end.

Definition artifact_record (t_stamp : Z) (a : Artifact) : FileData :=
  match a with
  | ImageArtifact buf format => ImageStore.record t_stamp buf format
  | PdfArtifact buf => PdfStore.record t_stamp buf
  end.

(** One [put]: the call of the controller the artifact belongs to. *)
Definition put (t_name t_stamp t_sweep : Z) (a : Artifact) (g : Globals)
  : string * Globals :=
  match a with
  | ImageArtifact buf format =>
      ImageStore.storeForDownload t_name t_stamp t_sweep buf format g
  | PdfArtifact buf => PdfStore.storeForDownload t_name t_stamp t_sweep buf g
  end.

(** ** Progress events and the broadcaster *)

Record ProgressEvent := mkEvent {
  progress : JS.number;
  message : string;
  error : option string
}.

(** [{ type: 'progress', data }], before [JSON.stringify]. *)
Inductive Frame := ProgressFrame (data : ProgressEvent).

(** A connected WebSocket.  [readyState] is 1 when the socket is open.
    [send] on an open socket hands the frame to the socket and returns; when
    the write fails the socket reports it later on its own ['error'] event,
    not as an exception of [send].  [linkUp] says which of the two happens,
    [received] is what reached the peer, [failures] counts the reports. *)
Record Client := mkClient {
  readyState : Z;
  linkUp : bool;
  received : list Frame;
  failures : nat
}.

Definition send (message : Frame) (c : Client) : Client :=
  if linkUp c
  then {| readyState := readyState c; linkUp := true;
          received := received c ++ [message]; failures := failures c |}
  else {| readyState := readyState c; linkUp := false;
          received := received c; failures := S (failures c) |}.

(** The [forEach] body of [broadcastProgress]. *)
Definition deliver (message : Frame) (c : Client) : Client :=
  if readyState c =? 1 then send message c else c.

(** The state of the process: the listeners of the WebSocket server ([None]
    when [wss] or [wss.clients] is missing), the store and its timers, and
    the clock, of which [Date.now()] takes reading number [ticks].
    [published] is a history variable: the argument of every
    [broadcastProgress] call so far, in order. *)
Record World := mkWorld {
  wss : option (list Client);
  published : list ProgressEvent;
  globals : Globals;
  clock : nat -> Z;
  ticks : nat
}.

(** Code that may throw and that acts on the state of the process. *)
Definition M (A : Type) : Type := World -> Result A * World.

Definition ret {A} (a : A) : M A := fun w => (Ok a, w).
Definition throw {A} (message : string) : M A := fun w => (Throw message, w).
Definition bind {A B} (c : M A) (k : A -> M B) : M B :=
  fun w => match c w with
           | (Ok a, w') => k a w'
           | (Throw e, w') => (Throw e, w')
           end.
Definition try_catch {A} (body : M A) (handler : string -> M A) : M A :=
  fun w => match body w with
           | (Ok a, w') => (Ok a, w')
           | (Throw e, w') => handler e w'
           end.
Definition lift {A} (r : Result A) : M A := fun w => (r, w).

Notation "x <- c ;; k" := (bind c (fun x => k))
  (at level 100, c at next level, right associativity).
Notation "c ;; k" := (bind c (fun _ => k))
  (at level 100, right associativity).

Definition Date_now : M Z :=
  fun w => (Ok (clock w (ticks w)),
            {| wss := wss w; published := published w; globals := globals w;
               clock := clock w; ticks := S (ticks w) |}).

(** [broadcastProgress(wss, data)], the same in both controllers. *)
Definition broadcastProgress (data : ProgressEvent) : M unit :=
  fun w => (Ok tt,
            {| wss := match wss w with
                      | Some clients => Some (map (deliver (ProgressFrame data)) clients)
                      | None => None
                      end;
               published := published w ++ [data];
               globals := globals w; clock := clock w; ticks := ticks w |}).

(** A [storeForDownload] of a controller, with its three clock readings. *)
Definition storeForDownload (a : Artifact) : M string :=
  t_name <- Date_now ;;
  t_stamp <- Date_now ;;
  t_sweep <- Date_now ;;
  fun w => let '(url, g) := put t_name t_stamp t_sweep a (globals w) in
           (Ok url, {| wss := wss w; published := published w; globals := g;
                       clock := clock w; ticks := ticks w |}).

(** What the code takes from the host: [Number::toString] for magnitudes
    of 10^21 and above, the members of the built-in objects found through
    [Object.prototype] ([builtin_member k l] evaluates
    [Object.prototype[k][l]] and tells whether it is truthy), and the
    base64 decoder of [Buffer.from]. *)
Class Host := {
  toStringLarge : JS.number -> string;
  builtin_member : string -> string -> Result bool;
  base64_decode : string -> Buffer
}.

(** [((originalSize - resultSize) / originalSize * 100).toFixed(1) + '%'] *)
Definition compressionRatio_of `{Host} (originalSize resultSize : Z) : string :=
  JS.toFixed toStringLarge 1
    (JS.mul (JS.div (JS.sub (JS.of_Z originalSize) (JS.of_Z resultSize))
                    (JS.of_Z originalSize))
            (JS.of_Z 100))
  +:+ "%".

(** ** The image codec wrapper, [utils/imageConverter.js] *)

Module ImageConverter.

(** An options object handed to [sharp]; an absent property is [None]. *)
Record SharpOptions := mkOptions {
  quality : option Z;
  progressive : option bool;
  mozjpeg : option bool;
  compressionLevel : option Z;
  adaptiveFiltering : option bool;
  palette : option bool;
  effort : option Z;
  lossless : option bool;
  compression : option string
}.

(** The object literal [{}]. *)
Definition no_options : SharpOptions :=
  mkOptions None None None None None None None None None.

(** What [getCompressionSettings] returns: an options object of the table
    (or [{}]), or a built-in reached through [Object.prototype] along
    [path]. *)
Inductive SettingsVal :=
| Options (o : SharpOptions)
| BuiltinMember (path : list string).

Definition jpeg_levels : gmap string SharpOptions :=
  list_to_map
    [ ("low", mkOptions (Some 90) (Some true) None None None None None None None);
      ("medium", mkOptions (Some 75) (Some true) None None None None None None None);
      ("high", mkOptions (Some 60) (Some true) (Some true) None None None None None None) ].

Definition png_levels : gmap string SharpOptions :=
  list_to_map
    [ ("low", mkOptions None None None (Some 3) (Some false) None None None None);
      ("medium", mkOptions None None None (Some 6) (Some true) None None None None);
      ("high", mkOptions None None None (Some 9) (Some true) (Some true) None None None) ].

Definition webp_levels : gmap string SharpOptions :=
  list_to_map
    [ ("low", mkOptions (Some 90) None None None None None (Some 2) None None);
      ("medium", mkOptions (Some 75) None None None None None (Some 4) None None);
      ("high", mkOptions (Some 60) None None None None None (Some 6) (Some false) None) ].

Definition tiff_levels : gmap string SharpOptions :=
  list_to_map
    [ ("low", mkOptions None None None None None None None None (Some "lzw"));
      ("medium", mkOptions None None None None None None None None (Some "deflate"));
      ("high", mkOptions (Some 75) None None None None None None None (Some "jpeg")) ].

Definition settings : gmap string (gmap string SharpOptions) :=
  list_to_map
    [ ("jpg", jpeg_levels); ("jpeg", jpeg_levels); ("png", png_levels);
      ("webp", webp_levels); ("tiff", tiff_levels) ].

(** [settings[f]?.[level] || settings[f]?.medium || {}] with
    [f = format.toLowerCase()]. *)
Definition getCompressionSettings `{Host} (format level : string)
  : Result SettingsVal :=
  match JS.get settings (JS.toLowerCase format) with
  | JS.Own entry =>
      match JS.get entry level with
      | JS.Own o => Ok (Options o)
      | JS.Inherited k => Ok (BuiltinMember [JS.toLowerCase format; k])
      | JS.Undefined =>
          match JS.get entry "medium" with
          | JS.Own o => Ok (Options o)
          | JS.Inherited k => Ok (BuiltinMember [JS.toLowerCase format; k])
          | JS.Undefined => Ok (Options no_options)
          end
      end
  | JS.Inherited k =>
      match builtin_member k level with
      | Throw e => Throw e
      | Ok true => Ok (BuiltinMember [k; level])
      | Ok false =>
          match builtin_member k "medium" with
          | Throw e => Throw e
          | Ok true => Ok (BuiltinMember [k; "medium"])
          | Ok false => Ok (Options no_options)
          end
      end
  | JS.Undefined => Ok (Options no_options)
  end.

(** The output stage selected by the [switch]. *)
Inductive Encoder :=
| Jpeg (o : SettingsVal)
| Png (o : SettingsVal)
| Webp (o : SettingsVal)
| Bmp
| Gif
| Tiff (o : SettingsVal).

Record Metadata := mkMetadata {
  md_format : string;
  md_width : Z;
  md_height : Z
}.

(** The [sharp] library: the constructor [sharp(buffer)], [.metadata()],
    the format methods ([.jpeg(options)] and the like, which check their
    options when called) and [.toBuffer()]. *)
Class Sharp := {
  sharp_new : Buffer -> Result unit;
  sharp_metadata : Buffer -> Result Metadata;
  sharp_format : Encoder -> Result unit;
  sharp_toBuffer : Buffer -> Encoder -> Result Buffer
}.

Definition select_encoder (outputFormat : string) (s : SettingsVal)
  : Result Encoder :=
  let f := JS.toLowerCase outputFormat in
  if bool_decide (f = "jpg") || bool_decide (f = "jpeg") then Ok (Jpeg s)
  else if bool_decide (f = "png") then Ok (Png s)
  else if bool_decide (f = "webp") then Ok (Webp s)
  else if bool_decide (f = "bmp") then Ok Bmp
  else if bool_decide (f = "gif") then Ok Gif
  else if bool_decide (f = "tiff") then Ok (Tiff s)
  else Throw ("Unsupported output format: " +:+ outputFormat).

Definition report (progressCallback : option (JS.number -> string -> M unit))
    (percent : Z) (message : string) : M unit :=
  match progressCallback with
  | Some cb => cb (JS.of_Z percent) message
  | None => ret tt
  end.

(** [convert({ buffer, outputFormat, compressionLevel, metadata,
    progressCallback })] *)
Definition convert `{Host} `{Sharp} (buf : Buffer) (outputFormat : string)
    (compressionLevel : string) (metadata : Metadata)
    (progressCallback : option (JS.number -> string -> M unit)) : M Buffer :=
  try_catch
    (lift (sharp_new buf) ;;
     report progressCallback 10 "Initializing conversion..." ;;
     compressionSettings <- lift (getCompressionSettings outputFormat compressionLevel) ;;
     report progressCallback 30 "Applying compression settings..." ;;
     encoder <- lift (select_encoder outputFormat compressionSettings) ;;
     lift (sharp_format encoder) ;;
     report progressCallback 60 "Converting image..." ;;
     convertedBuffer <- lift (sharp_toBuffer buf encoder) ;;
     report progressCallback 90 "Finalizing conversion..." ;;
     report progressCallback 100 "Conversion complete!" ;;
     ret convertedBuffer)
    (fun e => throw ("Failed to convert image: " +:+ e)).

Definition getSupportedInputFormats : list string :=
  ["jpeg"; "jpg"; "png"; "webp"; "bmp"; "gif"; "tiff"; "heic"].

Definition getSupportedOutputFormats : list string :=
  ["jpeg"; "jpg"; "png"; "webp"; "bmp"; "gif"; "tiff"].

(** [canConvert(inputFormat, outputFormat)] *)
Definition canConvert (inputFormat outputFormat : string) : bool :=
  JS.includes getSupportedInputFormats (JS.toLowerCase inputFormat)
  && JS.includes getSupportedOutputFormats (JS.toLowerCase outputFormat).

End ImageConverter.

(** ** The PDF codec wrapper, [utils/pdfConverter.js] *)

Module PDFConverter.

Record PdfSettings := mkSettings {
  useObjectStreams : bool;
  objectStreamCompressionMethod : string;
  scaleImages : bool;
  removeAnnotations : bool;
  removeDuplicateObjects : bool
}.

Definition low : PdfSettings := mkSettings false "deflate" false false false.
Definition medium : PdfSettings := mkSettings true "deflate" false false true.
Definition high : PdfSettings := mkSettings true "deflate" true true true.

Definition settings : gmap string PdfSettings :=
  list_to_map [ ("low", low); ("medium", medium); ("high", high) ].

(** What [getCompressionSettings] returns: a settings object of the
    table, or the member of [Object.prototype] named by the level. *)
Inductive SettingsVal :=
| Settings (s : PdfSettings)
| BuiltinMember (k : string).

(** [settings[level] || settings.medium] *)
Definition getCompressionSettings (level : string) : SettingsVal :=
  match JS.get settings level with
  | JS.Own s => Settings s
  | JS.Inherited k => BuiltinMember k
  | JS.Undefined =>
      match JS.get settings "medium" with
      | JS.Own s => Settings s
      | JS.Inherited k => BuiltinMember k
      | JS.Undefined => Settings medium
      end
  end.

(** The options of [pdfDoc.save]; a property read from a built-in is
    [undefined], here [None]. *)
Record SaveOptions := mkSaveOptions {
  save_useObjectStreams : option bool;
  save_addDefaultPage : bool;
  save_objectStreamCompressionMethod : option string
}.

Definition save_options (s : SettingsVal) : SaveOptions :=
  match s with
  | Settings s =>
      mkSaveOptions (Some (useObjectStreams s)) false
                    (Some (objectStreamCompressionMethod s))
  | BuiltinMember _ => mkSaveOptions None false None
  end.

(** The [pdf-lib] library: [PDFDocument.load], the number of pages of a
    loaded document ([getPageCount()], [getPages().length]) and [save].
    Counting the pages walks the page tree of the document and throws
    when the document has none, also after [load] has accepted it. *)
Class PdfLib := {
  PdfDoc : Type;
  pdf_load : Buffer -> Result PdfDoc;
  pdf_pageCount : PdfDoc -> Result nat;
  pdf_save : PdfDoc -> SaveOptions -> Result Buffer
}.

Definition report (progressCallback : option (JS.number -> string -> M unit))
    (percent : JS.number) (message : string) : M unit :=
  match progressCallback with
  | Some cb => cb percent message
  | None => ret tt
  end.

(** [optimizePage] and [optimizeDocument] only write to the console, and
    catch what their body throws. *)
Definition optimizePage (s : SettingsVal) : M unit := ret tt.
Definition optimizeDocument (s : SettingsVal) : M unit := ret tt.

(** [50 + (i / totalPages) * 40] *)
Definition pageProgress (i totalPages : nat) : JS.number :=
  JS.add (JS.of_Z 50)
         (JS.mul (JS.div (JS.of_Z (Z.of_nat i)) (JS.of_Z (Z.of_nat totalPages)))
                 (JS.of_Z 40)).

(** The [for] loop of [applyCompression], over the page indices [is]. *)
Fixpoint process_pages (totalPages : nat) (s : SettingsVal)
    (progressCallback : option (JS.number -> string -> M unit))
    (indices : list nat) : M unit :=
  match indices with
  | [] => ret tt
  | i :: rest =>
      report progressCallback (pageProgress i totalPages)
        ("Processing page " +:+ pretty (S i) +:+ " of " +:+ pretty totalPages +:+ "...") ;;
      optimizePage s ;;
      process_pages totalPages s progressCallback rest
  end.

Definition applyCompression `{PdfLib} (pdfDoc : PdfDoc) (s : SettingsVal)
    (progressCallback : option (JS.number -> string -> M unit)) : M unit :=
  try_catch
    (totalPages <- lift (pdf_pageCount pdfDoc) ;;
     process_pages totalPages s progressCallback (seq 0 totalPages) ;;
     report progressCallback (JS.of_Z 85) "Applying document optimizations..." ;;
     optimizeDocument s)
    (fun e => throw ("Failed to apply compression: " +:+ e)).

(** [compress({ buffer, compressionLevel, pageCount, progressCallback })];
    the [pageCount] argument is not used by the body. *)
Definition compress `{PdfLib} (buf : Buffer) (compressionLevel : string)
    (progressCallback : option (JS.number -> string -> M unit)) : M Buffer :=
  try_catch
    (report progressCallback (JS.of_Z 10) "Loading PDF document..." ;;
     pdfDoc <- lift (pdf_load buf) ;;
     report progressCallback (JS.of_Z 30) "Analyzing document structure..." ;;
     let s := getCompressionSettings compressionLevel in
     report progressCallback (JS.of_Z 50) "Applying compression..." ;;
     applyCompression pdfDoc s progressCallback ;;
     report progressCallback (JS.of_Z 90) "Generating compressed PDF..." ;;
     compressedBytes <- lift (pdf_save pdfDoc (save_options s)) ;;
     report progressCallback (JS.of_Z 100) "Compression complete!" ;;
     ret compressedBytes)
    (fun e => throw ("Failed to compress PDF: " +:+ e)).

(** [validatePDF(buffer)] *)
Definition validatePDF `{PdfLib} (buf : Buffer) : M bool :=
  try_catch
    (lift (pdf_load buf) ;;
     ret true)
    (fun _ => ret false).

(** The object [getPDFInfo] returns; [info_error] is present on the
    failure branch only. *)
Record PDFInfo := mkPDFInfo {
  info_pageCount : nat;
  info_isValid : bool;
  info_size : Z;
  info_error : option string
}.

(** [getPDFInfo(buffer)] *)
Definition getPDFInfo `{PdfLib} (buf : Buffer) : M PDFInfo :=
  try_catch
    (pdfDoc <- lift (pdf_load buf) ;;
     pageCount <- lift (pdf_pageCount pdfDoc) ;;
     ret (mkPDFInfo pageCount true (Z.of_nat (length buf)) None))
    (fun e => ret (mkPDFInfo 0 false (Z.of_nat (length buf)) (Some e))).

End PDFConverter.

(** ** The orchestrators *)

Definition event (percent : JS.number) (msg : string) : ProgressEvent :=
  mkEvent percent msg None.

Module ImageController.
Import ImageConverter.

Record ConversionResult := mkResult {
  downloadUrl : string;
  outputFormat : string;
  originalSize : Z;
  convertedSize : Z;
  compressionRatio : string
}.

(** The [progressCallback] handed to the converter:
    [progress: 30 + (progress * 0.6)]. *)
Definition relay (p : JS.number) (msg : string) : M unit :=
  broadcastProgress (event (JS.add (JS.of_Z 30) (JS.mul p JS.lit_0_6)) msg).

(** [convertImage({ buffer, outputFormat, compressionLevel, wss })] *)
Definition convertImage `{Host} `{Sharp} (buf : Buffer) (format : string)
    (level : string) : M ConversionResult :=
  try_catch
    (broadcastProgress (event (JS.of_Z 10) "Analyzing image...") ;;
     lift (sharp_new buf) ;;
     metadata <- lift (sharp_metadata buf) ;;
     let originalSize := Z.of_nat (length buf) in
     broadcastProgress (event (JS.of_Z 30) "Starting conversion...") ;;
     convertedBuffer <- convert buf format level metadata (Some relay) ;;
     broadcastProgress (event (JS.of_Z 90) "Preparing download...") ;;
     downloadUrl <- storeForDownload (ImageArtifact convertedBuffer format) ;;
     let convertedSize := Z.of_nat (length convertedBuffer) in
     let compressionRatio := compressionRatio_of originalSize convertedSize in
     broadcastProgress (event (JS.of_Z 100) "Conversion completed!") ;;
     ret (mkResult downloadUrl format originalSize convertedSize compressionRatio))
    (fun e =>
       broadcastProgress (mkEvent (JS.of_Z 0) "Conversion failed" (Some e)) ;;
       throw ("Image conversion failed: " +:+ e)).

End ImageController.

Module PDFController.
Import PDFConverter.

Record CompressionResult := mkResult {
  downloadUrl : string;
  originalSize : Z;
  compressedSize : Z;
  compressionRatio : string
}.

(** [progress: 20 + (progress * 0.7)] *)
Definition relay (p : JS.number) (msg : string) : M unit :=
  broadcastProgress (event (JS.add (JS.of_Z 20) (JS.mul p JS.lit_0_7)) msg).

(** [compressPDF({ buffer, compressionLevel, wss })] *)
Definition compressPDF `{Host} `{PdfLib} (buf : Buffer) (level : string)
  : M CompressionResult :=
  try_catch
    (broadcastProgress (event (JS.of_Z 10) "Analyzing PDF...") ;;
     let originalSize := Z.of_nat (length buf) in
     pdfDoc <- lift (pdf_load buf) ;;
     pageCount <- lift (pdf_pageCount pdfDoc) ;;
     broadcastProgress
       (event (JS.of_Z 20) ("Processing PDF with " +:+ pretty pageCount +:+ " pages...")) ;;
     compressedBuffer <- compress buf level (Some relay) ;;
     broadcastProgress (event (JS.of_Z 90) "Preparing download...") ;;
     downloadUrl <- storeForDownload (PdfArtifact compressedBuffer) ;;
     let compressedSize := Z.of_nat (length compressedBuffer) in
     let compressionRatio := compressionRatio_of originalSize compressedSize in
     broadcastProgress (event (JS.of_Z 100) "Compression completed!") ;;
     ret (mkResult downloadUrl originalSize compressedSize compressionRatio))
    (fun e =>
       broadcastProgress (mkEvent (JS.of_Z 0) "Compression failed" (Some e)) ;;
       throw ("PDF compression failed: " +:+ e)).

End PDFController.

(** ** The conversion routes, [routes/convert.js] *)

Module Routes.

Inductive ApiResponse :=
| ImageConverted (r : ImageController.ConversionResult)
| PdfCompressed (r : PDFController.CompressionResult)
| ApiError (status : Z) (error : string).

(** A field of the request body: absent, or a string. *)
Definition truthy (field : option string) : bool :=
  match field with
  | Some s => negb (bool_decide (s = ""))
  | None => false
  end.

(** [field || fallback] *)
Definition or_else (field : option string) (fallback : string) : string :=
  match field with
  | Some s => if bool_decide (s = "") then fallback else s
  | None => fallback
  end.

Record ImageBody := mkImageBody {
  image_outputFormat : option string;
  image_compressionLevel : option string;
  image_fileData : option string
}.

Record PdfBody := mkPdfBody {
  pdf_compressionLevel : option string;
  pdf_fileData : option string
}.

(** [POST /image] *)
Definition postImage `{Host} `{ImageConverter.Sharp} (body : ImageBody)
  : M ApiResponse :=
  if negb (truthy (image_fileData body)) || negb (truthy (image_outputFormat body))
  then ret (ApiError 400 "Missing required parameters: fileData and outputFormat")
  else
    try_catch
      (result <- ImageController.convertImage
                   (base64_decode (or_else (image_fileData body) ""))
                   (or_else (image_outputFormat body) "")
                   (or_else (image_compressionLevel body) "medium") ;;
       ret (ImageConverted result))
      (fun e => ret (ApiError 500 (or_else (Some e) "Failed to convert image"))).

(** [POST /pdf] *)
Definition postPdf `{Host} `{PDFConverter.PdfLib} (body : PdfBody)
  : M ApiResponse :=
  if negb (truthy (pdf_fileData body))
  then ret (ApiError 400 "Missing required parameter: fileData")
  else
    try_catch
      (result <- PDFController.compressPDF
                   (base64_decode (or_else (pdf_fileData body) ""))
                   (or_else (pdf_compressionLevel body) "medium") ;;
       ret (PdfCompressed result))
      (fun e => ret (ApiError 500 (or_else (Some e) "Failed to compress PDF"))).

End Routes.

(** ** The upload route, [routes/upload.js] *)

Module Upload.

Definition SUPPORTED_IMAGE_TYPES : list string :=
  [ "image/jpeg"; "image/jpg"; "image/png"; "image/webp";
    "image/bmp"; "image/gif"; "image/tiff"; "image/heic" ].
Definition SUPPORTED_PDF_TYPES : list string := [ "application/pdf" ].
Definition ALL_SUPPORTED_TYPES : list string :=
  SUPPORTED_IMAGE_TYPES ++ SUPPORTED_PDF_TYPES.

(** [limits.fileSize] *)
Definition fileSizeLimit : Z := 50 * 1024 * 1024.

(** The file object [multer] builds for the uploaded part. *)
Record File := mkFile {
  originalname : string;
  mimetype : string;
  size : Z;
  file_buffer : Buffer
}.

(** What [fileFilter] hands to its callback: [cb(null, true)], or
    [cb(new Error(message), false)]. *)
Inductive FilterResult :=
| Accept
| Reject (message : string).

Definition fileFilter (file : File) : FilterResult :=
  if JS.includes ALL_SUPPORTED_TYPES (mimetype file) then Accept
  else Reject ("Unsupported file type: " +:+ mimetype file
               +:+ ". Supported types: Images (jpg, jpeg, png, webp, bmp, gif, tiff, heic) and PDF files.").

(** The [fileInfo] of the response; the buffer is not part of it. *)
Record FileInfo := mkFileInfo {
  originalName : string;
  mimeType : string;
  info_size : Z;
  isImage : bool;
  isPDF : bool
}.

Inductive UploadResponse :=
| Uploaded (fileInfo : FileInfo)
| UploadError (status : Z) (error : string).

(** [POST /file]; [req.file] is [undefined] when the request came without
    a file part. *)
Definition postFile (file : option File) : UploadResponse :=
  match file with
  | None => UploadError 400 "No file uploaded"
  | Some f =>
      Uploaded {| originalName := originalname f;
                  mimeType := mimetype f;
                  info_size := size f;
                  isImage := JS.includes SUPPORTED_IMAGE_TYPES (mimetype f);
                  isPDF := JS.includes SUPPORTED_PDF_TYPES (mimetype f) |}
  end.

(** The body of [GET /formats]. *)
Record Formats := mkFormats {
  supportedFormats_images : list string;
  supportedFormats_pdf : list string;
  outputFormats_images : list string;
  outputFormats_pdf : list string;
  maxFileSize : string
}.

Definition getFormats : Formats :=
  {| supportedFormats_images := ["jpg"; "jpeg"; "png"; "webp"; "bmp"; "gif"; "tiff"; "heic"];
     supportedFormats_pdf := ["pdf"];
     outputFormats_images := ["jpg"; "jpeg"; "png"; "webp"; "bmp"; "gif"; "tiff"];
     outputFormats_pdf := ["pdf"];
     maxFileSize := "50MB" |}.

End Upload.

(** ** The error-handling middleware of [server.js] *)

Module Server.

(** The error object the middleware receives: a [multer.MulterError] with
    its [code], or another [Error] with the [status] it may carry. *)
Inductive AppError :=
| MulterError (code : string) (message : string)
| OtherError (status : option Z) (message : string).

(** [app.use((error, req, res, next) => ...)]: the status and the [error]
    field of the JSON body. *)
Definition errorHandler (error : AppError) : Z * string :=
  match error with
  | MulterError code message =>
      if bool_decide (code = "LIMIT_FILE_SIZE")
      then (400, "File too large. Maximum size is 50MB.")
      else (400, "File upload error: " +:+ message)
  | OtherError status message =>
      (match status with
       | Some s => if s =? 0 then 500 else s
       | None => 500
       end,
       if bool_decide (message = "") then "Internal server error" else message)
  end.

End Server.

(** * Properties *)

(** ** The sweep *)

(** The record is older than the retention window at [now]. *)
Definition expired (now : Z) (f : FileData) : bool := now - timestamp f >? maxAge.

(** What a sweep at [now] leaves of the record stored under a key. *)
Definition keep (now : Z) (o : option FileData) : option FileData :=
  match o with
  | Some f => if expired now f then None else Some f
  | None => None
  end.

Section Cleanup.
Variable now : Z.

Lemma cleanup_step_lookup files filename k :
  cleanup_step now files filename !! k =
  if decide (k = filename) then keep now (files !! k) else files !! k.
Proof.
  unfold cleanup_step, keep, expired.
  destruct (decide (k = filename)) as [->|Hne].
  - destruct (files !! filename) as [f|] eqn:E.
    + destruct (now - timestamp f >? maxAge).
      * apply lookup_delete_eq.
      * exact E.
    + exact E.
  - destruct (files !! filename) as [f|]; [|reflexivity].
    destruct (now - timestamp f >? maxAge); [|reflexivity].
    apply lookup_delete_ne. congruence.
Qed.

Lemma keep_idem o : keep now (keep now o) = keep now o.
Proof.
  destruct o as [f|]; simpl; [|reflexivity].
  destruct (expired now f) eqn:E; simpl; [reflexivity|]. now rewrite E.
Qed.

Lemma cleanup_fold_lookup ks : forall files k,
  foldl (cleanup_step now) files ks !! k =
  if bool_decide (k ∈ ks) then keep now (files !! k) else files !! k.
Proof.
  induction ks as [|x ks IH]; intros files k; simpl.
  - reflexivity.
  - rewrite IH, cleanup_step_lookup.
    destruct (decide (k = x)) as [->|Hne].
    + rewrite (bool_decide_eq_true_2 (x ∈ x :: ks)) by (left).
      destruct (bool_decide (x ∈ ks)); [apply keep_idem | reflexivity].
    + destruct (bool_decide (k ∈ ks)) eqn:E.
      * apply bool_decide_eq_true_1 in E.
        rewrite (bool_decide_eq_true_2 (k ∈ x :: ks)) by (right; exact E).
        reflexivity.
      * apply bool_decide_eq_false_1 in E.
        rewrite (bool_decide_eq_false_2 (k ∈ x :: ks)); [reflexivity|].
        intros [?|?]%elem_of_cons; contradiction.
Qed.

Lemma cleanup_lookup files k :
  foldl (cleanup_step now) files (JS.keys files) !! k = keep now (files !! k).
Proof.
  rewrite cleanup_fold_lookup.
  destruct (bool_decide (k ∈ JS.keys files)) eqn:E; [reflexivity|].
  apply bool_decide_eq_false_1 in E.
  destruct (files !! k) as [f|] eqn:Ek; [|reflexivity].
  exfalso. apply E. unfold JS.keys.
  apply list_elem_of_fmap. exists (k, f). split; [reflexivity|].
  now apply elem_of_map_to_list.
Qed.

Lemma live_cleanup tf k :
  live (cleanupOldFiles now tf) k = keep now (live tf k).
Proof.
  destruct tf as [files|]; simpl; [apply cleanup_lookup | reflexivity].
Qed.

Lemma cleanup_idem tf :
  cleanupOldFiles now (cleanupOldFiles now tf) = cleanupOldFiles now tf.
Proof.
  destruct tf as [files|]; simpl; [|reflexivity].
  f_equal. apply map_eq. intros k.
  rewrite !cleanup_lookup. apply keep_idem.
Qed.

End Cleanup.

Lemma maxAge_eq : maxAge = 600000.
Proof. reflexivity. Qed.

(** C8.  A sweep at time [now] removes exactly the records whose age
    [now - timestamp] exceeds the ten-minute window, whatever the store
    holds (also when [global.tempFiles] does not exist yet, which it leaves
    so), and a second sweep at the same time changes nothing. *)
Theorem cleanupOldFiles_exact_and_idempotent :
  forall (now : Z) (tf : TempFiles),
    (forall k, live (cleanupOldFiles now tf) k =
               match live tf k with
               | Some f => if now - timestamp f >? 600000 then None else Some f
               | None => None
               end)
    /\ (is_Some (cleanupOldFiles now tf) <-> is_Some tf)
    /\ cleanupOldFiles now (cleanupOldFiles now tf) = cleanupOldFiles now tf.
Proof.
  intros now tf. split; [|split].
  - intros k. pose proof (live_cleanup now tf k) as Hk.
    unfold keep, expired in Hk. rewrite maxAge_eq in Hk. exact Hk.
  - destruct tf; simpl; split; intros [x Hx]; try discriminate; eauto.
  - apply cleanup_idem.
Qed.

(** ** File names *)

(** No character of the string is a point. *)
Fixpoint dotfree (s : string) : bool :=
  match s with
  | EmptyString => true
  | String c s' => negb (bool_decide (c = "."%char)) && dotfree s'
  end.

(** The part of a string before its first point. *)
Fixpoint before_dot (s : string) : string :=
  match s with
  | EmptyString => EmptyString
  | String c s' => if bool_decide (c = "."%char) then EmptyString
                   else String c (before_dot s')
  end.

Lemma before_dot_app a b :
  dotfree a = true -> before_dot (a +:+ "." +:+ b) = a.
Proof.
  induction a as [|c a IH]; simpl; intros Hd.
  - reflexivity.
  - apply andb_true_iff in Hd as [Hc Ha].
    destruct (bool_decide (c = "."%char)); [discriminate|].
    now rewrite IH.
Qed.

Lemma dotfree_pretty_N_char x : pretty_N_char x <> "."%char.
Proof. unfold pretty_N_char. repeat case_match; discriminate. Qed.

Lemma dotfree_pretty_N_go x : forall s,
  dotfree s = true -> dotfree (pretty_N_go x s) = true.
Proof.
  induction (N.lt_wf_0 x) as [x _ IH]; intros s Hs.
  destruct (decide (x = 0)%N) as [->|Hx].
  - now rewrite pretty_N_go_0.
  - rewrite pretty_N_go_step by lia.
    apply IH.
    + apply N.div_lt; lia.
    + simpl. rewrite Hs, andb_true_r.
      rewrite bool_decide_eq_false_2; [reflexivity|apply dotfree_pretty_N_char].
Qed.

Lemma dotfree_pretty_N (x : N) : dotfree (pretty x) = true.
Proof.
  unfold pretty, pretty_N. case_decide; [reflexivity|].
  now apply dotfree_pretty_N_go.
Qed.

Lemma dotfree_pretty_Z (x : Z) : dotfree (pretty x) = true.
Proof.
  destruct x as [|p|p]; unfold pretty, pretty_Z; [reflexivity| |].
  - apply dotfree_pretty_N.
  - simpl. apply dotfree_pretty_N.
Qed.

Lemma stamped_name_inj (t t' : Z) (rest rest' : string) :
  pretty t +:+ "." +:+ rest = pretty t' +:+ "." +:+ rest' -> t = t'.
Proof.
  intros E. apply (f_equal before_dot) in E.
  rewrite !before_dot_app in E by apply dotfree_pretty_Z.
  now apply (inj pretty).
Qed.

(** What the file name of an artifact depends on besides the clock: the
    controller, and for an image the format. *)
Definition artifact_kind (a : Artifact) : option string :=
  match a with
  | ImageArtifact _ format => Some format
  | PdfArtifact _ => None
  end.

(** Two file names are equal exactly when they were built from the same
    clock reading for the same kind of artifact. *)
Lemma artifact_filename_inj t a t' a' :
  artifact_filename t a = artifact_filename t' a'
  <-> t = t' /\ artifact_kind a = artifact_kind a'.
Proof.
  split.
  - destruct a as [buf f|buf], a' as [buf' f'|buf']; simpl;
      unfold ImageStore.filename, PdfStore.filename; intros E.
    + apply (inj (String.app "converted_")) in E.
      pose proof (stamped_name_inj _ _ _ _ E) as <-. split; [reflexivity|].
      apply (inj (String.app (pretty t))) in E.
      apply (inj (String.app ".")) in E. now subst.
    + discriminate.
    + discriminate.
    + apply (inj (String.app "compressed_")) in E.
      change ".pdf" with ("." +:+ "pdf") in E.
      pose proof (stamped_name_inj _ _ _ _ E) as <-. split; reflexivity.
  - intros [<- Hk]. destruct a as [buf f|buf], a' as [buf' f'|buf']; simpl in *;
      congruence.
Qed.

(** ** Puts *)

Lemma live_default (tf : TempFiles) k : default ∅ tf !! k = live tf k.
Proof. destruct tf; simpl; [reflexivity | apply lookup_empty]. Qed.

Lemma put_url t_name t_stamp t_sweep a g :
  (put t_name t_stamp t_sweep a g).1 = downloadPrefix +:+ artifact_filename t_name a.
Proof. destruct a; reflexivity. Qed.

Lemma put_timers t_name t_stamp t_sweep a g :
  timers (put t_name t_stamp t_sweep a g).2 = timers g.
Proof. destruct a; reflexivity. Qed.

(** After a put, a key holds what it held before, or the new record when
    it is the new file name, unless the sweep of that put removes it. *)
Lemma live_put t_name t_stamp t_sweep a g k :
  live (tempFiles (put t_name t_stamp t_sweep a g).2) k =
  keep t_sweep (if decide (k = artifact_filename t_name a)
                then Some (artifact_record t_stamp a)
                else live (tempFiles g) k).
Proof.
  destruct a as [buf f|buf]; simpl;
    rewrite cleanup_lookup, lookup_insert, live_default;
    repeat case_decide; congruence.
Qed.

(** A sequence of puts, as the event loop runs them one after the other. *)
Record PutCall := mkPut {
  t_name : Z;
  t_stamp : Z;
  t_sweep : Z;
  artifact : Artifact
}.

Definition identifier (c : PutCall) : string :=
  artifact_filename (t_name c) (artifact c).

Fixpoint run_puts (calls : list PutCall) (g : Globals) : list string * Globals :=
  match calls with
  | [] => ([], g)
  | c :: rest =>
      let '(url, g1) := put (t_name c) (t_stamp c) (t_sweep c) (artifact c) g in
      let '(urls, g2) := run_puts rest g1 in
      (url :: urls, g2)
  end.

Lemma run_puts_urls calls : forall g,
  (run_puts calls g).1 = map (fun c => downloadPrefix +:+ identifier c) calls.
Proof.
  induction calls as [|c rest IH]; intros g; simpl; [reflexivity|].
  destruct (put _ _ _ _ g) as [url g1] eqn:E.
  specialize (IH g1). destruct (run_puts rest g1) as [urls g2]. simpl in *.
  f_equal; [|exact IH].
  pose proof (put_url (t_name c) (t_stamp c) (t_sweep c) (artifact c) g) as Hu.
  rewrite E in Hu. exact Hu.
Qed.

(** A record survives the later puts that write under other names and
    sweep within its retention window. *)
Lemma run_puts_preserves calls : forall g k r,
  live (tempFiles g) k = Some r ->
  Forall (fun c => identifier c <> k /\ t_sweep c - timestamp r <= maxAge) calls ->
  live (tempFiles (run_puts calls g).2) k = Some r.
Proof.
  induction calls as [|c rest IH]; intros g k r Hk Hall; simpl; [exact Hk|].
  apply Forall_cons in Hall as [[Hne Hage] Hrest].
  destruct (put _ _ _ _ g) as [url g1] eqn:E.
  specialize (IH g1 k r).
  destruct (run_puts rest g1) as [urls g2]. simpl in *.
  apply IH; [|exact Hrest].
  replace g1 with (put (t_name c) (t_stamp c) (t_sweep c) (artifact c) g).2
    by now rewrite E.
  rewrite live_put. unfold identifier in Hne.
  rewrite decide_False by congruence. rewrite Hk. simpl. unfold expired.
  destruct (Z.gtb_spec (t_sweep c - timestamp r) maxAge); [lia|reflexivity].
Qed.

(** The clock reading of the file name, with the kind of the artifact. *)
Definition put_key (c : PutCall) : Z * option string :=
  (t_name c, artifact_kind (artifact c)).

Lemma identifier_inj_on_readings c c' :
  identifier c = identifier c' -> put_key c = put_key c'.
Proof.
  unfold identifier, put_key. intros [-> ->]%artifact_filename_inj. reflexivity.
Qed.

(** No two puts of the same kind read the same millisecond for the file
    name, and no sweep of the sequence comes more than ten minutes after a
    time stamp of the sequence. *)
Definition distinct_readings (calls : list PutCall) : Prop :=
  NoDup (map put_key calls).
Definition within_retention (calls : list PutCall) : Prop :=
  Forall (fun c => Forall (fun c' => t_sweep c' - t_stamp c <= maxAge) calls) calls.

Lemma run_puts_records calls : forall g c,
  distinct_readings calls ->
  (forall c1 c2, c1 ∈ calls -> c2 ∈ calls -> t_sweep c2 - t_stamp c1 <= maxAge) ->
  c ∈ calls ->
  live (tempFiles (run_puts calls g).2) (identifier c)
  = Some (artifact_record (t_stamp c) (artifact c)).
Proof.
  induction calls as [|c0 rest IH]; intros g c Hnd Hage Hin.
  - inversion Hin.
  - simpl. destruct (put _ _ _ _ g) as [url g1] eqn:E.
    pose proof (run_puts_preserves rest g1) as Hpres.
    specialize (IH g1 c).
    destruct (run_puts rest g1) as [urls g2]. simpl in *.
    unfold distinct_readings in Hnd. simpl in Hnd.
    apply NoDup_cons in Hnd as [Hfresh Hnd].
    apply elem_of_cons in Hin as [->|Hin].
    + apply Hpres.
      * replace g1 with (put (t_name c0) (t_stamp c0) (t_sweep c0) (artifact c0) g).2
          by now rewrite E.
        rewrite live_put. unfold identifier. rewrite decide_True by reflexivity.
        simpl. unfold expired. 
        assert (t_sweep c0 - t_stamp c0 <= maxAge) by (apply Hage; left).
        replace (timestamp (artifact_record (t_stamp c0) (artifact c0)))
          with (t_stamp c0) by (destruct (artifact c0); reflexivity).
        destruct (Z.gtb_spec (t_sweep c0 - t_stamp c0) maxAge); [lia|reflexivity].
      * apply Forall_forall. intros c' Hc'. split.
        -- intros Heq. apply identifier_inj_on_readings in Heq.
           apply Hfresh. rewrite <- Heq. apply list_elem_of_fmap. eauto.
        -- replace (timestamp (artifact_record (t_stamp c0) (artifact c0)))
             with (t_stamp c0) by (destruct (artifact c0); reflexivity).
           apply Hage; [left | now right].
    + apply IH; [exact Hnd | | exact Hin].
      intros c1 c2 H1 H2. apply Hage; now right.
Qed.

Lemma NoDup_map_reflect {A B C} (f : A -> B) (h : A -> C) (l : list A) :
  (forall x y, f x = f y -> h x = h y) -> NoDup (map h l) -> NoDup (map f l).
Proof.
  intros Hfh. induction l as [|a l IH]; simpl; intros Hnd.
  - constructor.
  - apply NoDup_cons in Hnd as [Hfresh Hnd]. apply NoDup_cons. split.
    + intros Hin. apply Hfresh.
      apply list_elem_of_fmap in Hin as [y [Hy Hyl]].
      apply list_elem_of_fmap. exists y. split; [|exact Hyl]. now apply Hfh.
    + now apply IH.
Qed.

(** C1, as amended.  The identifier of a put is built from the millisecond
    reading of the clock and the kind of the artifact (the controller, and
    the format of an image) alone.  When no two puts of a sequence that are
    of the same kind read the same millisecond, and no put of the sequence
    sweeps more than ten minutes after another one stamped its record, the
    identifiers returned are pairwise different and each one still names
    the record of its own put at the end: no put has replaced the record of
    another. *)
Theorem puts_with_distinct_readings_do_not_collide :
  forall (calls : list PutCall) (g : Globals),
    distinct_readings calls ->
    within_retention calls ->
    NoDup (run_puts calls g).1
    /\ length (run_puts calls g).1 = length calls
    /\ Forall (fun c => live (tempFiles (run_puts calls g).2) (identifier c)
                        = Some (artifact_record (t_stamp c) (artifact c))) calls.
Proof.
  intros calls g Hnd Hage. rewrite run_puts_urls. split; [|split].
  - eapply NoDup_map_reflect; [|exact Hnd].
    intros x y E. apply (inj (String.app downloadPrefix)) in E.
    now apply identifier_inj_on_readings.
  - now rewrite length_map.
  - apply Forall_forall. intros c Hc. apply run_puts_records; [exact Hnd| |exact Hc].
    intros c1 c2 H1 H2. unfold within_retention in Hage.
    rewrite Forall_forall in Hage. specialize (Hage c1 H1).
    rewrite Forall_forall in Hage. now apply Hage.
Qed.

Definition empty_store : Globals := {| tempFiles := None; timers := [] |}.

(** Ten runs finishing on ten different milliseconds. *)
Definition ten_puts : list PutCall :=
  map (fun i => mkPut (1700000000000 + Z.of_nat i) (1700000000000 + Z.of_nat i)
                      (1700000000000 + Z.of_nat i)
                      (if Nat.even i then ImageArtifact [Byte.x01] "png"
                       else PdfArtifact [Byte.x02]))
      (seq 0 10).

Lemma puts_with_distinct_readings_witness :
  distinct_readings ten_puts
  /\ within_retention ten_puts
  /\ NoDup (run_puts ten_puts empty_store).1
  /\ length (run_puts ten_puts empty_store).1 = length ten_puts
  /\ Forall (fun c => live (tempFiles (run_puts ten_puts empty_store).2) (identifier c)
                      = Some (artifact_record (t_stamp c) (artifact c))) ten_puts.
Proof.
  assert (H1 : distinct_readings ten_puts).
  { apply (bool_decide_unpack _). vm_compute. reflexivity. }
  assert (H2 : within_retention ten_puts).
  { apply (bool_decide_unpack _). vm_compute. reflexivity. }
  split; [exact H1|]. split; [exact H2|].
  exact (puts_with_distinct_readings_do_not_collide ten_puts empty_store H1 H2).
Defined.

(** C1, as stated, fails: two image conversions to the same format that
    reach [storeForDownload] within the same millisecond get the same
    identifier, while the record of the first is live, and the second put
    replaces that record. *)
Lemma same_millisecond_puts_collide :
  let first := mkPut 1700000000000 1700000000000 1700000000000
                     (ImageArtifact [Byte.x01] "png") in
  let second := mkPut 1700000000000 1700000000000 1700000000000
                      (ImageArtifact [Byte.x02] "png") in
  let r1 := put (t_name first) (t_stamp first) (t_sweep first) (artifact first)
                empty_store in
  let r2 := put (t_name second) (t_stamp second) (t_sweep second) (artifact second)
                r1.2 in
  live (tempFiles r1.2) (identifier first)
    = Some (artifact_record (t_stamp first) (artifact first))
  /\ r2.1 = r1.1
  /\ r1.1 = "/api/convert/download/converted_1700000000000.png"
  /\ live (tempFiles r2.2) (identifier first)
     = Some (artifact_record (t_stamp second) (artifact second))
  /\ buffer (artifact_record (t_stamp first) (artifact first))
     <> buffer (artifact_record (t_stamp second) (artifact second))
  /\ ~ NoDup (run_puts [first; second] empty_store).1.
Proof.
  cbv zeta. split; [|split; [|split; [|split; [|split]]]].
  - vm_compute. reflexivity.
  - vm_compute. reflexivity.
  - vm_compute. reflexivity.
  - vm_compute. reflexivity.
  - discriminate.
  - intros Hnd. apply NoDup_cons in Hnd as [Hnotin _]. apply Hnotin.
    vm_compute. left.
Qed.

(** ** Retrieval and deferred deletion *)

Lemma live_fire filename tf k :
  live (fire filename tf) k = if decide (k = filename) then None else live tf k.
Proof.
  destruct tf as [files|]; simpl; [|now case_decide].
  unfold JS.get. destruct (files !! filename) as [f|] eqn:E; simpl.
  - rewrite lookup_delete. repeat case_decide; congruence.
  - destruct (JS.inherited filename); simpl.
    + rewrite lookup_delete. repeat case_decide; congruence.
    + case_decide; congruence.
Qed.

(** A deletion of [k] is due at [now]. *)
Definition deletion_due (now : Z) (k : string) (tm : Timer) : bool :=
  (due tm <=? now) && bool_decide (target tm = k).

Lemma live_fold_timers now k l : forall tf,
  live (foldl (fun tf tm => if due tm <=? now then fire (target tm) tf else tf) tf l) k
  = if existsb (deletion_due now k) l then None else live tf k.
Proof.
  induction l as [|tm l IH]; intros tf; simpl; [reflexivity|].
  rewrite IH. unfold deletion_due at 2.
  destruct (existsb (deletion_due now k) l); [now rewrite orb_true_r|].
  rewrite orb_false_r.
  destruct (due tm <=? now); simpl; [|reflexivity].
  rewrite live_fire. case_decide; subst.
  - now rewrite bool_decide_eq_true_2.
  - rewrite bool_decide_eq_false_2; congruence.
Qed.

Lemma live_runTimers now g k :
  live (tempFiles (runTimers now g)) k
  = if existsb (deletion_due now k) (timers g) then None else live (tempFiles g) k.
Proof. apply live_fold_timers. Qed.


Lemma download_found now filename g f :
  live (tempFiles g) filename = Some f ->
  download now filename g =
  (FileResponse (mimeType f) (contentDisposition_of (originalName f))
                (Z.of_nat (length (buffer f))) (buffer f),
   {| tempFiles := tempFiles g;
      timers := timers g ++ [mkTimer (now + graceDelay) filename] |}).
Proof.
  unfold download, live, JS.get. destruct (tempFiles g) as [files|]; [|discriminate].
  now intros ->.
Qed.

Lemma download_missing now filename g :
  JS.inherited filename = false ->
  live (tempFiles g) filename = None ->
  download now filename g = (JsonError 404 "File not found or expired", g).
Proof.
  unfold download, live, JS.get. destruct (tempFiles g) as [files|]; [|reflexivity].
  now intros -> ->.
Qed.

(** An identifier issued by a put is no member of [Object.prototype]. *)
Lemma artifact_filename_not_inherited t a :
  JS.inherited (artifact_filename t a) = false.
Proof.
  apply bool_decide_eq_false_2. unfold JS.ObjectPrototypeKeys.
  rewrite !elem_of_cons, elem_of_nil.
  destruct a; simpl; unfold ImageStore.filename, PdfStore.filename; simpl;
    intros H; repeat (destruct H as [H|H]; [discriminate H|]); exact H.
Qed.

Lemma timestamp_artifact_record t a : timestamp (artifact_record t a) = t.
Proof. destruct a; reflexivity. Qed.

Lemma buffer_artifact_record t a :
  buffer (artifact_record t a)
  = match a with ImageArtifact buf _ => buf | PdfArtifact buf => buf end.
Proof. destruct a; reflexivity. Qed.

(** The record of a put is live right after it, when the sweep of that very
    put does not find it older than the window. *)
Lemma live_put_own t_name t_stamp t_sweep a g :
  t_sweep - t_stamp <= maxAge ->
  live (tempFiles (put t_name t_stamp t_sweep a g).2) (artifact_filename t_name a)
  = Some (artifact_record t_stamp a).
Proof.
  intros Hage. rewrite live_put, decide_True by reflexivity.
  simpl. unfold expired. rewrite timestamp_artifact_record.
  destruct (Z.gtb_spec (t_sweep - t_stamp) maxAge); [lia|reflexivity].
Qed.

(** *** Sequences of store operations *)

(** The operations that touch [global.tempFiles]: a [storeForDownload], a
    retrieval through the download route, and the event loop running the
    deferred deletions that are due. *)
Inductive StoreOp :=
| OpPut (c : PutCall)
| OpGet (now : Z) (filename : string)
| OpTimers (now : Z).

Definition run_op (g : Globals) (op : StoreOp) : Globals :=
  match op with
  | OpPut c => (put (t_name c) (t_stamp c) (t_sweep c) (artifact c) g).2
  | OpGet now filename => (download now filename g).2
  | OpTimers now => runTimers now g
  end.

Definition run_ops (ops : list StoreOp) (g : Globals) : Globals :=
  foldl run_op g ops.

Lemma tempFiles_download now k g : tempFiles (download now k g).2 = tempFiles g.
Proof.
  unfold download. destruct (tempFiles g) as [files|] eqn:E; [|exact E].
  destruct (JS.get files k); cbn [snd tempFiles]; congruence.
Qed.

Lemma timers_download now k g tm :
  tm ∈ timers (download now k g).2 ->
  tm ∈ timers g \/ (target tm = k /\ is_Some (live (tempFiles g) k)).
Proof.
  unfold download, live. destruct (tempFiles g) as [files|]; [|now left].
  unfold JS.get. destruct (files !! k) as [f|] eqn:E.
  - cbn [snd timers]. intros [H| ->%list_elem_of_singleton]%elem_of_app; [now left|].
    right. split; [reflexivity|eauto].
  - destruct (JS.inherited k); now left.
Qed.

Lemma timers_download_mono now k g tm :
  tm ∈ timers g -> tm ∈ timers (download now k g).2.
Proof.
  intros Htm. unfold download. destruct (tempFiles g) as [files|]; [|exact Htm].
  destruct (JS.get files k); cbn [snd timers]; [|exact Htm|exact Htm].
  apply elem_of_app. now left.
Qed.

(** An operation that leaves alone the record stored under [id] and
    stamped at [t_stamp]: a put under another identifier whose sweep comes
    at most ten minutes after the stamp, a retrieval of another file name,
    or a round of the timers. *)
Definition leaves_alone (id : string) (t_stamp : Z) (op : StoreOp) : Prop :=
  match op with
  | OpPut c => identifier c <> id /\ t_sweep c - t_stamp <= 600000
  | OpGet _ filename => filename <> id
  | OpTimers _ => True
  end.

(** A round of the timers that comes before [t], respectively at [t] or
    later. *)
Definition round_before (t : Z) (op : StoreOp) : Prop :=
  match op with
  | OpTimers now => now < t
  | _ => True
  end.

Definition round_from (t : Z) (op : StoreOp) : Prop :=
  match op with
  | OpTimers now => t <= now
  | _ => False
  end.

Lemma existsb_deletion_due_later now k l :
  Forall (fun tm => target tm = k -> now < due tm) l ->
  existsb (deletion_due now k) l = false.
Proof.
  induction 1 as [|tm l Hlater _ IH]; simpl; [reflexivity|].
  rewrite IH, orb_false_r. unfold deletion_due.
  destruct (Z.leb_spec (due tm) now) as [Hle|]; [|reflexivity]. simpl.
  apply bool_decide_eq_false_2. intros Heq. specialize (Hlater Heq). lia.
Qed.

(** A record stays where it is while the operations leave it alone and no
    round of the timers reaches a deletion aimed at it: [Q] holds of the
    pending deletions aimed at [id], and no round reaches a timer with
    [Q]. *)
Lemma record_kept id r (Q : Timer -> Prop) ops : forall g,
  live (tempFiles g) id = Some r ->
  Forall (fun tm => target tm = id -> Q tm) (timers g) ->
  Forall (leaves_alone id (timestamp r)) ops ->
  (forall now tm, OpTimers now ∈ ops -> Q tm -> now < due tm) ->
  live (tempFiles (run_ops ops g)) id = Some r
  /\ Forall (fun tm => target tm = id -> Q tm) (timers (run_ops ops g)).
Proof.
  induction ops as [|op ops IH]; intros g Hlive Htimers Halone Hrounds;
    [split; assumption|].
  apply Forall_cons in Halone as [Hop Halone].
  cbn [run_ops foldl]. apply IH; [| |exact Halone|].
  - destruct op as [c|now filename|now]; cbn [run_op leaves_alone] in *.
    + destruct Hop as [Hne Hage].
      rewrite live_put, decide_False by (unfold identifier in Hne; congruence).
      rewrite Hlive.
      unfold keep, expired. rewrite maxAge_eq.
      destruct (Z.gtb_spec (t_sweep c - timestamp r) 600000); [lia|reflexivity].
    + now rewrite tempFiles_download.
    + rewrite live_runTimers, existsb_deletion_due_later; [exact Hlive|].
      eapply Forall_impl; [exact Htimers|]. cbn beta. intros tm HQ Htm.
      apply (Hrounds now tm); [left|auto].
  - apply Forall_forall. intros tm Htm Htarget. rewrite Forall_forall in Htimers.
    destruct op as [c|now filename|now]; cbn [run_op leaves_alone] in *.
    + rewrite put_timers in Htm. auto.
    + apply timers_download in Htm as [Htm|[Hk _]]; [auto|congruence].
    + cbn [runTimers timers] in Htm. apply list_elem_of_filter in Htm as [_ Htm]. auto.
  - intros now tm Hin. apply Hrounds. now right.
Qed.

(** A record that is gone does not come back while no put writes under
    its name. *)
Lemma record_gone_stays id t_stamp ops : forall g,
  live (tempFiles g) id = None ->
  Forall (leaves_alone id t_stamp) ops ->
  live (tempFiles (run_ops ops g)) id = None.
Proof.
  induction ops as [|op ops IH]; intros g Hgone Halone; [exact Hgone|].
  apply Forall_cons in Halone as [Hop Halone].
  cbn [run_ops foldl]. apply IH; [|exact Halone].
  destruct op as [c|now filename|now]; cbn [run_op leaves_alone] in *.
  - destruct Hop as [Hne _].
    rewrite live_put, decide_False by (unfold identifier in Hne; congruence).
    now rewrite Hgone.
  - now rewrite tempFiles_download.
  - rewrite live_runTimers. now destruct (existsb _ _).
Qed.

(** A pending deletion removes its record at the first round of the
    timers that reaches it. *)
Lemma record_deleted id t_stamp d ops : forall g,
  mkTimer d id ∈ timers g ->
  Forall (leaves_alone id t_stamp) ops ->
  Exists (round_from d) ops ->
  live (tempFiles (run_ops ops g)) id = None.
Proof.
  induction ops as [|op ops IH]; intros g Hpending Halone Hround;
    [inversion Hround|].
  apply Forall_cons in Halone as [Hop Halone].
  cbn [run_ops foldl].
  destruct op as [c|now filename|now]; cbn [run_op].
  - apply Exists_cons in Hround as [[]|Hround].
    apply IH; [|exact Halone|exact Hround]. now rewrite put_timers.
  - apply Exists_cons in Hround as [[]|Hround].
    apply IH; [|exact Halone|exact Hround]. now apply timers_download_mono.
  - destruct (Z.le_gt_cases d now) as [Hdue|Hearly].
    + apply (record_gone_stays id t_stamp); [|exact Halone].
      rewrite live_runTimers.
      replace (existsb (deletion_due now id) (timers g)) with true; [reflexivity|].
      symmetry. apply existsb_exists. exists (mkTimer d id). split.
      * now apply list_elem_of_In.
      * unfold deletion_due. cbn [due target].
        rewrite bool_decide_eq_true_2 by reflexivity.
        destruct (Z.leb_spec d now); [reflexivity|lia].
    + apply Exists_cons in Hround as [Hhead|Hround]; [cbn in Hhead; lia|].
      apply IH; [|exact Halone|exact Hround].
      cbn [runTimers timers]. apply list_elem_of_filter. split; [exact Hearly|exact Hpending].
Qed.

(** C5, as amended.  Take any put, of either controller, whose own sweep
    does not expire the new record, in a state where no deferred deletion
    is pending for the new file name; the URL returned ends in that file
    name.  Let any operations [before] follow that leave the record
    alone: puts under other identifiers that sweep at most ten minutes
    after its time stamp, retrievals of other names, rounds of the
    timers.  A retrieval of the file name then answers with exactly the
    bytes of the put, the content type the controller registered for them
    ([getMimeType(format)] for an image, [application/pdf] for a PDF), the
    display name [converted_image.<format>] or [compressed_document.pdf]
    in the [Content-Disposition] header, and the byte length.  Let any
    operations [after] follow that leave the record alone.  As long as no
    round of the timers among them has reached [t_get + 60000], the record
    is in the store and a retrieval is answered as the first one was; once
    a round has reached [t_get + 60000], the record is gone and a
    retrieval answers 404. *)
Theorem put_then_get_roundtrip :
  forall (a : Artifact) (t_name t_stamp t_sweep : Z) (g : Globals)
         (before after : list StoreOp) (t_get t_again : Z),
    let id := artifact_filename t_name a in
    t_sweep - t_stamp <= 600000 ->
    Forall (fun tm => target tm <> id) (timers g) ->
    Forall (leaves_alone id t_stamp) before ->
    Forall (leaves_alone id t_stamp) after ->
    let quote := String (ascii_of_nat 34) EmptyString in
    let response :=
      match a with
      | ImageArtifact buf format =>
          FileResponse (ImageStore.getMimeType format)
            ("attachment; filename=" +:+ quote
               +:+ ("converted_image." +:+ format) +:+ quote)
            (Z.of_nat (length buf)) buf
      | PdfArtifact buf =>
          FileResponse (Str "application/pdf")
            ("attachment; filename=" +:+ quote +:+ "compressed_document.pdf" +:+ quote)
            (Z.of_nat (length buf)) buf
      end in
    let stored := put t_name t_stamp t_sweep a g in
    let got := download t_get id (run_ops before stored.2) in
    let later := run_ops after got.2 in
    stored.1 = "/api/convert/download/" +:+ id
    /\ got.1 = response
    /\ (Forall (round_before (t_get + 60000)) after ->
        is_Some (live (tempFiles later) id)
        /\ (download t_again id later).1 = response)
    /\ (Exists (round_from (t_get + 60000)) after ->
        live (tempFiles later) id = None
        /\ (download t_again id later).1 = JsonError 404 "File not found or expired").
Proof.
  intros a t_name t_stamp t_sweep g before after t_get t_again id
    Hage Hpending Hbefore Hafter quote response stored got later.
  set (r := artifact_record t_stamp a).
  assert (Hstamp : timestamp r = t_stamp) by apply timestamp_artifact_record.
  assert (Hserved : FileResponse (mimeType r) (contentDisposition_of (originalName r))
                      (Z.of_nat (length (buffer r))) (buffer r) = response).
  { subst r response. destruct a as [buf format|buf]; reflexivity. }
  destruct (record_kept id r (fun _ => False) before stored.2) as [Hlive1 Htimers1].
  { subst stored r. apply live_put_own. now rewrite maxAge_eq. }
  { subst stored. rewrite put_timers.
    eapply Forall_impl; [exact Hpending|]. cbn beta. intros tm Hne Heq. congruence. }
  { now rewrite Hstamp. }
  { intros now tm _ []. }
  assert (Hgot : got = (response,
                        {| tempFiles := tempFiles (run_ops before stored.2);
                           timers := timers (run_ops before stored.2)
                                     ++ [mkTimer (t_get + graceDelay) id] |})).
  { subst got. rewrite (download_found _ _ _ _ Hlive1). now rewrite Hserved. }
  split; [apply put_url|]. split; [now rewrite Hgot|]. split.
  - intros Hrounds.
    destruct (record_kept id r (fun tm => t_get + 60000 <= due tm) after got.2)
      as [Hlive2 _].
    { rewrite Hgot. exact Hlive1. }
    { rewrite Hgot. cbn [snd timers]. apply Forall_app. split.
      - eapply Forall_impl; [exact Htimers1|]. cbn beta. intros tm Hno Heq.
        destruct (Hno Heq).
      - constructor; [|constructor]. intros _. cbn [due]. unfold graceDelay. lia. }
    { now rewrite Hstamp. }
    { intros now tm Hin Hdue. rewrite Forall_forall in Hrounds.
      specialize (Hrounds _ Hin). cbn in Hrounds. lia. }
    fold later in Hlive2. split; [eauto|].
    rewrite (download_found _ _ _ _ Hlive2). now rewrite Hserved.
  - intros Hround.
    assert (Hgone : live (tempFiles later) id = None).
    { subst later. apply (record_deleted id t_stamp (t_get + 60000));
        [|exact Hafter|exact Hround].
      rewrite Hgot. cbn [snd timers]. apply elem_of_app. right. now left. }
    split; [exact Hgone|].
    rewrite download_missing; [reflexivity| |exact Hgone].
    apply artifact_filename_not_inherited.
Qed.

(** A put of an image, a put of a PDF in the same millisecond, a
    retrieval of the PDF and a round of the timers; then the image is
    retrieved five seconds after its put. *)
Definition roundtrip_before : list StoreOp :=
  [OpPut (mkPut 1700000000000 1700000000000 1700000000000
                (PdfArtifact [Byte.x25; Byte.x50; Byte.x44; Byte.x46]));
   OpGet 1700000001000 "compressed_1700000000000.pdf";
   OpTimers 1700000002000].

Definition roundtrip_after (last_round : Z) : list StoreOp :=
  [OpPut (mkPut 1700000030000 1700000030000 1700000030000
                (ImageArtifact [Byte.xff; Byte.xd8] "png"));
   OpTimers last_round;
   OpGet 1700000065500 "compressed_1700000000000.pdf"].

Lemma put_then_get_roundtrip_witness :
  let png := [Byte.x89; Byte.x50; Byte.x4e; Byte.x47] in
  let a := ImageArtifact png "png" in
  let id := "converted_1700000000000.png" in
  let quote := String (ascii_of_nat 34) EmptyString in
  let response :=
    FileResponse (Str "image/png")
      ("attachment; filename=" +:+ quote +:+ "converted_image.png" +:+ quote) 4 png in
  let stored := put 1700000000000 1700000000000 1700000000001 a empty_store in
  let got := download 1700000005000 id (run_ops roundtrip_before stored.2) in
  (1700000000001 - 1700000000000 <= 600000
   /\ Forall (fun tm => target tm <> id) (timers empty_store)
   /\ Forall (leaves_alone id 1700000000000) roundtrip_before
   /\ Forall (leaves_alone id 1700000000000) (roundtrip_after 1700000064999)
   /\ Forall (leaves_alone id 1700000000000) (roundtrip_after 1700000065000)
   /\ Forall (round_before (1700000005000 + 60000)) (roundtrip_after 1700000064999)
   /\ Exists (round_from (1700000005000 + 60000)) (roundtrip_after 1700000065000))
  /\ stored.1 = "/api/convert/download/converted_1700000000000.png"
  /\ got.1 = response
  /\ (download 1700000066000 id (run_ops (roundtrip_after 1700000064999) got.2)).1
     = response
  /\ (download 1700000066000 id (run_ops (roundtrip_after 1700000065000) got.2)).1
     = JsonError 404 "File not found or expired".
Proof.
  cbv zeta.
  assert (Hage : 1700000000001 - 1700000000000 <= 600000) by lia.
  assert (Hnone : Forall (fun tm => target tm <> "converted_1700000000000.png")
                    (timers empty_store)) by constructor.
  assert (Hbefore : Forall (leaves_alone "converted_1700000000000.png" 1700000000000)
                      roundtrip_before).
  { repeat constructor; try discriminate; cbn; lia. }
  assert (Hafter : forall last_round,
             Forall (leaves_alone "converted_1700000000000.png" 1700000000000)
               (roundtrip_after last_round)).
  { intros last_round. repeat constructor; try discriminate; cbn; lia. }
  assert (Hearly : Forall (round_before (1700000005000 + 60000))
                     (roundtrip_after 1700000064999)).
  { repeat constructor; cbn; lia. }
  assert (Hlate : Exists (round_from (1700000005000 + 60000))
                    (roundtrip_after 1700000065000)).
  { right. left. cbn. lia. }
  pose proof (put_then_get_roundtrip
                (ImageArtifact [Byte.x89; Byte.x50; Byte.x4e; Byte.x47] "png")
                1700000000000 1700000000000 1700000000001 empty_store
                roundtrip_before (roundtrip_after 1700000064999)
                1700000005000 1700000066000
                Hage Hnone Hbefore (Hafter 1700000064999)) as Hkept.
  pose proof (put_then_get_roundtrip
                (ImageArtifact [Byte.x89; Byte.x50; Byte.x4e; Byte.x47] "png")
                1700000000000 1700000000000 1700000000001 empty_store
                roundtrip_before (roundtrip_after 1700000065000)
                1700000005000 1700000066000
                Hage Hnone Hbefore (Hafter 1700000065000)) as Hgone.
  cbv zeta in Hkept, Hgone.
  destruct Hkept as (Hurl & Hget & Hagain & _).
  destruct Hgone as (_ & _ & _ & H404).
  split; [auto 10|].
  split; [exact Hurl|]. split; [exact Hget|].
  split; [exact (proj2 (Hagain Hearly))|exact (proj2 (H404 Hlate))].
Defined.

(** C5, as stated, fails in three ways.  A second conversion to the same
    format that reaches [storeForDownload] in the same millisecond takes
    the identifier over: the retrieval of the identifier the first put
    returned serves the bytes of the second.  A record that is not
    retrieved within ten minutes is removed by the sweep of the next put,
    of whatever kind: its retrieval answers 404 although no deletion was
    ever scheduled for it.  And a record retrieved shortly before it is
    ten minutes old is removed by the sweep of the next put a second after
    a successful retrieval, not 60 seconds after it, while the deletion
    the retrieval scheduled is still pending. *)
Lemma put_then_get_misses_after_overwrite_or_sweep :
  let quote := String (ascii_of_nat 34) EmptyString in
  let id := "converted_1700000000000.png" in
  let first := put 1700000000000 1700000000000 1700000000000
                   (ImageArtifact [Byte.x01] "png") empty_store in
  let second := put 1700000000000 1700000000000 1700000000000
                    (ImageArtifact [Byte.x02] "png") first.2 in
  let overwritten := download 1700000001000 id (runTimers 1700000001000 second.2) in
  let other := put 1700000600001 1700000600001 1700000600001
                   (PdfArtifact [Byte.x25; Byte.x50]) first.2 in
  let swept := download 1700000600002 id (runTimers 1700000600002 other.2) in
  let got := download 1700000599000 id (runTimers 1700000599000 first.2) in
  let other' := put 1700000600001 1700000600001 1700000600001
                    (PdfArtifact [Byte.x25; Byte.x50]) got.2 in
  let again := download 1700000600002 id (runTimers 1700000600002 other'.2) in
  first.1 = "/api/convert/download/" +:+ id
  /\ overwritten.1
     = FileResponse (Str "image/png")
         ("attachment; filename=" +:+ quote +:+ "converted_image.png" +:+ quote)
         1 [Byte.x02]
  /\ timers other.2 = []
  /\ swept.1 = JsonError 404 "File not found or expired"
  /\ got.1
     = FileResponse (Str "image/png")
         ("attachment; filename=" +:+ quote +:+ "converted_image.png" +:+ quote)
         1 [Byte.x01]
  /\ timers (runTimers 1700000600002 other'.2) = [mkTimer 1700000659000 id]
  /\ again.1 = JsonError 404 "File not found or expired".
Proof.
  cbv zeta. repeat split; vm_compute; reflexivity.
Qed.

(** A name that the store does not hold but that every object inherits
    from [Object.prototype] is answered with status 500, once
    [global.tempFiles] exists. *)
Lemma download_inherited_name now filename files timers0 :
  files !! filename = None -> JS.inherited filename = true ->
  download now filename {| tempFiles := Some files; timers := timers0 |}
  = (JsonError 500 "Failed to download file",
     {| tempFiles := Some files; timers := timers0 |}).
Proof. intros Hnone Hin. unfold download, JS.get. cbn [tempFiles]. now rewrite Hnone, Hin. Qed.

(** C6, as amended.  For a file name that is not the name of a member of
    [Object.prototype]: a retrieval answers 404 with a JSON error, and
    changes nothing, exactly when the store holds no record under that name
    (it was never issued, or a deferred deletion that was due has removed
    it, or a sweep has removed it as older than ten minutes); and when the
    store holds a record it answers with the stored bytes, their content
    type and the display name, and schedules the deletion of the record
    60 seconds later.  A record that was retrieved, or that has outlived
    the window, is still served until that deletion, or the sweep of a
    later put, has removed it. *)
Theorem download_by_store_content :
  forall (now : Z) (filename : string) (g : Globals),
    JS.inherited filename = false ->
    download now filename g =
      match live (tempFiles g) filename with
      | None => (JsonError 404 "File not found or expired", g)
      | Some f =>
          (FileResponse (mimeType f) (contentDisposition_of (originalName f))
                        (Z.of_nat (length (buffer f))) (buffer f),
           {| tempFiles := tempFiles g;
              timers := timers g ++ [mkTimer (now + 60000) filename] |})
      end
    /\ (forall t d, mkTimer d filename ∈ timers g -> d <= t ->
        live (tempFiles (runTimers t g)) filename = None)
    /\ (forall t f, live (tempFiles g) filename = Some f ->
        t - timestamp f > 600000 ->
        live (cleanupOldFiles t (tempFiles g)) filename = None).
Proof.
  intros now filename g Hproto. split; [|split].
  - destruct (live (tempFiles g) filename) as [f|] eqn:E.
    + now apply download_found.
    + now apply download_missing.
  - intros t d Hin Hd. rewrite live_runTimers.
    replace (existsb (deletion_due t filename) (timers g)) with true; [reflexivity|].
    symmetry. apply existsb_exists. exists (mkTimer d filename). split.
    + now apply list_elem_of_In.
    + unfold deletion_due. simpl. rewrite bool_decide_eq_true_2 by reflexivity.
      destruct (Z.leb_spec d t); [reflexivity|lia].
  - intros t f Hf Hage. rewrite live_cleanup, Hf. simpl. unfold expired, maxAge.
    destruct (Z.gtb_spec (t - timestamp f) (10 * 60 * 1000)); [reflexivity|lia].
Qed.

Lemma download_by_store_content_witness :
  JS.inherited "converted_42.png" = false
  /\ download 1000 "converted_42.png" empty_store
     = (JsonError 404 "File not found or expired", empty_store).
Proof.
  split; [reflexivity|].
  exact (proj1 (download_by_store_content 1000 "converted_42.png" empty_store eq_refl)).
Defined.

(** C6, as stated, fails in two ways.  An identifier that was already
    retrieved is served again, one second later, since its deletion waits
    for 60 seconds; and a record older than ten minutes is still served
    when no put has swept the store since. *)
Lemma consumed_or_expired_identifier_still_served :
  let a := PdfArtifact [Byte.x25; Byte.x50; Byte.x44; Byte.x46] in
  let stored := put 1700000000000 1700000000000 1700000000000 a empty_store in
  let id := "compressed_1700000000000.pdf" in
  let served := FileResponse (Str "application/pdf")
                  (contentDisposition_of "compressed_document.pdf") 4
                  [Byte.x25; Byte.x50; Byte.x44; Byte.x46] in
  let first := download 1700000001000 id (runTimers 1700000001000 stored.2) in
  let second := download 1700000002000 id (runTimers 1700000002000 first.2) in
  let late := download 1700001200000 id (runTimers 1700001200000 stored.2) in
  stored.1 = "/api/convert/download/" +:+ id
  /\ first.1 = served
  /\ second.1 = served
  /\ second.1 <> JsonError 404 "File not found or expired"
  /\ 1700001200000 - 1700000000000 > maxAge
  /\ late.1 = served.
Proof.
  cbv zeta. split; [|split; [|split; [|split; [|split]]]].
  - vm_compute. reflexivity.
  - vm_compute. reflexivity.
  - vm_compute. reflexivity.
  - vm_compute. discriminate.
  - vm_compute. reflexivity.
  - vm_compute. reflexivity.
Qed.

(** ** The broadcaster *)

Lemma deliver_spec frame c :
  readyState (deliver frame c) = readyState c
  /\ linkUp (deliver frame c) = linkUp c
  /\ (readyState c = 1 -> linkUp c = true ->
      received (deliver frame c) = received c ++ [frame]
      /\ failures (deliver frame c) = failures c)
  /\ (readyState c = 1 -> linkUp c = false ->
      received (deliver frame c) = received c
      /\ failures (deliver frame c) = S (failures c))
  /\ (readyState c <> 1 -> deliver frame c = c).
Proof.
  unfold deliver, send. destruct c as [rs up rcv fl]; simpl.
  destruct (Z.eqb_spec rs 1) as [->|Hrs]; destruct up; simpl;
    repeat split; intros; try reflexivity; try congruence; try discriminate.
Qed.

(** C4.  A call of [broadcastProgress] returns normally, whatever the
    listeners are, and leaves the store and the clock alone.  When the
    server has listeners, the listener at each position is treated by its
    own state alone: one whose socket is open (readyState 1) and whose
    link works has the frame of this event appended to what it received;
    one whose socket is open and whose write fails receives nothing and
    only records the failure on its own socket; one whose socket is not
    open is left exactly as it was.  So neither a listener that is not
    ready nor one whose delivery fails keeps the event from any other
    listener, before or after it in the set, and none makes the call
    throw. *)
Theorem broadcastProgress_best_effort :
  forall (data : ProgressEvent) (w : World),
    (broadcastProgress data w).1 = Ok tt
    /\ globals (broadcastProgress data w).2 = globals w
    /\ published (broadcastProgress data w).2 = published w ++ [data]
    /\ (wss w = None <-> wss (broadcastProgress data w).2 = None)
    /\ (forall clients, wss w = Some clients ->
        exists clients',
          wss (broadcastProgress data w).2 = Some clients'
          /\ length clients' = length clients
          /\ forall (i : nat) c, clients !! i = Some c ->
             exists c',
               clients' !! i = Some c'
               /\ readyState c' = readyState c
               /\ (readyState c = 1 -> linkUp c = true ->
                   received c' = received c ++ [ProgressFrame data]
                   /\ failures c' = failures c)
               /\ (readyState c = 1 -> linkUp c = false ->
                   received c' = received c /\ failures c' = S (failures c))
               /\ (readyState c <> 1 -> c' = c)).
Proof.
  intros data w. unfold broadcastProgress. simpl.
  split; [reflexivity|]. split; [reflexivity|]. split; [reflexivity|].
  split.
  - destruct (wss w); split; intros; congruence.
  - intros clients ->. eexists. split; [reflexivity|].
    split; [apply length_map|].
    intros i c Hc. exists (deliver (ProgressFrame data) c).
    split; [now rewrite list_lookup_fmap, Hc|].
    pose proof (deliver_spec (ProgressFrame data) c) as (H1 & _ & H3 & H4 & H5).
    auto.
Qed.

(** ** Runs of the orchestrators *)

Arguments JS.of_Z : simpl never.
Arguments JS.add : simpl never.
Arguments JS.sub : simpl never.
Arguments JS.mul : simpl never.
Arguments JS.div : simpl never.
Arguments JS.lit_0_6 : simpl never.
Arguments JS.lit_0_7 : simpl never.
Arguments JS.toFixed : simpl never.
Arguments String.append : simpl never.
Arguments put : simpl never.
Arguments ImageConverter.getCompressionSettings : simpl never.
Arguments ImageConverter.select_encoder : simpl never.
Arguments PDFConverter.getCompressionSettings : simpl never.
Arguments compressionRatio_of : simpl never.

(** The state after the events [evs] have been broadcast, in order. *)
Definition emit (evs : list ProgressEvent) (w : World) : World :=
  foldl (fun w ev => (broadcastProgress ev w).2) w evs.

Lemma emit_app evs1 evs2 w : emit (evs1 ++ evs2) w = emit evs2 (emit evs1 w).
Proof. apply foldl_app. Qed.

Lemma emit_cons ev evs w : emit (ev :: evs) w = emit evs (broadcastProgress ev w).2.
Proof. reflexivity. Qed.

Lemma published_emit evs : forall w, published (emit evs w) = published w ++ evs.
Proof.
  induction evs as [|ev evs IH]; intros w.
  - simpl. now rewrite app_nil_r.
  - rewrite emit_cons, IH. simpl. now rewrite <- app_assoc.
Qed.

Lemma globals_emit evs : forall w, globals (emit evs w) = globals w.
Proof.
  induction evs as [|ev evs IH]; intros w; [reflexivity|]. now rewrite emit_cons, IH.
Qed.

Lemma clock_emit evs : forall w, clock (emit evs w) = clock w.
Proof.
  induction evs as [|ev evs IH]; intros w; [reflexivity|]. now rewrite emit_cons, IH.
Qed.

Lemma ticks_emit evs : forall w, ticks (emit evs w) = ticks w.
Proof.
  induction evs as [|ev evs IH]; intros w; [reflexivity|]. now rewrite emit_cons, IH.
Qed.

Lemma broadcastProgress_emit ev w : broadcastProgress ev w = (Ok tt, emit [ev] w).
Proof. reflexivity. Qed.

(** The three clock readings a [storeForDownload] takes in state [w]. *)
Definition stored (a : Artifact) (w : World) : string * Globals :=
  put (clock w (ticks w)) (clock w (S (ticks w))) (clock w (S (S (ticks w))))
      a (globals w).

Lemma storeForDownload_run a w :
  storeForDownload a w =
  (Ok (stored a w).1,
   {| wss := wss w; published := published w; globals := (stored a w).2;
      clock := clock w; ticks := S (S (S (ticks w))) |}).
Proof.
  unfold storeForDownload, stored, bind, Date_now. simpl.
  destruct (put _ _ _ a (globals w)) as [url g]. reflexivity.
Qed.

Section ImageRuns.
Context `{Host} `{ImageConverter.Sharp}.
Import ImageConverter.

(** An event relayed from the converter: [30 + p * 0.6]. *)
Definition image_relayed (p : Z) (msg : string) : ProgressEvent :=
  event (JS.add (JS.of_Z 30) (JS.mul (JS.of_Z p) JS.lit_0_6)) msg.

(** What a call of [convert] with the relay of the controller comes to:
    what it returns or throws, and the events it has relayed by then. *)
Definition convert_outcome (buf : Buffer) (format level : string)
  : Result Buffer * list ProgressEvent :=
  let e10 := image_relayed 10 "Initializing conversion..." in
  let e30 := image_relayed 30 "Applying compression settings..." in
  let e60 := image_relayed 60 "Converting image..." in
  let e90 := image_relayed 90 "Finalizing conversion..." in
  let e100 := image_relayed 100 "Conversion complete!" in
  match sharp_new buf with
  | Throw e => (Throw e, [])
  | Ok _ =>
      match getCompressionSettings format level with
      | Throw e => (Throw e, [e10])
      | Ok s =>
          match select_encoder format s with
          | Throw e => (Throw e, [e10; e30])
          | Ok enc =>
              match sharp_format enc with
              | Throw e => (Throw e, [e10; e30])
              | Ok _ =>
                  match sharp_toBuffer buf enc with
                  | Throw e => (Throw e, [e10; e30; e60])
                  | Ok out => (Ok out, [e10; e30; e60; e90; e100])
                  end
              end
          end
      end
  end.

Definition rethrow {A} (prefix : string) (r : Result A) : Result A :=
  match r with
  | Ok a => Ok a
  | Throw e => Throw (prefix +:+ e)
  end.

Lemma convert_run buf format level md w :
  convert buf format level md (Some ImageController.relay) w =
  (rethrow "Failed to convert image: " (convert_outcome buf format level).1,
   emit (convert_outcome buf format level).2 w).
Proof.
  unfold convert, convert_outcome, try_catch, bind, lift, report, ret, throw,
    ImageController.relay, image_relayed.
  destruct (sharp_new buf) as [[]|e]; [|reflexivity].
  cbn [fst snd]. rewrite broadcastProgress_emit.
  destruct (getCompressionSettings format level) as [s|e]; [|reflexivity].
  rewrite broadcastProgress_emit.
  destruct (select_encoder format s) as [enc|e]; [|reflexivity].
  destruct (sharp_format enc) as [[]|e]; [|reflexivity].
  rewrite broadcastProgress_emit.
  destruct (sharp_toBuffer buf enc) as [out|e]; [|reflexivity].
  rewrite !broadcastProgress_emit. reflexivity.
Qed.

(** The state after a [storeForDownload] of [a] in [w]. *)
Definition with_store (a : Artifact) (w : World) : World :=
  {| wss := wss w; published := published w; globals := (stored a w).2;
     clock := clock w; ticks := S (S (S (ticks w))) |}.

Lemma storeForDownload_with_store a w :
  storeForDownload a w = (Ok (stored a w).1, with_store a w).
Proof. apply storeForDownload_run. Qed.

Lemma stored_emit a evs w : stored a (emit evs w) = stored a w.
Proof. unfold stored. now rewrite clock_emit, ticks_emit, globals_emit. Qed.

(** The terminal event of a failed image conversion. *)
Definition image_failure (e : string) : ProgressEvent :=
  mkEvent (JS.of_Z 0) "Conversion failed" (Some e).

(** The events of the controller itself before it calls the converter. *)
Definition image_opening : list ProgressEvent :=
  [event (JS.of_Z 10) "Analyzing image..."; event (JS.of_Z 30) "Starting conversion..."].

(** The body of [convertImage] up to the call of [storeForDownload]: the
    converted buffer or the error thrown, and the events published by then. *)
Definition image_body (buf : Buffer) (format level : string)
  : Result Buffer * list ProgressEvent :=
  match sharp_new buf with
  | Throw e => (Throw e, [event (JS.of_Z 10) "Analyzing image..."])
  | Ok _ =>
      match sharp_metadata buf with
      | Throw e => (Throw e, [event (JS.of_Z 10) "Analyzing image..."])
      | Ok _ =>
          match convert_outcome buf format level with
          | (Throw e, evs) =>
              (Throw ("Failed to convert image: " +:+ e), image_opening ++ evs)
          | (Ok out, evs) =>
              (Ok out, image_opening ++ evs
                       ++ [event (JS.of_Z 90) "Preparing download..."])
          end
      end
  end.

Definition image_result (url : string) (buf : Buffer) (format : string) (out : Buffer)
  : ImageController.ConversionResult :=
  ImageController.mkResult url format (Z.of_nat (length buf)) (Z.of_nat (length out))
    (compressionRatio_of (Z.of_nat (length buf)) (Z.of_nat (length out))).

Lemma convertImage_run buf format level w :
  ImageController.convertImage buf format level w =
  match image_body buf format level with
  | (Throw e, evs) =>
      (Throw ("Image conversion failed: " +:+ e), emit (evs ++ [image_failure e]) w)
  | (Ok out, evs) =>
      (Ok (image_result (stored (ImageArtifact out format) w).1 buf format out),
       emit [event (JS.of_Z 100) "Conversion completed!"]
            (with_store (ImageArtifact out format) (emit evs w)))
  end.
Proof.
  unfold ImageController.convertImage, image_body, try_catch, bind at 1.
  rewrite broadcastProgress_emit.
  unfold bind at 1, lift.
  destruct (sharp_new buf) as [[]|e]; [|reflexivity].
  unfold bind at 1.
  destruct (sharp_metadata buf) as [md|e]; [|reflexivity].
  unfold bind at 1. rewrite broadcastProgress_emit.
  unfold bind at 1. rewrite convert_run.
  destruct (convert_outcome buf format level) as [[out|e] evs]; cbn [fst snd rethrow].
  - unfold bind at 1. rewrite broadcastProgress_emit.
    unfold bind at 1. rewrite storeForDownload_with_store.
    unfold bind at 1. rewrite broadcastProgress_emit. unfold ret.
    rewrite !stored_emit. unfold image_opening.
    rewrite !emit_app. reflexivity.
  - unfold throw, bind. rewrite broadcastProgress_emit.
    unfold image_opening. rewrite !emit_app. reflexivity.
Qed.

End ImageRuns.

Section PdfRuns.
Context `{Host} `{PDFConverter.PdfLib}.
Import PDFConverter.

(** An event relayed from the converter: [20 + p * 0.7]. *)
Definition pdf_relayed (p : JS.number) (msg : string) : ProgressEvent :=
  event (JS.add (JS.of_Z 20) (JS.mul p JS.lit_0_7)) msg.

Definition page_event (totalPages i : nat) : ProgressEvent :=
  pdf_relayed (pageProgress i totalPages)
    ("Processing page " +:+ pretty (S i) +:+ " of " +:+ pretty totalPages +:+ "...").

Lemma process_pages_run totalPages s indices : forall w,
  process_pages totalPages s (Some PDFController.relay) indices w =
  (Ok tt, emit (map (page_event totalPages) indices) w).
Proof.
  induction indices as [|i rest IH]; intros w; [reflexivity|].
  cbn [process_pages map]. unfold bind at 1, report, PDFController.relay.
  rewrite broadcastProgress_emit. unfold bind at 1, optimizePage, ret.
  rewrite IH. reflexivity.
Qed.

(** The events relayed while [applyCompression] runs on [n] pages. *)
Definition compression_events (n : nat) : list ProgressEvent :=
  map (page_event n) (seq 0 n)
  ++ [pdf_relayed (JS.of_Z 85) "Applying document optimizations..."].

(** What a call of [applyCompression] with the relay of the controller
    comes to: nothing is relayed when the pages cannot be counted. *)
Definition apply_outcome (pdfDoc : PdfDoc) : Result unit * list ProgressEvent :=
  match pdf_pageCount pdfDoc with
  | Throw e => (Throw ("Failed to apply compression: " +:+ e), [])
  | Ok n => (Ok tt, compression_events n)
  end.

Lemma applyCompression_run pdfDoc s w :
  applyCompression pdfDoc s (Some PDFController.relay) w =
  ((apply_outcome pdfDoc).1, emit (apply_outcome pdfDoc).2 w).
Proof.
  unfold applyCompression, apply_outcome, try_catch, bind at 1, lift.
  destruct (pdf_pageCount pdfDoc) as [n|e]; [|reflexivity].
  unfold bind at 1. rewrite process_pages_run. unfold bind, report, PDFController.relay.
  rewrite broadcastProgress_emit. unfold optimizeDocument, ret, compression_events.
  cbn [fst snd]. now rewrite emit_app.
Qed.

(** What a call of [compress] with the relay of the controller comes to. *)
Definition compress_outcome (buf : Buffer) (level : string)
  : Result Buffer * list ProgressEvent :=
  let r10 := pdf_relayed (JS.of_Z 10) "Loading PDF document..." in
  let r30 := pdf_relayed (JS.of_Z 30) "Analyzing document structure..." in
  let r50 := pdf_relayed (JS.of_Z 50) "Applying compression..." in
  let r90 := pdf_relayed (JS.of_Z 90) "Generating compressed PDF..." in
  let r100 := pdf_relayed (JS.of_Z 100) "Compression complete!" in
  match pdf_load buf with
  | Throw e => (Throw e, [r10])
  | Ok pdfDoc =>
      match pdf_pageCount pdfDoc with
      | Throw e => (Throw ("Failed to apply compression: " +:+ e), [r10; r30; r50])
      | Ok n =>
          let evs := [r10; r30; r50] ++ compression_events n ++ [r90] in
          match pdf_save pdfDoc (save_options (getCompressionSettings level)) with
          | Throw e => (Throw e, evs)
          | Ok out => (Ok out, evs ++ [r100])
          end
      end
  end.

Lemma compress_run buf level w :
  compress buf level (Some PDFController.relay) w =
  (rethrow "Failed to compress PDF: " (compress_outcome buf level).1,
   emit (compress_outcome buf level).2 w).
Proof.
  unfold compress, compress_outcome, try_catch, bind at 1, report, PDFController.relay.
  rewrite broadcastProgress_emit. unfold bind at 1, lift.
  destruct (pdf_load buf) as [pdfDoc|e]; [|reflexivity].
  unfold bind at 1. rewrite broadcastProgress_emit.
  unfold bind at 1. rewrite broadcastProgress_emit.
  unfold bind at 1. rewrite applyCompression_run. unfold apply_outcome.
  destruct (pdf_pageCount pdfDoc) as [n|e]; cbn [fst snd rethrow]; [|reflexivity].
  unfold bind at 1. rewrite broadcastProgress_emit.
  unfold bind at 1.
  destruct (pdf_save pdfDoc _) as [out|e]; cbn [fst snd rethrow].
  - unfold bind. rewrite broadcastProgress_emit. unfold ret.
    rewrite !emit_app. reflexivity.
  - rewrite !emit_app. reflexivity.
Qed.

(** The terminal event of a failed PDF compression. *)
Definition pdf_failure (e : string) : ProgressEvent :=
  mkEvent (JS.of_Z 0) "Compression failed" (Some e).

Definition pdf_opening (pageCount : nat) : list ProgressEvent :=
  [event (JS.of_Z 10) "Analyzing PDF...";
   event (JS.of_Z 20) ("Processing PDF with " +:+ pretty pageCount +:+ " pages...")].

(** The body of [compressPDF] up to the call of [storeForDownload]. *)
Definition pdf_body (buf : Buffer) (level : string)
  : Result Buffer * list ProgressEvent :=
  match pdf_load buf with
  | Throw e => (Throw e, [event (JS.of_Z 10) "Analyzing PDF..."])
  | Ok pdfDoc =>
      match pdf_pageCount pdfDoc with
      | Throw e => (Throw e, [event (JS.of_Z 10) "Analyzing PDF..."])
      | Ok n =>
          match compress_outcome buf level with
          | (Throw e, evs) =>
              (Throw ("Failed to compress PDF: " +:+ e), pdf_opening n ++ evs)
          | (Ok out, evs) =>
              (Ok out, pdf_opening n ++ evs
                       ++ [event (JS.of_Z 90) "Preparing download..."])
          end
      end
  end.

Definition pdf_result (url : string) (buf out : Buffer)
  : PDFController.CompressionResult :=
  PDFController.mkResult url (Z.of_nat (length buf)) (Z.of_nat (length out))
    (compressionRatio_of (Z.of_nat (length buf)) (Z.of_nat (length out))).

Lemma compressPDF_run buf level w :
  PDFController.compressPDF buf level w =
  match pdf_body buf level with
  | (Throw e, evs) =>
      (Throw ("PDF compression failed: " +:+ e), emit (evs ++ [pdf_failure e]) w)
  | (Ok out, evs) =>
      (Ok (pdf_result (stored (PdfArtifact out) w).1 buf out),
       emit [event (JS.of_Z 100) "Compression completed!"]
            (with_store (PdfArtifact out) (emit evs w)))
  end.
Proof.
  unfold PDFController.compressPDF, pdf_body, try_catch, bind at 1.
  rewrite broadcastProgress_emit.
  unfold bind at 1, lift.
  destruct (pdf_load buf) as [pdfDoc|e] eqn:Eload; [|reflexivity].
  unfold bind at 1.
  destruct (pdf_pageCount pdfDoc) as [n|e] eqn:Ecount; [|reflexivity].
  unfold bind at 1. rewrite broadcastProgress_emit.
  unfold bind at 1. rewrite compress_run.
  destruct (compress_outcome buf level) as [[out|e] evs]; cbn [fst snd rethrow].
  - unfold bind at 1. rewrite broadcastProgress_emit.
    unfold bind at 1. rewrite storeForDownload_with_store.
    unfold bind at 1. rewrite broadcastProgress_emit. unfold ret.
    rewrite !stored_emit. unfold pdf_opening.
    rewrite !emit_app. reflexivity.
  - unfold throw, bind. rewrite broadcastProgress_emit.
    unfold pdf_opening. rewrite !emit_app. reflexivity.
Qed.

End PdfRuns.

(** ** Failure of the adapter *)

Lemma prefixed_nonempty (c : ascii) (p s : string) : String c p +:+ s <> "".
Proof. unfold String.append. discriminate. Qed.

Lemma rethrow_throw {A} prefix (r : Result A) e :
  rethrow prefix r = Throw e -> exists e', r = Throw e' /\ e = prefix +:+ e'.
Proof. destruct r as [a|e']; simpl; [discriminate|]. intros [= <-]. eauto. Qed.

Lemma or_else_nonempty (e fallback : string) :
  e <> "" -> Routes.or_else (Some e) fallback = e.
Proof. intros He. unfold Routes.or_else. now rewrite bool_decide_eq_false_2. Qed.

Lemma truthy_nonempty (s : string) : s <> "" -> Routes.truthy (Some s) = true.
Proof. intros Hs. unfold Routes.truthy. now rewrite bool_decide_eq_false_2. Qed.

(** No event has an error field. *)
Definition no_error_field (evs : list ProgressEvent) : Prop :=
  Forall (fun ev => error ev = None) evs.

Lemma convert_outcome_no_error `{Host} `{ImageConverter.Sharp} buf format level :
  no_error_field (convert_outcome buf format level).2.
Proof.
  unfold convert_outcome, no_error_field.
  repeat (case_match; simpl); repeat constructor.
Qed.

Lemma compression_events_no_error n : no_error_field (compression_events n).
Proof.
  unfold compression_events, no_error_field. apply Forall_app. split.
  - apply Forall_forall. intros ev Hev.
    apply list_elem_of_fmap in Hev as [i [-> _]]. reflexivity.
  - repeat constructor.
Qed.

Lemma compress_outcome_no_error `{PDFConverter.PdfLib} buf level :
  no_error_field (compress_outcome buf level).2.
Proof.
  unfold compress_outcome, no_error_field.
  destruct (PDFConverter.pdf_load buf) as [pdfDoc|e]; [|repeat constructor].
  destruct (PDFConverter.pdf_pageCount pdfDoc) as [n|e]; [|repeat constructor].
  assert (Hevs : Forall (fun ev => error ev = None)
            ([pdf_relayed (JS.of_Z 10) "Loading PDF document...";
              pdf_relayed (JS.of_Z 30) "Analyzing document structure...";
              pdf_relayed (JS.of_Z 50) "Applying compression..."]
             ++ compression_events n
             ++ [pdf_relayed (JS.of_Z 90) "Generating compressed PDF..."])).
  { apply Forall_app. split; [repeat constructor|].
    apply Forall_app. split; [apply compression_events_no_error|repeat constructor]. }
  destruct (PDFConverter.pdf_save _ _) as [out|e]; cbn [snd]; [|exact Hevs].
  apply Forall_app. split; [exact Hevs | repeat constructor].
Qed.

Lemma convertImage_adapter_failure `{Host} `{ImageConverter.Sharp}
    buf format level md w e :
  ImageConverter.sharp_new buf = Ok tt ->
  ImageConverter.sharp_metadata buf = Ok md ->
  (ImageConverter.convert buf format level md (Some ImageController.relay)
     (emit image_opening w)).1 = Throw e ->
  e <> ""
  /\ exists evs,
       no_error_field evs
       /\ ImageController.convertImage buf format level w
          = (Throw ("Image conversion failed: " +:+ e),
             emit (evs ++ [image_failure e]) w).
Proof.
  intros Hnew Hmd Hconv. rewrite convert_run in Hconv. cbn [fst] in Hconv.
  apply rethrow_throw in Hconv as [e' [He' ->]].
  split; [apply prefixed_nonempty|].
  exists (image_opening ++ (convert_outcome buf format level).2). split.
  - apply Forall_app. split; [repeat constructor|apply convert_outcome_no_error].
  - rewrite convertImage_run. unfold image_body. rewrite Hnew, Hmd.
    destruct (convert_outcome buf format level) as [r evs].
    cbn [fst snd] in *. subst r. reflexivity.
Qed.

Lemma compressPDF_adapter_failure `{Host} `{PDFConverter.PdfLib}
    buf level pdfDoc n w e :
  PDFConverter.pdf_load buf = Ok pdfDoc ->
  PDFConverter.pdf_pageCount pdfDoc = Ok n ->
  (PDFConverter.compress buf level (Some PDFController.relay)
     (emit (pdf_opening n) w)).1 = Throw e ->
  e <> ""
  /\ exists evs,
       no_error_field evs
       /\ PDFController.compressPDF buf level w
          = (Throw ("PDF compression failed: " +:+ e),
             emit (evs ++ [pdf_failure e]) w).
Proof.
  intros Hload Hcount Hcomp. rewrite compress_run in Hcomp. cbn [fst] in Hcomp.
  apply rethrow_throw in Hcomp as [e' [He' ->]].
  split; [apply prefixed_nonempty|].
  exists (pdf_opening n ++ (compress_outcome buf level).2). split.
  - apply Forall_app. split; [repeat constructor|apply compress_outcome_no_error].
  - rewrite compressPDF_run. unfold pdf_body. rewrite Hload, Hcount.
    destruct (compress_outcome buf level) as [r evs].
    cbn [fst snd] in *. subst r. reflexivity.
Qed.

Lemma filter_no_error evs :
  no_error_field evs -> filter (fun ev => is_Some (error ev)) evs = [].
Proof.
  induction 1 as [|ev evs Hev _ IH]; [reflexivity|].
  rewrite filter_cons_False; [exact IH|]. rewrite Hev. now intros [? ?].
Qed.

Lemma one_error_event old evs last :
  no_error_field evs -> is_Some (error last) ->
  length (filter (fun ev => is_Some (error ev))
                 (drop (length old) (old ++ evs ++ [last]))) = 1%nat.
Proof.
  intros Hevs Hlast. rewrite drop_app_length, filter_app, filter_no_error by exact Hevs.
  simpl. now rewrite filter_cons_True, filter_nil.
Qed.

Lemma postImage_run `{Host} `{ImageConverter.Sharp} data format level w :
  data <> "" -> format <> "" ->
  Routes.postImage (Routes.mkImageBody (Some format) level (Some data)) w =
  match ImageController.convertImage (base64_decode data) format
          (Routes.or_else level "medium") w with
  | (Ok r, w') => (Ok (Routes.ImageConverted r), w')
  | (Throw e, w') =>
      (Ok (Routes.ApiError 500 (Routes.or_else (Some e) "Failed to convert image")), w')
  end.
Proof.
  intros Hd Hf. unfold Routes.postImage. cbn [Routes.image_fileData Routes.image_outputFormat
    Routes.image_compressionLevel].
  rewrite !truthy_nonempty by assumption. cbn [negb orb].
  rewrite !or_else_nonempty by assumption.
  unfold try_catch, bind, ret.
  destruct (ImageController.convertImage _ _ _ w) as [[r|e] w']; reflexivity.
Qed.

Lemma postPdf_run `{Host} `{PDFConverter.PdfLib} data level w :
  data <> "" ->
  Routes.postPdf (Routes.mkPdfBody level (Some data)) w =
  match PDFController.compressPDF (base64_decode data)
          (Routes.or_else level "medium") w with
  | (Ok r, w') => (Ok (Routes.PdfCompressed r), w')
  | (Throw e, w') =>
      (Ok (Routes.ApiError 500 (Routes.or_else (Some e) "Failed to compress PDF")), w')
  end.
Proof.
  intros Hd. unfold Routes.postPdf. cbn [Routes.pdf_fileData Routes.pdf_compressionLevel].
  rewrite !truthy_nonempty by assumption. cbn [negb].
  rewrite !or_else_nonempty by assumption.
  unfold try_catch, bind, ret.
  destruct (PDFController.compressPDF _ _ w) as [[r|e] w']; reflexivity.
Qed.

(** Whatever makes an orchestrator throw, it has published its terminal
    event, with the message of the error and percent 0, after events
    without an error field. *)
Lemma any_failure_is_published_once `{Host} `{ImageConverter.Sharp}
    `{PDFConverter.PdfLib} buf format level w e :
  ((ImageController.convertImage buf format level w).1 = Throw e ->
   exists m evs,
     e = "Image conversion failed: " +:+ m /\ no_error_field evs
     /\ published (ImageController.convertImage buf format level w).2
        = published w ++ evs ++ [image_failure m])
  /\ ((PDFController.compressPDF buf level w).1 = Throw e ->
      exists m evs,
        e = "PDF compression failed: " +:+ m /\ no_error_field evs
        /\ published (PDFController.compressPDF buf level w).2
           = published w ++ evs ++ [pdf_failure m]).
Proof.
  split.
  - rewrite convertImage_run.
    assert (Hno : no_error_field (image_body buf format level).2).
    { unfold image_body.
      pose proof (convert_outcome_no_error buf format level) as Hno.
      destruct (ImageConverter.sharp_new buf) as [[]|m]; [|repeat constructor].
      destruct (ImageConverter.sharp_metadata buf) as [md|m]; [|repeat constructor].
      destruct (convert_outcome buf format level) as [[out|m] evs]; cbn [fst snd] in *.
      - apply Forall_app. split; [repeat constructor|].
        apply Forall_app. split; [exact Hno|repeat constructor].
      - apply Forall_app. split; [repeat constructor|exact Hno]. }
    destruct (image_body buf format level) as [[out|m] evs]; cbn [fst snd] in *;
      [intros [=]|].
    intros [= <-]. exists m, evs. split; [reflexivity|]. split; [exact Hno|].
    now rewrite published_emit.
  - rewrite compressPDF_run.
    assert (Hno : no_error_field (pdf_body buf level).2).
    { unfold pdf_body.
      pose proof (compress_outcome_no_error buf level) as Hno.
      destruct (PDFConverter.pdf_load buf) as [pdfDoc|m]; [|repeat constructor].
      destruct (PDFConverter.pdf_pageCount pdfDoc) as [n|m]; [|repeat constructor].
      destruct (compress_outcome buf level) as [[out|m] evs]; cbn [fst snd] in *.
      - apply Forall_app. split; [repeat constructor|].
        apply Forall_app. split; [exact Hno|repeat constructor].
      - apply Forall_app. split; [repeat constructor|exact Hno]. }
    destruct (pdf_body buf level) as [[out|m] evs]; cbn [fst snd] in *;
      [intros [=]|].
    intros [= <-]. exists m, evs. split; [reflexivity|]. split; [exact Hno|].
    now rewrite published_emit.
Qed.

(** C3.  Take an image request and a PDF request whose codec adapter fails:
    the steps of the orchestrator before the adapter succeed ([sharp]
    reads the metadata, [pdf-lib] loads the document and counts its
    pages) and the call of [convert], respectively [compress], throws an
    error with message [e].
    Then [e] is not empty; the orchestrator throws in turn, with [e]
    behind its own prefix, instead of returning a result; what it has
    published is a sequence of events without an error field followed by
    one last event with percent 0 and the error field [e], so exactly one
    published event carries an error; and the route handler answers with
    status 500 and the message of the orchestrator, publishing nothing
    more. *)
Theorem adapter_failure_published_once_and_propagated :
  forall `{Host} `{ImageConverter.Sharp} `{PDFConverter.PdfLib}
         (image_data format pdf_data : string) (level : option string) (w : World)
         (md : ImageConverter.Metadata) (pdfDoc : PDFConverter.PdfDoc)
         (pageCount : nat) (e_image e_pdf : string),
    image_data <> "" -> format <> "" -> pdf_data <> "" ->
    let image := base64_decode image_data in
    let pdf := base64_decode pdf_data in
    let lvl := Routes.or_else level "medium" in
    ImageConverter.sharp_new image = Ok tt ->
    ImageConverter.sharp_metadata image = Ok md ->
    (ImageConverter.convert image format lvl md (Some ImageController.relay)
       (emit image_opening w)).1 = Throw e_image ->
    PDFConverter.pdf_load pdf = Ok pdfDoc ->
    PDFConverter.pdf_pageCount pdfDoc = Ok pageCount ->
    (PDFConverter.compress pdf lvl (Some PDFController.relay)
       (emit (pdf_opening pageCount) w)).1 = Throw e_pdf ->
    let image_run := ImageController.convertImage image format lvl w in
    let image_route :=
      Routes.postImage (Routes.mkImageBody (Some format) level (Some image_data)) w in
    let pdf_run := PDFController.compressPDF pdf lvl w in
    let pdf_route := Routes.postPdf (Routes.mkPdfBody level (Some pdf_data)) w in
    (e_image <> ""
     /\ image_run.1 = Throw ("Image conversion failed: " +:+ e_image)
     /\ (exists evs, no_error_field evs
           /\ published image_run.2
              = published w ++ evs
                ++ [mkEvent (JS.of_Z 0) "Conversion failed" (Some e_image)])
     /\ length (filter (fun ev => is_Some (error ev))
                       (drop (length (published w)) (published image_run.2))) = 1%nat
     /\ image_route.1 = Ok (Routes.ApiError 500 ("Image conversion failed: " +:+ e_image))
     /\ published image_route.2 = published image_run.2)
    /\ (e_pdf <> ""
     /\ pdf_run.1 = Throw ("PDF compression failed: " +:+ e_pdf)
     /\ (exists evs, no_error_field evs
           /\ published pdf_run.2
              = published w ++ evs
                ++ [mkEvent (JS.of_Z 0) "Compression failed" (Some e_pdf)])
     /\ length (filter (fun ev => is_Some (error ev))
                       (drop (length (published w)) (published pdf_run.2))) = 1%nat
     /\ pdf_route.1 = Ok (Routes.ApiError 500 ("PDF compression failed: " +:+ e_pdf))
     /\ published pdf_route.2 = published pdf_run.2).
Proof.
  intros HH HS HP image_data format pdf_data level w md pdfDoc pageCount e_image e_pdf
    Hdata Hformat Hpdata image pdf lvl Hnew Hmd Hconv Hload Hcount Hcomp
    image_run image_route pdf_run pdf_route.
  split.
  - destruct (convertImage_adapter_failure image format lvl md w e_image Hnew Hmd Hconv)
      as (Hne & evs & Hevs & Hrun).
    assert (Hroute : image_route
                     = (Ok (Routes.ApiError 500 ("Image conversion failed: " +:+ e_image)),
                        image_run.2)).
    { subst image_route image_run. rewrite postImage_run by assumption.
      fold image lvl. rewrite Hrun. cbn [snd].
      rewrite or_else_nonempty; [reflexivity | apply prefixed_nonempty]. }
    subst image_run. rewrite Hroute, Hrun. cbn [fst snd].
    rewrite published_emit.
    split; [exact Hne|]. split; [reflexivity|].
    split; [exists evs; split; [exact Hevs | reflexivity]|].
    split; [|split; reflexivity].
    apply one_error_event; [exact Hevs | simpl; eauto].
  - destruct (compressPDF_adapter_failure pdf lvl pdfDoc pageCount w e_pdf
                Hload Hcount Hcomp)
      as (Hne & evs & Hevs & Hrun).
    assert (Hroute : pdf_route
                     = (Ok (Routes.ApiError 500 ("PDF compression failed: " +:+ e_pdf)),
                        pdf_run.2)).
    { subst pdf_route pdf_run. rewrite postPdf_run by assumption.
      fold pdf lvl. rewrite Hrun. cbn [snd].
      rewrite or_else_nonempty; [reflexivity | apply prefixed_nonempty]. }
    subst pdf_run. rewrite Hroute, Hrun. cbn [fst snd].
    rewrite published_emit.
    split; [exact Hne|]. split; [reflexivity|].
    split; [exists evs; split; [exact Hevs | reflexivity]|].
    split; [|split; reflexivity].
    apply one_error_event; [exact Hevs | simpl; eauto].
Qed.

(** ** Concrete hosts and codecs, for evaluating the code *)

Module Fixtures.

(** The value of a base64 digit. *)
Definition sextet (c : ascii) : option N :=
  let n := N_of_ascii c in
  if ((65 <=? n) && (n <=? 90))%N then Some (n - 65)%N
  else if ((97 <=? n) && (n <=? 122))%N then Some (n - 71)%N
  else if ((48 <=? n) && (n <=? 57))%N then Some (n + 4)%N
  else if ((n =? 43) || (n =? 45))%N then Some 62%N
  else if ((n =? 47) || (n =? 95))%N then Some 63%N
  else None.

(** [Buffer.from(text, 'base64')]: characters that are no base64 digit are
    skipped, every full group of eight bits yields a byte. *)
Fixpoint decode (acc : N) (nbits : nat) (s : string) : list Byte.byte :=
  match s with
  | EmptyString => []
  | String c rest =>
      match sextet c with
      | None => decode acc nbits rest
      | Some v =>
          let acc := (acc * 64 + v)%N in
          match nbits with
          | S (S n) =>
              let shift := N.of_nat n in
              match Byte.of_N (N.shiftr acc shift) with
              | Some b => b :: decode (N.land acc (N.ones shift)) n rest
              | None => decode (N.land acc (N.ones shift)) n rest
              end
          | _ => decode acc (nbits + 6) rest
          end
      end
  end.

#[local] Instance host : Host := {|
  toStringLarge := fun _ => "1e+21";
  builtin_member := fun _ _ => Ok false;
  base64_decode := decode 0 0
|}.

(** A [sharp] that encodes every image to the four bytes [out]. *)
Definition sharp_ok (out : Buffer) : ImageConverter.Sharp := {|
  ImageConverter.sharp_new := fun _ => Ok tt;
  ImageConverter.sharp_metadata := fun _ => Ok (ImageConverter.mkMetadata "png" 1000 1000);
  ImageConverter.sharp_format := fun _ => Ok tt;
  ImageConverter.sharp_toBuffer := fun _ _ => Ok out
|}.

(** A [sharp] that reads the metadata and fails to encode. *)
Definition sharp_failing : ImageConverter.Sharp := {|
  ImageConverter.sharp_new := fun _ => Ok tt;
  ImageConverter.sharp_metadata := fun _ => Ok (ImageConverter.mkMetadata "png" 1000 1000);
  ImageConverter.sharp_format := fun _ => Ok tt;
  ImageConverter.sharp_toBuffer := fun _ _ => Throw "VipsJpeg: out of order read"
|}.

(** A [pdf-lib] for which every buffer is a document of [n] pages, saved
    as [out]. *)
Definition pdflib_ok (n : nat) (out : Buffer) : PDFConverter.PdfLib := {|
  PDFConverter.PdfDoc := unit;
  PDFConverter.pdf_load := fun _ => Ok tt;
  PDFConverter.pdf_pageCount := fun _ => Ok n;
  PDFConverter.pdf_save := fun _ _ => Ok out
|}.

(** A [pdf-lib] that loads a document of [n] pages and fails to save it. *)
Definition pdflib_failing (n : nat) : PDFConverter.PdfLib := {|
  PDFConverter.PdfDoc := unit;
  PDFConverter.pdf_load := fun _ => Ok tt;
  PDFConverter.pdf_pageCount := fun _ => Ok n;
  PDFConverter.pdf_save := fun _ _ => Throw "Expected instance of PDFDict"
|}.

(** A process with one open listener, one closed listener, an empty store,
    and a clock that advances by a millisecond at each reading. *)
Definition world : World := {|
  wss := Some [mkClient 1 true [] 0; mkClient 3 true [] 0];
  published := [];
  globals := empty_store;
  clock := fun n => 1700000000000 + Z.of_nat n;
  ticks := 0
|}.

End Fixtures.

Lemma adapter_failure_witness :
  let image := @base64_decode Fixtures.host "iVBORw0KGgo=" in
  let pdf := @base64_decode Fixtures.host "JVBERi0xLjc=" in
  let lvl := Routes.or_else None "medium" in
  let md := ImageConverter.mkMetadata "png" 1000 1000 in
  let e_image := "Failed to convert image: VipsJpeg: out of order read" in
  let e_pdf := "Failed to compress PDF: Expected instance of PDFDict" in
  (@ImageConverter.sharp_new Fixtures.sharp_failing image = Ok tt
   /\ @ImageConverter.sharp_metadata Fixtures.sharp_failing image = Ok md
   /\ (@ImageConverter.convert Fixtures.host Fixtures.sharp_failing image "jpeg" lvl md
         (Some ImageController.relay) (emit image_opening Fixtures.world)).1
      = Throw e_image
   /\ @PDFConverter.pdf_load (Fixtures.pdflib_failing 2) pdf = Ok tt
   /\ @PDFConverter.pdf_pageCount (Fixtures.pdflib_failing 2) tt = Ok 2%nat
   /\ (@PDFConverter.compress (Fixtures.pdflib_failing 2) pdf lvl
         (Some PDFController.relay) (emit (pdf_opening 2) Fixtures.world)).1
      = Throw e_pdf)
  /\ (@ImageController.convertImage Fixtures.host Fixtures.sharp_failing
        image "jpeg" lvl Fixtures.world).1
     = Throw ("Image conversion failed: " +:+ e_image)
  /\ (@Routes.postImage Fixtures.host Fixtures.sharp_failing
        (Routes.mkImageBody (Some "jpeg") None (Some "iVBORw0KGgo=")) Fixtures.world).1
     = Ok (Routes.ApiError 500 ("Image conversion failed: " +:+ e_image))
  /\ (@PDFController.compressPDF Fixtures.host (Fixtures.pdflib_failing 2)
        pdf lvl Fixtures.world).1
     = Throw ("PDF compression failed: " +:+ e_pdf)
  /\ (@Routes.postPdf Fixtures.host (Fixtures.pdflib_failing 2)
        (Routes.mkPdfBody None (Some "JVBERi0xLjc=")) Fixtures.world).1
     = Ok (Routes.ApiError 500 ("PDF compression failed: " +:+ e_pdf)).
Proof.
  cbv zeta.
  assert (Hi : (@ImageConverter.convert Fixtures.host Fixtures.sharp_failing
     (@base64_decode Fixtures.host "iVBORw0KGgo=") "jpeg" (Routes.or_else None "medium")
     (ImageConverter.mkMetadata "png" 1000 1000) (Some ImageController.relay)
     (emit image_opening Fixtures.world)).1
     = Throw "Failed to convert image: VipsJpeg: out of order read")
    by (vm_compute; reflexivity).
  assert (Hp : (@PDFConverter.compress (Fixtures.pdflib_failing 2)
     (@base64_decode Fixtures.host "JVBERi0xLjc=") (Routes.or_else None "medium")
        (Some PDFController.relay) (emit (pdf_opening 2) Fixtures.world)).1
     = Throw "Failed to compress PDF: Expected instance of PDFDict")
    by (vm_compute; reflexivity).
  pose proof (@adapter_failure_published_once_and_propagated
                Fixtures.host Fixtures.sharp_failing (Fixtures.pdflib_failing 2)
                "iVBORw0KGgo=" "jpeg" "JVBERi0xLjc=" None Fixtures.world
                (ImageConverter.mkMetadata "png" 1000 1000) tt 2%nat _ _
                ltac:(discriminate) ltac:(discriminate) ltac:(discriminate)
                eq_refl eq_refl Hi eq_refl eq_refl Hp) as [Himg Hpdf].
  destruct Himg as (_ & Hrun & _ & _ & Hroute & _).
  destruct Hpdf as (_ & Hprun & _ & _ & Hproute & _).
  split; [repeat split; assumption || reflexivity|].
  split; [exact Hrun|]. split; [exact Hroute|].
  split; [exact Hprun|]. exact Hproute.
Defined.

(** ** Compression levels *)

Lemma image_settings_bmp_gif `{Host} format level :
  JS.toLowerCase format = "bmp" \/ JS.toLowerCase format = "gif" ->
  ImageConverter.getCompressionSettings format level
  = Ok (ImageConverter.Options ImageConverter.no_options).
Proof.
  unfold ImageConverter.getCompressionSettings.
  intros [-> | ->]; reflexivity.
Qed.

(** C10.  For an output format that is ['bmp'] or ['gif'] (in any
    letter case), the settings computed from the level are the empty
    object whatever the level is, and they are not handed to the encoder:
    for every input buffer, every two compression levels, every progress
    callback and every state of the process, [convert] relays the same
    events and returns or throws the same, and so does [convertImage]. *)
Theorem bmp_gif_independent_of_level :
  forall `{Host} `{ImageConverter.Sharp} (buf : Buffer) (format level1 level2 : string)
         (metadata : ImageConverter.Metadata)
         (progressCallback : option (JS.number -> string -> M unit)) (w : World),
    JS.toLowerCase format = "bmp" \/ JS.toLowerCase format = "gif" ->
    ImageConverter.getCompressionSettings format level1
      = Ok (ImageConverter.Options ImageConverter.no_options)
    /\ ImageConverter.getCompressionSettings format level2
      = Ok (ImageConverter.Options ImageConverter.no_options)
    /\ ImageConverter.convert buf format level1 metadata progressCallback w
       = ImageConverter.convert buf format level2 metadata progressCallback w
    /\ ImageController.convertImage buf format level1 w
       = ImageController.convertImage buf format level2 w.
Proof.
  intros HH HS buf format level1 level2 metadata cb w Hfmt.
  pose proof (image_settings_bmp_gif format level1 Hfmt) as H1.
  pose proof (image_settings_bmp_gif format level2 Hfmt) as H2.
  split; [exact H1|]. split; [exact H2|].
  assert (Hconv : forall md cb' w',
             ImageConverter.convert buf format level1 md cb' w'
             = ImageConverter.convert buf format level2 md cb' w').
  { intros md cb' w'. unfold ImageConverter.convert. now rewrite H1, H2. }
  split; [apply Hconv|].
  unfold ImageController.convertImage, try_catch, bind.
  destruct (broadcastProgress _ w) as [ [ [] | e ] w1 ]; [|reflexivity].
  destruct (lift (ImageConverter.sharp_new buf) w1) as [ [ [] | e ] w2 ]; [|reflexivity].
  destruct (lift (ImageConverter.sharp_metadata buf) w2) as [ [ md | e ] w3 ]; [|reflexivity].
  destruct (broadcastProgress _ w3) as [ [ [] | e ] w4 ]; [|reflexivity].
  now rewrite Hconv.
Qed.

Lemma bmp_gif_independent_of_level_witness :
  JS.toLowerCase "BMP" = "bmp"
  /\ @ImageConverter.convert Fixtures.host (Fixtures.sharp_ok [Byte.x42; Byte.x4d])
       [Byte.x89; Byte.x50] "BMP" "low" (ImageConverter.mkMetadata "png" 1 1)
       (Some ImageController.relay) Fixtures.world
     = @ImageConverter.convert Fixtures.host (Fixtures.sharp_ok [Byte.x42; Byte.x4d])
       [Byte.x89; Byte.x50] "BMP" "high" (ImageConverter.mkMetadata "png" 1 1)
       (Some ImageController.relay) Fixtures.world.
Proof.
  split; [reflexivity|].
  exact (proj1 (proj2 (proj2
    (@bmp_gif_independent_of_level Fixtures.host (Fixtures.sharp_ok [Byte.x42; Byte.x4d])
       [Byte.x89; Byte.x50] "BMP" "low" "high" (ImageConverter.mkMetadata "png" 1 1)
       (Some ImageController.relay) Fixtures.world (or_introl eq_refl))))).
Defined.

(** The levels the tables know. *)
Definition recognized (level : string) : bool :=
  bool_decide (level = "low") || bool_decide (level = "medium")
  || bool_decide (level = "high").

Lemma levels_lookup_other {V} (lo me hi : V) level :
  recognized level = false ->
  (list_to_map [("low", lo); ("medium", me); ("high", hi)] : gmap string V) !! level = None.
Proof.
  unfold recognized. intros Hr.
  apply orb_false_iff in Hr as [Hr Hhigh]. apply orb_false_iff in Hr as [Hlow Hmed].
  apply bool_decide_eq_false_1 in Hlow, Hmed, Hhigh.
  cbn [list_to_map foldr fst snd uncurry].
  rewrite !lookup_insert_ne by congruence. apply lookup_empty.
Qed.

(** What holds of the fallback: a level that is neither recognized nor the
    name of a member of [Object.prototype] selects the settings of
    ['medium'], in the PDF converter and, for the formats of its table, in
    the image converter. *)
Lemma unrecognized_level_selects_medium `{Host} (format level : string) :
  recognized level = false -> JS.inherited level = false ->
  PDFConverter.getCompressionSettings level = PDFConverter.getCompressionSettings "medium"
  /\ (is_Some (ImageConverter.settings !! JS.toLowerCase format) ->
      ImageConverter.getCompressionSettings format level
      = ImageConverter.getCompressionSettings format "medium").
Proof.
  intros Hr Hi. split.
  - unfold PDFConverter.getCompressionSettings, JS.get at 1.
    unfold PDFConverter.settings at 1. rewrite levels_lookup_other, Hi by exact Hr.
    reflexivity.
  - intros [entry Hentry].
    assert (Hget : JS.get ImageConverter.settings (JS.toLowerCase format) = JS.Own entry)
      by (unfold JS.get; now rewrite Hentry).
    assert (Hcases : entry = ImageConverter.jpeg_levels \/ entry = ImageConverter.png_levels
                     \/ entry = ImageConverter.webp_levels
                     \/ entry = ImageConverter.tiff_levels).
    { unfold ImageConverter.settings in Hentry.
      cbn [list_to_map foldr fst snd uncurry] in Hentry.
      repeat (rewrite lookup_insert in Hentry; case_decide;
              [injection Hentry as <-; tauto|]).
      now rewrite lookup_empty in Hentry. }
    assert (Hnone : JS.get entry level = JS.Undefined).
    { unfold JS.get. rewrite Hi.
      destruct Hcases as [-> | [-> | [-> | ->]]];
        (rewrite (levels_lookup_other _ _ _ level Hr) + 
         (unfold ImageConverter.jpeg_levels, ImageConverter.png_levels,
            ImageConverter.webp_levels, ImageConverter.tiff_levels;
          rewrite (levels_lookup_other _ _ _ level Hr))); reflexivity. }
    unfold ImageConverter.getCompressionSettings. rewrite Hget, Hnone.
    destruct Hcases as [-> | [-> | [-> | ->]]]; reflexivity.
Qed.

(** C9 at the failing input.  The level ["constructor"] is none of
    ['low'], ['medium'], ['high'], yet neither converter selects the
    settings of ['medium'] for it: the property read finds the member that
    every object inherits from [Object.prototype], which is truthy, so the
    fallback is not taken.  The PDF converter then saves with no
    [useObjectStreams] option, and the image converter hands [sharp] the
    built-in instead of [{ quality: 75, progressive: true }]. *)
Theorem level_constructor_is_not_medium :
  forall `{Host},
    recognized "constructor" = false
    /\ PDFConverter.getCompressionSettings "medium"
       = PDFConverter.Settings PDFConverter.medium
    /\ PDFConverter.getCompressionSettings "constructor"
       = PDFConverter.BuiltinMember "constructor"
    /\ PDFConverter.save_options (PDFConverter.getCompressionSettings "constructor")
       = PDFConverter.mkSaveOptions None false None
    /\ PDFConverter.save_options (PDFConverter.getCompressionSettings "medium")
       = PDFConverter.mkSaveOptions (Some true) false (Some "deflate")
    /\ ImageConverter.getCompressionSettings "jpeg" "medium"
       = Ok (ImageConverter.Options
               (ImageConverter.mkOptions (Some 75) (Some true)
                  None None None None None None None))
    /\ ImageConverter.getCompressionSettings "jpeg" "constructor"
       = Ok (ImageConverter.BuiltinMember ["jpeg"; "constructor"])
    /\ PDFConverter.getCompressionSettings "constructor"
       <> PDFConverter.getCompressionSettings "medium"
    /\ ImageConverter.getCompressionSettings "jpeg" "constructor"
       <> ImageConverter.getCompressionSettings "jpeg" "medium".
Proof.
  intros HH.
  split; [vm_compute; reflexivity|]. split; [vm_compute; reflexivity|].
  split; [vm_compute; reflexivity|]. split; [vm_compute; reflexivity|].
  split; [vm_compute; reflexivity|]. split; [vm_compute; reflexivity|].
  split; [vm_compute; reflexivity|].
  split; vm_compute; discriminate.
Qed.

(** ** The sequence of percentages *)

(** The percentages never go down along the list. *)
Fixpoint nondecreasing (ps : list JS.number) : bool :=
  match ps with
  | p :: (q :: _) as rest => JS.leb p q && nondecreasing rest
  | _ => true
  end.

(** A successful image conversion publishes 10, 30, 36, 48, 66, 84, 90, 90
    and 100, which never goes down. *)
Lemma image_progress_nondecreasing `{Host} `{ImageConverter.Sharp}
    buf format level w r w' :
  ImageController.convertImage buf format level w = (Ok r, w') ->
  exists evs,
    published w' = published w ++ evs
    /\ map progress evs
       = [JS.of_Z 10; JS.of_Z 30;
          JS.add (JS.of_Z 30) (JS.mul (JS.of_Z 10) JS.lit_0_6);
          JS.add (JS.of_Z 30) (JS.mul (JS.of_Z 30) JS.lit_0_6);
          JS.add (JS.of_Z 30) (JS.mul (JS.of_Z 60) JS.lit_0_6);
          JS.add (JS.of_Z 30) (JS.mul (JS.of_Z 90) JS.lit_0_6);
          JS.add (JS.of_Z 30) (JS.mul (JS.of_Z 100) JS.lit_0_6);
          JS.of_Z 90; JS.of_Z 100]
    /\ map progress evs
       = map JS.of_Z [10; 30; 36; 48; 66; 84; 90; 90; 100]
    /\ nondecreasing (map progress evs) = true
    /\ no_error_field evs.
Proof.
  rewrite convertImage_run. unfold image_body, convert_outcome.
  destruct (ImageConverter.sharp_new buf) as [[]|?]; [|intros [=]].
  destruct (ImageConverter.sharp_metadata buf) as [md|?]; [|intros [=]].
  destruct (ImageConverter.getCompressionSettings format level) as [s|?];
    [|intros [=]].
  destruct (ImageConverter.select_encoder format s) as [enc|?]; [|intros [=]].
  destruct (ImageConverter.sharp_format enc) as [[]|?]; [|intros [=]].
  destruct (ImageConverter.sharp_toBuffer buf enc) as [out|?]; [|intros [=]].
  intros Heq. apply pair_equal_spec in Heq as [_ <-].
  eexists. split.
  - rewrite published_emit. unfold with_store. cbn [published].
    rewrite published_emit, <- app_assoc. reflexivity.
  - split; [reflexivity|]. split; [vm_compute; reflexivity|].
    split; [vm_compute; reflexivity | repeat constructor].
Qed.

(** The events of a successful compression of a document of [n] pages. *)
Definition pdf_success_events (n : nat) : list ProgressEvent :=
  pdf_opening n
  ++ [pdf_relayed (JS.of_Z 10) "Loading PDF document...";
      pdf_relayed (JS.of_Z 30) "Analyzing document structure...";
      pdf_relayed (JS.of_Z 50) "Applying compression..."]
  ++ compression_events n
  ++ [pdf_relayed (JS.of_Z 90) "Generating compressed PDF...";
      pdf_relayed (JS.of_Z 100) "Compression complete!";
      event (JS.of_Z 90) "Preparing download...";
      event (JS.of_Z 100) "Compression completed!"].

Lemma compressPDF_success `{Host} `{PDFConverter.PdfLib} buf level w pdfDoc n out :
  PDFConverter.pdf_load buf = Ok pdfDoc ->
  PDFConverter.pdf_pageCount pdfDoc = Ok n ->
  PDFConverter.pdf_save pdfDoc
    (PDFConverter.save_options (PDFConverter.getCompressionSettings level)) = Ok out ->
  (PDFController.compressPDF buf level w).1
    = Ok (pdf_result (stored (PdfArtifact out) w).1 buf out)
  /\ published (PDFController.compressPDF buf level w).2
     = published w ++ pdf_success_events n.
Proof.
  intros Hload Hcount Hsave. rewrite compressPDF_run. unfold pdf_body, compress_outcome.
  rewrite Hload, Hcount, Hsave. split; [reflexivity|].
  cbn [snd]. rewrite published_emit. unfold with_store. cbn [published].
  rewrite published_emit. unfold pdf_success_events.
  rewrite <- !app_assoc. reflexivity.
Qed.

(** The events of nine pages, around the point where the percent drops. *)
Definition nine_pages_before : list ProgressEvent :=
  pdf_opening 9
  ++ [pdf_relayed (JS.of_Z 10) "Loading PDF document...";
      pdf_relayed (JS.of_Z 30) "Analyzing document structure...";
      pdf_relayed (JS.of_Z 50) "Applying compression..."]
  ++ map (page_event 9) (seq 0 8).

Definition nine_pages_after : list ProgressEvent :=
  [pdf_relayed (JS.of_Z 90) "Generating compressed PDF...";
   pdf_relayed (JS.of_Z 100) "Compression complete!";
   event (JS.of_Z 90) "Preparing download...";
   event (JS.of_Z 100) "Compression completed!"].

Lemma nine_pages_events :
  pdf_success_events 9
  = nine_pages_before
    ++ [page_event 9 8; pdf_relayed (JS.of_Z 85) "Applying document optimizations..."]
    ++ nine_pages_after.
Proof.
  unfold pdf_success_events, nine_pages_before, nine_pages_after, compression_events.
  change (seq 0 9) with (seq 0 8 ++ [8%nat]). rewrite map_app.
  rewrite <- !app_assoc. reflexivity.
Qed.

(** Up to eight pages the percentages of a successful compression never
    go down. *)
Lemma pdf_progress_nondecreasing_up_to_eight_pages (n : nat) :
  (n <= 8)%nat -> nondecreasing (map progress (pdf_success_events n)) = true.
Proof.
  intros Hn.
  do 9 (destruct n as [|n]; [vm_compute; reflexivity|]). lia.
Qed.

(** C2 at the failing input: a PDF of nine pages.  Whatever the level and
    the bytes are, when [pdf-lib] loads the document, counts nine pages
    and saves it, the compression succeeds, its first event has percent 10 and its last one
    percent 100, but the event for page 9, relayed from
    [50 + (8 / 9) * 40], is followed by the event relayed from the constant
    85 of "Applying document optimizations...", whose percent is smaller:
    the sequence goes down from about 79.9 to 79.5 without any failure. *)
Theorem pdf_progress_drops_after_ninth_page :
  forall `{Host} `{PDFConverter.PdfLib} (buf : Buffer) (level : string) (w : World)
         (pdfDoc : PDFConverter.PdfDoc) (out : Buffer),
    PDFConverter.pdf_load buf = Ok pdfDoc ->
    PDFConverter.pdf_pageCount pdfDoc = Ok 9%nat ->
    PDFConverter.pdf_save pdfDoc
      (PDFConverter.save_options (PDFConverter.getCompressionSettings level)) = Ok out ->
    let run := PDFController.compressPDF buf level w in
    let page9 := page_event 9 8 in
    let optimizations := pdf_relayed (JS.of_Z 85) "Applying document optimizations..." in
    (exists r, run.1 = Ok r)
    /\ (exists before after,
          published run.2
          = published w ++ before ++ [page9; optimizations] ++ after
          /\ no_error_field (before ++ [page9; optimizations] ++ after)
          /\ progress <$> head before = Some (JS.of_Z 10)
          /\ progress <$> last after = Some (JS.of_Z 100))
    /\ JS.ltb (progress optimizations) (progress page9) = true
    /\ nondecreasing (map progress (drop (length (published w)) (published run.2)))
       = false.
Proof.
  intros HH HP buf level w pdfDoc out Hload Hpages Hsave.
  destruct (compressPDF_success buf level w pdfDoc 9 out Hload Hpages Hsave)
    as [Hres Hpub].
  cbv zeta. rewrite Hres, Hpub.
  split; [eauto|]. split; [|split].
  - exists nine_pages_before, nine_pages_after.
    split; [now rewrite nine_pages_events|].
    split; [repeat constructor|]. split; reflexivity.
  - vm_compute. reflexivity.
  - rewrite drop_app_length. vm_compute. reflexivity.
Qed.

Lemma pdf_progress_drops_witness :
  let run := @PDFController.compressPDF Fixtures.host
               (Fixtures.pdflib_ok 9 [Byte.x25; Byte.x50; Byte.x44; Byte.x46])
               (Fixtures.decode 0 0 "JVBERi0xLjc=") "medium" Fixtures.world in
  (exists r, run.1 = Ok r)
  /\ nondecreasing (map progress (drop (length (published Fixtures.world))
                                        (published run.2))) = false.
Proof.
  cbv zeta.
  pose proof (@pdf_progress_drops_after_ninth_page Fixtures.host
                (Fixtures.pdflib_ok 9 [Byte.x25; Byte.x50; Byte.x44; Byte.x46])
                (Fixtures.decode 0 0 "JVBERi0xLjc=") "medium" Fixtures.world tt
                [Byte.x25; Byte.x50; Byte.x44; Byte.x46] eq_refl eq_refl eq_refl)
    as (Hok & _ & _ & Hdrop).
  split; [exact Hok | exact Hdrop].
Defined.

(** ** Binary64 arithmetic on sizes

    Facts about the IEEE 754 operations of [SpecFloat] at precision 53,
    as far as the compression ratio needs them: an operation on normal
    numbers whose exponents stay away from the subnormal and the overflow
    range yields a normal number with the sign the operands determine. *)

Lemma pow2_pos_step (d : positive) : 2 ^ Zpos d = 2 * 2 ^ (Zpos d - 1).
Proof. rewrite <- Z.pow_succ_r by lia. f_equal. lia. Qed.

Lemma digits2_pos_bounds p :
  2 ^ (Zpos (digits2_pos p) - 1) <= Zpos p < 2 ^ Zpos (digits2_pos p).
Proof.
  induction p as [p IH|p IH|]; cbn [digits2_pos].
  - rewrite Pos2Z.inj_succ, Pos2Z.inj_xI.
    replace (Z.succ (Zpos (digits2_pos p)) - 1) with (Zpos (digits2_pos p)) by lia.
    rewrite Z.pow_succ_r by lia.
    rewrite (pow2_pos_step (digits2_pos p)) in *.
    set (P := 2 ^ (Zpos (digits2_pos p) - 1)) in *. clearbody P. lia.
  - rewrite Pos2Z.inj_succ. change (Zpos p~0) with (2 * Zpos p).
    replace (Z.succ (Zpos (digits2_pos p)) - 1) with (Zpos (digits2_pos p)) by lia.
    rewrite Z.pow_succ_r by lia.
    rewrite (pow2_pos_step (digits2_pos p)) in *.
    set (P := 2 ^ (Zpos (digits2_pos p) - 1)) in *. clearbody P. lia.
  - simpl. lia.
Qed.

Lemma digits2_pos_unique p d :
  2 ^ (d - 1) <= Zpos p < 2 ^ d -> Zpos (digits2_pos p) = d.
Proof.
  intros [Hlo Hhi]. pose proof (digits2_pos_bounds p) as [Blo Bhi].
  assert (0 < d).
  { destruct (Z.lt_trichotomy d 0) as [Hd|[Hd|Hd]]; [|subst; simpl in *; lia|exact Hd].
    rewrite Z.pow_neg_r in Hhi by lia. lia. }
  destruct (Z.lt_trichotomy (Zpos (digits2_pos p)) d) as [Hlt|[Heq|Hgt]]; [|exact Heq|].
  - assert (2 ^ Zpos (digits2_pos p) <= 2 ^ (d - 1)) by (apply Z.pow_le_mono_r; lia). lia.
  - assert (2 ^ d <= 2 ^ (Zpos (digits2_pos p) - 1)) by (apply Z.pow_le_mono_r; lia). lia.
Qed.

(** *** Shifting right *)

Lemma shr_m_shr_1 mrs : 0 <= shr_m mrs -> shr_m (shr_1 mrs) = shr_m mrs / 2.
Proof.
  destruct mrs as [m r s]. cbn [shr_m shr_1]. intros Hm.
  destruct m as [|[p|p|]|p]; cbn [shr_m]; try lia; try reflexivity.
  - change (Zpos p~1) with (2 * Zpos p + 1).
    apply Z.div_unique with (r := 1); lia.
  - change (Zpos p~0) with (2 * Zpos p).
    apply Z.div_unique with (r := 0); lia.
Qed.

Lemma shr_m_iterated n : forall mrs,
  0 <= shr_m mrs ->
  shr_m (SpecFloat.iter_pos shr_1 n mrs) = shr_m mrs / 2 ^ Zpos n.
Proof.
  assert (Hnonneg : forall mrs, 0 <= shr_m mrs -> 0 <= shr_m (shr_1 mrs)).
  { intros mrs H. rewrite shr_m_shr_1 by exact H. apply Z.div_pos; lia. }
  induction n as [n IH|n IH|]; intros mrs Hm; cbn [SpecFloat.iter_pos].
  - rewrite IH, IH, shr_m_shr_1 by (rewrite ?IH; auto using Z.div_pos with zarith;
      try (apply Z.div_pos; [auto|apply Z.pow_pos_nonneg; lia])).
    change (Zpos n~1) with (2 * Zpos n + 1). rewrite !Z.div_div by (try apply Z.pow_pos_nonneg; lia).
    f_equal. replace (2 * Zpos n + 1) with (1 + Zpos n + Zpos n) by lia.
    rewrite !Z.pow_add_r by lia. change (2 ^ 1) with 2. lia.
  - rewrite IH, IH by (rewrite ?IH; auto;
      try (apply Z.div_pos; [auto|apply Z.pow_pos_nonneg; lia])).
    change (Zpos n~0) with (2 * Zpos n). rewrite !Z.div_div by (try apply Z.pow_pos_nonneg; lia).
    f_equal. replace (2 * Zpos n) with (Zpos n + Zpos n) by lia.
    rewrite !Z.pow_add_r by lia. reflexivity.
  - rewrite shr_m_shr_1 by exact Hm. reflexivity.
Qed.

Lemma shr_spec mrs e n :
  0 <= shr_m mrs -> 0 <= n ->
  snd (shr mrs e n) = e + n /\ shr_m (fst (shr mrs e n)) = shr_m mrs / 2 ^ n.
Proof.
  intros Hm Hn. destruct n as [|p|p]; cbn [shr fst snd]; [| |lia].
  - split; [lia|]. now rewrite Z.div_1_r.
  - split; [reflexivity|]. now apply shr_m_iterated.
Qed.

(** *** Rounding a mantissa of at least 53 bits *)

Lemma round_nearest_even_bounds q l :
  q <= round_nearest_even q l <= q + 1.
Proof. destruct l as [|[]]; simpl; try destruct (Z.even q); lia. Qed.

Lemma shr_m_of_loc m l : shr_m (shr_record_of_loc m l) = m.
Proof. destruct l as [|[]]; reflexivity. Qed.

Lemma fexp_normal x : -1021 <= x -> fexp 53 1024 x = x - 53.
Proof. intros Hx. unfold fexp, emin. lia. Qed.

Lemma top_bits m d :
  Zpos (digits2_pos m) = d -> 53 <= d ->
  2 ^ 52 <= Zpos m / 2 ^ (d - 53) < 2 ^ 53.
Proof.
  intros Hd Hge. pose proof (digits2_pos_bounds m) as [Hlo Hhi]. rewrite Hd in Hlo, Hhi.
  assert (Hpos : 0 < 2 ^ (d - 53)) by (apply Z.pow_pos_nonneg; lia).
  replace (d - 1) with (52 + (d - 53)) in Hlo by lia.
  replace d with (53 + (d - 53)) in Hhi at 1 by lia.
  rewrite Z.pow_add_r in Hlo, Hhi by lia.
  split.
  - apply Z.div_le_lower_bound; [exact Hpos|]. lia.
  - apply Z.div_lt_upper_bound; [exact Hpos|]. lia.
Qed.

Lemma binary_round_aux_normal s m e l :
  53 <= Zpos (digits2_pos m) ->
  -1021 <= Zpos (digits2_pos m) + e ->
  Zpos (digits2_pos m) + e <= 1023 ->
  exists m' e',
    binary_round_aux 53 1024 s (Zpos m) e l = S754_finite s m' e'
    /\ Zpos (digits2_pos m') = 53
    /\ Zpos (digits2_pos m) + e - 53 <= e' <= Zpos (digits2_pos m) + e - 52.
Proof.
  set (d := Zpos (digits2_pos m)). intros Hd Hlo Hhi.
  unfold binary_round_aux, shr_fexp. cbn [Zdigits2]. fold d.
  rewrite fexp_normal by exact Hlo.
  replace (d + e - 53 - e) with (d - 53) by lia.
  pose proof (shr_spec (shr_record_of_loc (Zpos m) l) e (d - 53)) as Hshr.
  rewrite shr_m_of_loc in Hshr.
  destruct (shr (shr_record_of_loc (Zpos m) l) e (d - 53)) as [mrs1 e1].
  cbn [fst snd] in Hshr. destruct Hshr as [He1 Hq]; [lia|lia|].
  pose proof (top_bits m d eq_refl Hd) as Hbits. rewrite <- Hq in Hbits.
  pose proof (round_nearest_even_bounds (shr_m mrs1) (loc_of_shr_record mrs1)) as Hr.
  destruct (round_nearest_even (shr_m mrs1) (loc_of_shr_record mrs1)) as [|p1|p1];
    [lia| |lia].
  cbn [Zdigits2 shr_record_of_loc].
  change (2 ^ 52) with 4503599627370496 in Hbits.
  change (2 ^ 53) with 9007199254740992 in Hbits.
  destruct (Z.eq_dec (Zpos p1) 9007199254740992) as [Htop|Hnot].
  - injection Htop as ->.
    change (digits2_pos 9007199254740992) with 54%positive.
    rewrite fexp_normal by lia.
    replace (54 + e1 - 53 - e1) with 1 by lia.
    cbn [shr SpecFloat.iter_pos shr_1 shr_m].
    replace (e1 + 1 <=? 1024 - 53) with true by (symmetry; apply Z.leb_le; lia).
    eexists _, _. split; [reflexivity|]. split; [reflexivity|]. lia.
  - assert (Hd1 : Zpos (digits2_pos p1) = 53).
    { apply digits2_pos_unique.
      change (2 ^ (53 - 1)) with 4503599627370496.
      change (2 ^ 53) with 9007199254740992. lia. }
    rewrite Hd1, fexp_normal by lia.
    replace (53 + e1 - 53 - e1) with 0 by lia.
    cbn [shr shr_m].
    replace (e1 <=? 1024 - 53) with true by (symmetry; apply Z.leb_le; lia).
    eexists _, _. split; [reflexivity|]. split; [exact Hd1|]. lia.
Qed.

Lemma binary_round_aux_exact s m e :
  Zpos (digits2_pos m) = 53 -> -1074 <= e <= 971 ->
  binary_round_aux 53 1024 s (Zpos m) e loc_Exact = S754_finite s m e.
Proof.
  intros Hd He. unfold binary_round_aux, shr_fexp. cbn [Zdigits2 shr_record_of_loc].
  rewrite Hd, fexp_normal by lia.
  replace (53 + e - 53 - e) with 0 by lia.
  cbn [shr shr_m loc_of_shr_record round_nearest_even Zdigits2 shr_record_of_loc].
  rewrite Hd, fexp_normal by lia.
  replace (53 + e - 53 - e) with 0 by lia.
  cbn [shr shr_m].
  replace (e <=? 1024 - 53) with true by (symmetry; apply Z.leb_le; lia).
  reflexivity.
Qed.

(** *** Shifting left *)

Lemma iter_xO_value p k : Zpos (Pos.iter xO p k) = Zpos p * 2 ^ Zpos k.
Proof.
  induction k as [|k IH] using Pos.peano_ind.
  - simpl. lia.
  - rewrite Pos.iter_succ, Pos2Z.inj_succ, Z.pow_succ_r by lia.
    change (Zpos (Pos.iter xO p k)~0) with (2 * Zpos (Pos.iter xO p k)).
    rewrite IH. lia.
Qed.

Lemma iter_xO_digits p k :
  Zpos (digits2_pos (Pos.iter xO p k)) = Zpos (digits2_pos p) + Zpos k.
Proof.
  induction k as [|k IH] using Pos.peano_ind.
  - simpl. lia.
  - rewrite Pos.iter_succ. cbn [digits2_pos]. rewrite Pos2Z.inj_succ, IH. lia.
Qed.

Lemma shl_align_spec m e e' :
  e' <= e ->
  Zpos (fst (shl_align m e e')) = Zpos m * 2 ^ (e - e')
  /\ snd (shl_align m e e') = e'
  /\ Zpos (digits2_pos (fst (shl_align m e e'))) = Zpos (digits2_pos m) + (e - e').
Proof.
  intros Hle. unfold shl_align.
  destruct (e' - e) as [|k|k] eqn:Ek; cbn [fst snd]; try lia.
  - replace (e - e') with 0 by lia. simpl. lia.
  - replace (e - e') with (Zpos k) by lia.
    rewrite iter_xO_value, iter_xO_digits. lia.
Qed.

Lemma shl_align_none m e e' : e <= e' -> shl_align m e e' = (m, e).
Proof.
  intros Hle. unfold shl_align. destruct (e' - e) as [|k|k] eqn:Ek; try reflexivity. lia.
Qed.

(** *** Rounding a mantissa to a normal number *)

Lemma binary_round_normal s p e :
  -1021 <= Zpos (digits2_pos p) + e ->
  Zpos (digits2_pos p) + e <= 1023 ->
  exists m' e',
    binary_round 53 1024 s p e = S754_finite s m' e'
    /\ Zpos (digits2_pos m') = 53
    /\ Zpos (digits2_pos p) + e - 53 <= e' <= Zpos (digits2_pos p) + e - 52
    /\ (Zpos (digits2_pos p) <= 53 ->
        e' = Zpos (digits2_pos p) + e - 53
        /\ Zpos m' = Zpos p * 2 ^ (53 - Zpos (digits2_pos p))).
Proof.
  set (d := Zpos (digits2_pos p)). intros Hlo Hhi.
  unfold binary_round. fold d. rewrite fexp_normal by exact Hlo.
  destruct (Z.le_gt_cases d 53) as [Hd|Hd].
  - pose proof (shl_align_spec p e (d + e - 53)) as Hal.
    destruct (shl_align p e (d + e - 53)) as [mz ez]. cbn [fst snd] in Hal.
    destruct Hal as (Hval & -> & Hdig); [lia|]. fold d in Hdig.
    rewrite binary_round_aux_exact by lia.
    eexists _, _. split; [reflexivity|]. split; [lia|]. split; [lia|].
    intros _. split; [reflexivity|]. rewrite Hval. f_equal. f_equal. lia.
  - rewrite shl_align_none by lia.
    destruct (binary_round_aux_normal s p e loc_Exact) as (m' & e' & Heq & Hdig & He');
      fold d; try lia.
    fold d in He'. exists m', e'. split; [exact Heq|]. split; [exact Hdig|].
    split; [exact He'|]. lia.
Qed.

(** *** Normal numbers and the four operations *)

(** [x] is a normal number of sign [s] whose exponent lies in [lo, hi]. *)
Definition normal (x : spec_float) (s : bool) (lo hi : Z) : Prop :=
  exists m e, x = S754_finite s m e /\ Zpos (digits2_pos m) = 53 /\ lo <= e <= hi.

Lemma normal_weaken x s lo hi lo' hi' :
  normal x s lo hi -> lo' <= lo -> hi <= hi' -> normal x s lo' hi'.
Proof. intros (m & e & -> & Hd & He) Hlo Hhi. exists m, e. repeat split; (exact Hd || lia). Qed.

Lemma digits_le_53 p : Zpos p < 2 ^ 53 -> Zpos (digits2_pos p) <= 53.
Proof.
  intros Hp. pose proof (digits2_pos_bounds p) as [Hlo _].
  destruct (Z.le_gt_cases (Zpos (digits2_pos p)) 53) as [H|H]; [exact H|].
  assert (2 ^ 53 <= 2 ^ (Zpos (digits2_pos p) - 1)) by (apply Z.pow_le_mono_r; lia). lia.
Qed.

(** An integer below 2^53 is represented exactly. *)
Lemma of_Z_pos z :
  0 < z < 2 ^ 53 ->
  exists m e, JS.of_Z z = S754_finite false m e
              /\ Zpos (digits2_pos m) = 53 /\ -52 <= e <= 0
              /\ Zpos m = z * 2 ^ (- e).
Proof.
  intros [Hpos Hlt]. destruct z as [|p|p]; try lia.
  unfold JS.of_Z, JS.prec, JS.emax, binary_normalize.
  pose proof (digits_le_53 p Hlt) as Hd.
  assert (0 < Zpos (digits2_pos p)) by lia.
  destruct (binary_round_normal false p 0) as (m & e & Heq & Hdig & He & Hex); try lia.
  destruct (Hex Hd) as [-> Hval].
  exists m, (Zpos (digits2_pos p) + 0 - 53). split; [exact Heq|]. split; [exact Hdig|].
  split; [lia|]. rewrite Hval. f_equal. f_equal. lia.
Qed.

Lemma sum_digits_bounds k j n :
  0 <= j -> 0 < n < 2 ^ 53 -> Zpos k = n * 2 ^ j ->
  1 <= Zpos (digits2_pos k) - j <= 53.
Proof.
  intros Hj [Hn Hn53] Hk. pose proof (digits2_pos_bounds k) as [Hlo Hhi].
  assert (Hpj : 0 < 2 ^ j) by (apply Z.pow_pos_nonneg; lia).
  split.
  - destruct (Z.le_gt_cases (Zpos (digits2_pos k)) j) as [H|H]; [|lia].
    assert (2 ^ Zpos (digits2_pos k) <= 2 ^ j) by (apply Z.pow_le_mono_r; lia).
    nia.
  - destruct (Z.le_gt_cases (Zpos (digits2_pos k)) (53 + j)) as [H|H]; [lia|].
    assert (2 ^ (53 + j) <= 2 ^ (Zpos (digits2_pos k) - 1)) by (apply Z.pow_le_mono_r; lia).
    rewrite Z.pow_add_r in * by lia. nia.
Qed.

(** The difference of two different sizes is a normal number whose sign is
    the sign of the difference. *)
Lemma sub_sizes o c :
  0 < o < 2 ^ 53 -> 0 <= c < 2 ^ 53 -> o <> c ->
  normal (SFsub 53 1024 (JS.of_Z o) (JS.of_Z c)) (o <? c) (-52) 1.
Proof.
  intros Ho Hc Hne.
  destruct (of_Z_pos o Ho) as (mo & eo & Heqo & Hdo & Heo & Hvo).
  destruct (Z.eq_dec c 0) as [->|Hc0].
  - rewrite Heqo. unfold JS.of_Z. cbn [binary_normalize SFsub].
    replace (o <? 0) with false by (symmetry; apply Z.ltb_ge; lia).
    exists mo, eo. split; [reflexivity|]. split; [exact Hdo|lia].
  - destruct (of_Z_pos c ltac:(lia)) as (mc & ec & Heqc & Hdc & Hec & Hvc).
    rewrite Heqo, Heqc. cbn [SFsub cond_Zopp].
    set (ez := Z.min eo ec).
    destruct (shl_align_spec mo eo ez ltac:(lia)) as (Hao & _ & _).
    destruct (shl_align_spec mc ec ez ltac:(lia)) as (Hac & _ & _).
    rewrite Hao, Hac, Hvo, Hvc.
    assert (Ho' : o * 2 ^ (- eo) * 2 ^ (eo - ez) = o * 2 ^ (- ez)).
    { rewrite <- Z.mul_assoc, <- Z.pow_add_r by lia. f_equal. f_equal. lia. }
    assert (Hc' : c * 2 ^ (- ec) * 2 ^ (ec - ez) = c * 2 ^ (- ez)).
    { rewrite <- Z.mul_assoc, <- Z.pow_add_r by lia. f_equal. f_equal. lia. }
    rewrite Ho', Hc'. rewrite <- Z.mul_sub_distr_r.
    assert (Hpz : 0 < 2 ^ (- ez)) by (apply Z.pow_pos_nonneg; lia).
    destruct (Z.ltb_spec o c) as [Hlt|Hge].
    + destruct ((o - c) * 2 ^ (- ez)) as [|k|k] eqn:Ek; try nia.
      cbn [binary_normalize].
      pose proof (sum_digits_bounds k (- ez) (c - o) ltac:(lia) ltac:(lia) ltac:(lia)) as Hk.
      destruct (binary_round_normal true k ez) as (m & e & Heq & Hdig & He & _); try lia.
      exists m, e. split; [exact Heq|]. split; [exact Hdig|lia].
    + destruct ((o - c) * 2 ^ (- ez)) as [|k|k] eqn:Ek; try nia.
      cbn [binary_normalize].
      pose proof (sum_digits_bounds k (- ez) (o - c) ltac:(lia) ltac:(lia) ltac:(lia)) as Hk.
      destruct (binary_round_normal false k ez) as (m & e & Heq & Hdig & He & _); try lia.
      exists m, e. split; [exact Heq|]. split; [exact Hdig|lia].
Qed.

Lemma div_normal x y sx sy lx hx ly hy :
  normal x sx lx hx -> normal y sy ly hy ->
  -968 <= lx - hy -> hx - ly <= 1020 ->
  normal (SFdiv 53 1024 x y) (xorb sx sy) (lx - hy - 53) (hx - ly - 51).
Proof.
  intros (mx & ex & -> & Hdx & Hex) (my & ey & -> & Hdy & Hey) Hlo Hhi.
  cbn [SFdiv]. unfold SFdiv_core_binary. cbn [Zdigits2]. rewrite Hdx, Hdy.
  replace (53 + ex - (53 + ey)) with (ex - ey) by lia.
  rewrite fexp_normal by lia.
  replace (Z.min (ex - ey - 53) (ex - ey)) with (ex - ey - 53) by lia.
  replace (ex - ey - (ex - ey - 53)) with 53 by lia.
  rewrite Z.shiftl_mul_pow2 by lia.
  pose proof (digits2_pos_bounds mx) as Bx. pose proof (digits2_pos_bounds my) as By.
  rewrite Hdx in Bx. rewrite Hdy in By.
  change (2 ^ (53 - 1)) with 4503599627370496 in *.
  change (2 ^ 53) with 9007199254740992 in *.
  pose proof (Z.div_eucl_eq (Zpos mx * 9007199254740992) (Zpos my) ltac:(lia)) as Heq.
  pose proof (Z.mod_pos_bound (Zpos mx * 9007199254740992) (Zpos my) ltac:(lia)) as Hmod.
  unfold Z.modulo in Hmod.
  destruct (Z.div_eucl (Zpos mx * 9007199254740992) (Zpos my)) as [q r].
  assert (Hq : 2 ^ 52 <= q < 2 ^ 54).
  { change (2 ^ 52) with 4503599627370496. change (2 ^ 54) with 18014398509481984. nia. }
  destruct q as [|pq|pq]; try (change (2 ^ 52) with 4503599627370496 in Hq; lia).
  assert (Hdq : 53 <= Zpos (digits2_pos pq) <= 54).
  { pose proof (digits2_pos_bounds pq) as [Blo Bhi]. split.
    - destruct (Z.le_gt_cases 53 (Zpos (digits2_pos pq))) as [H|H]; [exact H|].
      assert (2 ^ Zpos (digits2_pos pq) <= 2 ^ 52) by (apply Z.pow_le_mono_r; lia). lia.
    - destruct (Z.le_gt_cases (Zpos (digits2_pos pq)) 54) as [H|H]; [exact H|].
      assert (2 ^ 54 <= 2 ^ (Zpos (digits2_pos pq) - 1)) by (apply Z.pow_le_mono_r; lia).
      lia. }
  destruct (binary_round_aux_normal (xorb sx sy) pq (ex - ey - 53)
              (new_location (Zpos my) r)) as (m & e & Hres & Hdig & He); try lia.
  exists m, e. split; [exact Hres|]. split; [exact Hdig|lia].
Qed.

Lemma mul_normal x y sx sy lx hx ly hy :
  normal x sx lx hx -> normal y sy ly hy ->
  -1126 <= lx + ly -> hx + hy <= 917 ->
  normal (SFmul 53 1024 x y) (xorb sx sy) (lx + ly + 52) (hx + hy + 54).
Proof.
  intros (mx & ex & -> & Hdx & Hex) (my & ey & -> & Hdy & Hey) Hlo Hhi.
  cbn [SFmul].
  pose proof (digits2_pos_bounds mx) as Bx. pose proof (digits2_pos_bounds my) as By.
  rewrite Hdx in Bx. rewrite Hdy in By.
  change (2 ^ (53 - 1)) with 4503599627370496 in *.
  change (2 ^ 53) with 9007199254740992 in *.
  assert (Hp : 2 ^ 104 <= Zpos (mx * my) < 2 ^ 106).
  { rewrite Pos2Z.inj_mul.
    change (2 ^ 104) with (4503599627370496 * 4503599627370496).
    change (2 ^ 106) with (9007199254740992 * 9007199254740992). nia. }
  assert (Hdp : 105 <= Zpos (digits2_pos (mx * my)) <= 106).
  { pose proof (digits2_pos_bounds (mx * my)) as [Blo Bhi]. split.
    - destruct (Z.le_gt_cases 105 (Zpos (digits2_pos (mx * my)))) as [H|H]; [exact H|].
      assert (2 ^ Zpos (digits2_pos (mx * my)) <= 2 ^ 104) by (apply Z.pow_le_mono_r; lia).
      lia.
    - destruct (Z.le_gt_cases (Zpos (digits2_pos (mx * my))) 106) as [H|H]; [exact H|].
      assert (2 ^ 106 <= 2 ^ (Zpos (digits2_pos (mx * my)) - 1))
        by (apply Z.pow_le_mono_r; lia).
      lia. }
  destruct (binary_round_aux_normal (xorb sx sy) (mx * my) (ex + ey) loc_Exact)
    as (m & e & Hres & Hdig & He); try lia.
  exists m, e. split; [exact Hres|]. split; [exact Hdig|lia].
Qed.

Lemma of_Z_normal z : 0 < z < 2 ^ 53 -> normal (JS.of_Z z) false (-52) 0.
Proof.
  intros Hz. destruct (of_Z_pos z Hz) as (m & e & Heq & Hd & He & _).
  exists m, e. auto.
Qed.

Lemma of_Z_100 : normal (JS.of_Z 100) false (-46) (-46).
Proof.
  exists 7036874417766400%positive, (-46).
  split; [vm_compute; reflexivity|]. split; [reflexivity|lia].
Qed.

(** The number [(o - c) / o * 100] for sizes [o] and [c]. *)
Definition ratio (o c : Z) : JS.number :=
  JS.mul (JS.div (JS.sub (JS.of_Z o) (JS.of_Z c)) (JS.of_Z o)) (JS.of_Z 100).

Lemma ratio_normal o c :
  0 < o < 2 ^ 53 -> 0 <= c < 2 ^ 53 -> o <> c ->
  normal (ratio o c) (o <? c) (-99) 10.
Proof.
  intros Ho Hc Hne. unfold ratio, JS.mul, JS.div, JS.sub, JS.prec, JS.emax.
  pose proof (sub_sizes o c Ho Hc Hne) as Hsub.
  pose proof (div_normal _ _ _ _ _ _ _ _ Hsub (of_Z_normal o Ho) ltac:(lia) ltac:(lia)) as Hdiv.
  rewrite xorb_false_r in Hdiv.
  pose proof (mul_normal _ _ _ _ _ _ _ _ Hdiv of_Z_100 ltac:(lia) ltac:(lia)) as Hmul.
  rewrite xorb_false_r in Hmul.
  eapply normal_weaken; [exact Hmul|lia|lia].
Qed.

Lemma ratio_equal o : 0 < o < 2 ^ 53 -> ratio o o = S754_zero false.
Proof.
  intros Ho. unfold ratio, JS.mul, JS.div, JS.sub, JS.prec, JS.emax.
  destruct (of_Z_pos o Ho) as (m & e & Heq & Hd & He & Hv).
  rewrite Heq. cbn [SFsub cond_Zopp].
  rewrite Z.sub_diag. cbn [binary_normalize SFdiv xorb].
  reflexivity.
Qed.

(** ** The shape of [toFixed(1)] *)

Definition is_digit (c : ascii) : bool :=
  (48 <=? nat_of_ascii c)%nat && (nat_of_ascii c <=? 57)%nat.

Fixpoint all_digits (s : string) : bool :=
  match s with
  | EmptyString => true
  | String c s' => is_digit c && all_digits s'
  end.

Lemma string_app_assoc (a b c : string) : (a +:+ b) +:+ c = a +:+ (b +:+ c).
Proof.
  induction a as [|x a IH]; [reflexivity|].
  change ((String x a +:+ b) +:+ c) with (String x ((a +:+ b) +:+ c)).
  now rewrite IH.
Qed.

Lemma string_app_length (a b : string) :
  String.length (a +:+ b) = (String.length a + String.length b)%nat.
Proof.
  induction a as [|x a IH]; [reflexivity|].
  change (String.length (String x a +:+ b)) with (S (String.length (a +:+ b))).
  now rewrite IH.
Qed.

Lemma all_digits_app (a b : string) :
  all_digits a = true -> all_digits b = true -> all_digits (a +:+ b) = true.
Proof.
  induction a as [|x a IH]; intros Ha Hb; [exact Hb|].
  change (all_digits (String x a +:+ b)) with (is_digit x && all_digits (a +:+ b)).
  cbn [all_digits] in Ha. apply andb_true_iff in Ha as [Hx Ha].
  now rewrite Hx, IH.
Qed.

Lemma zeros_length n : String.length (JS.zeros n) = n.
Proof. induction n as [|n IH]; simpl; congruence. Qed.

Lemma all_digits_zeros n : all_digits (JS.zeros n) = true.
Proof. induction n as [|n IH]; [reflexivity|]. cbn [JS.zeros all_digits]. now rewrite IH. Qed.

Lemma substring_length (s : string) : forall n m,
  (n + m <= String.length s)%nat -> String.length (substring n m s) = m.
Proof.
  induction s as [|c s IH]; intros n m Hlen; cbn [String.length] in Hlen.
  - assert (n = 0%nat) by lia. assert (m = 0%nat) by lia. subst. reflexivity.
  - destruct n as [|n]; destruct m as [|m]; cbn [substring String.length].
    + reflexivity.
    + rewrite IH by lia. reflexivity.
    + apply IH. lia.
    + apply IH. lia.
Qed.

Lemma all_digits_substring (s : string) : forall n m,
  all_digits s = true -> all_digits (substring n m s) = true.
Proof.
  induction s as [|c s IH]; intros n m Hs.
  - destruct n, m; reflexivity.
  - cbn [all_digits] in Hs. apply andb_true_iff in Hs as [Hc Hs].
    destruct n as [|n]; destruct m as [|m]; cbn [substring all_digits].
    + reflexivity.
    + now rewrite Hc, IH.
    + now apply IH.
    + now apply IH.
Qed.

Lemma is_digit_pretty_N_char x : is_digit (pretty_N_char x) = true.
Proof. unfold pretty_N_char. repeat case_match; reflexivity. Qed.

Lemma all_digits_pretty_N_go x : forall s,
  all_digits s = true -> all_digits (pretty_N_go x s) = true.
Proof.
  induction (N.lt_wf_0 x) as [x _ IH]; intros s Hs.
  destruct (decide (x = 0)%N) as [->|Hx].
  - now rewrite pretty_N_go_0.
  - rewrite pretty_N_go_step by lia.
    apply IH; [apply N.div_lt; lia|].
    cbn [all_digits]. now rewrite is_digit_pretty_N_char, Hs.
Qed.

Lemma all_digits_pretty_Z (n : Z) : 0 <= n -> all_digits (pretty n) = true.
Proof.
  intros Hn. destruct n as [|p|p]; [reflexivity| |lia].
  unfold pretty, pretty_Z, pretty, pretty_positive, pretty, pretty_N.
  case_decide; [reflexivity|]. now apply all_digits_pretty_N_go.
Qed.

(** The digits of [toFixed(1)] for a non-negative [n]: an integer part of
    at least one digit, a point, and exactly one more digit. *)
Lemma fixed_digits_shape (n : Z) :
  0 <= n ->
  exists int frac,
    JS.fixed_digits 1 n = int +:+ "." +:+ frac
    /\ all_digits int = true /\ (1 <= String.length int)%nat
    /\ all_digits frac = true /\ String.length frac = 1%nat.
Proof.
  intros Hn. unfold JS.fixed_digits.
  set (m := JS.zeros (2 - String.length (pretty n)) +:+ pretty n).
  assert (Hm : all_digits m = true)
    by (apply all_digits_app; [apply all_digits_zeros | now apply all_digits_pretty_Z]).
  assert (Hlen : (2 <= String.length m)%nat).
  { unfold m. rewrite string_app_length, zeros_length. lia. }
  exists (substring 0 (String.length m - 1) m), (substring (String.length m - 1) 1 m).
  split; [reflexivity|].
  split; [now apply all_digits_substring|].
  split; [rewrite substring_length; lia|].
  split; [now apply all_digits_substring|].
  apply substring_length. lia.
Qed.

Lemma scaled_round_nonneg f m e : 0 <= JS.scaled_round f m e.
Proof.
  unfold JS.scaled_round.
  assert (0 <= Zpos m * 10 ^ Z.of_nat f) by (apply Z.mul_nonneg_nonneg; [|apply Z.pow_nonneg]; lia).
  destruct e as [|k|k].
  - lia.
  - apply Z.mul_nonneg_nonneg; [lia|]. apply Z.pow_nonneg. lia.
  - assert (0 < 2 ^ Zpos k) by (apply Z.pow_pos_nonneg; lia).
    apply Z.div_pos; lia.
Qed.

Lemma not_huge m e :
  Zpos (digits2_pos m) = 53 -> e <= 10 -> JS.huge m e = false.
Proof.
  intros Hd He. pose proof (digits2_pos_bounds m) as [_ Hm]. rewrite Hd in Hm.
  change (2 ^ 53) with 9007199254740992 in Hm.
  unfold JS.huge. change (10 ^ 21) with 1000000000000000000000.
  destruct e as [|k|k]; apply Z.leb_gt.
  - lia.
  - assert (2 ^ Zpos k <= 2 ^ 10) by (apply Z.pow_le_mono_r; lia).
    change (2 ^ 10) with 1024 in *.
    assert (0 < 2 ^ Zpos k) by (apply Z.pow_pos_nonneg; lia). nia.
  - assert (0 < 2 ^ Zpos k) by (apply Z.pow_pos_nonneg; lia). nia.
Qed.

(** The ratio string of two sizes: a minus sign exactly when the result is
    larger than the original, then digits with one decimal place, then the
    percent sign. *)
Lemma compressionRatio_shape `{Host} (o c : Z) :
  0 < o < 2 ^ 53 -> 0 <= c < 2 ^ 53 ->
  exists int frac,
    compressionRatio_of o c
    = (if o <? c then "-" else "") +:+ int +:+ "." +:+ frac +:+ "%"
    /\ all_digits int = true /\ (1 <= String.length int)%nat
    /\ all_digits frac = true /\ String.length frac = 1%nat.
Proof.
  intros Ho Hc. unfold compressionRatio_of. fold (ratio o c).
  destruct (Z.eq_dec o c) as [<-|Hne].
  - rewrite ratio_equal by exact Ho. rewrite Z.ltb_irrefl.
    exists "0", "0". repeat split; reflexivity.
  - destruct (ratio_normal o c Ho Hc Hne) as (m & e & -> & Hd & He).
    unfold JS.toFixed. rewrite not_huge by (exact Hd || lia).
    destruct (fixed_digits_shape (JS.scaled_round 1 m e) (scaled_round_nonneg 1 m e))
      as (int & frac & -> & Hint & Hlen & Hfrac & Hlen').
    exists int, frac. split; [|auto].
    rewrite !string_app_assoc. reflexivity.
Qed.

(** ** Sizes and ratio of a successful conversion *)

Lemma convertImage_success `{Host} `{ImageConverter.Sharp} buf format level w r :
  (ImageController.convertImage buf format level w).1 = Ok r ->
  exists md out,
    ImageConverter.sharp_metadata buf = Ok md
    /\ (ImageConverter.convert buf format level md (Some ImageController.relay)
          (emit image_opening w)).1 = Ok out
    /\ r = image_result (stored (ImageArtifact out format) w).1 buf format out.
Proof.
  rewrite convertImage_run. unfold image_body.
  destruct (ImageConverter.sharp_new buf) as [[]|?]; [|intros [=]].
  destruct (ImageConverter.sharp_metadata buf) as [md|?]; [|intros [=]].
  destruct (convert_outcome buf format level) as [[out|e] evs] eqn:E; [|intros [=]].
  cbn [fst]. intros Hr. exists md, out. split; [reflexivity|].
  rewrite convert_run, E. split; [reflexivity|]. congruence.
Qed.

Lemma compressPDF_success_result `{Host} `{PDFConverter.PdfLib} buf level w r :
  (PDFController.compressPDF buf level w).1 = Ok r ->
  exists pdfDoc n out,
    PDFConverter.pdf_load buf = Ok pdfDoc
    /\ PDFConverter.pdf_pageCount pdfDoc = Ok n
    /\ (PDFConverter.compress buf level (Some PDFController.relay)
          (emit (pdf_opening n) w)).1 = Ok out
    /\ r = pdf_result (stored (PdfArtifact out) w).1 buf out.
Proof.
  rewrite compressPDF_run. unfold pdf_body.
  destruct (PDFConverter.pdf_load buf) as [pdfDoc|?]; [|intros [=]].
  destruct (PDFConverter.pdf_pageCount pdfDoc) as [n|?] eqn:En; [|intros [=]].
  destruct (compress_outcome buf level) as [[out|e] evs] eqn:E; [|intros [=]].
  cbn [fst]. intros Hr. exists pdfDoc, n, out. split; [reflexivity|].
  split; [exact En|].
  rewrite compress_run, E. split; [reflexivity|]. congruence.
Qed.

(** The sign, the digits with one decimal place, and the percent sign. *)
Definition ratio_string (original result : Z) (s : string) : Prop :=
  exists int frac,
    s = (if original <? result then "-" else "") +:+ int +:+ "." +:+ frac +:+ "%"
    /\ all_digits int = true /\ (1 <= String.length int)%nat
    /\ all_digits frac = true /\ String.length frac = 1%nat.

(** C7.  Take an image request and a PDF request that succeed.  The result
    of each reports as original size the byte length of the request
    buffer and as result size the byte length of the buffer the adapter
    returned, and its ratio is
    [((originalSize - resultSize) / originalSize * 100).toFixed(1) + '%']
    computed in binary64 from these two lengths; the route handler sends
    that very result.  For a non-empty input (and lengths below 2^53, as
    every buffer has) the ratio is a string of digits with exactly one
    decimal place and a trailing percent sign, preceded by a minus sign
    exactly when the output is larger than the input: nothing clamps it
    at zero. *)
Theorem conversion_sizes_and_ratio :
  forall `{Host} `{ImageConverter.Sharp} `{PDFConverter.PdfLib}
         (image_data format pdf_data : string) (level : option string) (w : World)
         (ri : ImageController.ConversionResult) (rp : PDFController.CompressionResult),
    image_data <> "" -> format <> "" -> pdf_data <> "" ->
    let image := base64_decode image_data in
    let pdf := base64_decode pdf_data in
    let lvl := Routes.or_else level "medium" in
    (ImageController.convertImage image format lvl w).1 = Ok ri ->
    (PDFController.compressPDF pdf lvl w).1 = Ok rp ->
    (exists md out,
       ImageConverter.sharp_metadata image = Ok md
       /\ (ImageConverter.convert image format lvl md (Some ImageController.relay)
             (emit image_opening w)).1 = Ok out
       /\ ImageController.originalSize ri = Z.of_nat (length image)
       /\ ImageController.convertedSize ri = Z.of_nat (length out)
       /\ ImageController.compressionRatio ri
          = JS.toFixed toStringLarge 1
              (JS.mul (JS.div (JS.sub (JS.of_Z (Z.of_nat (length image)))
                                      (JS.of_Z (Z.of_nat (length out))))
                              (JS.of_Z (Z.of_nat (length image))))
                      (JS.of_Z 100)) +:+ "%"
       /\ (Routes.postImage
             (Routes.mkImageBody (Some format) level (Some image_data)) w).1
          = Ok (Routes.ImageConverted ri)
       /\ (0 < Z.of_nat (length image) < 2 ^ 53 -> Z.of_nat (length out) < 2 ^ 53 ->
           ratio_string (Z.of_nat (length image)) (Z.of_nat (length out))
             (ImageController.compressionRatio ri)))
    /\ (exists pdfDoc pageCount out,
          PDFConverter.pdf_load pdf = Ok pdfDoc
          /\ PDFConverter.pdf_pageCount pdfDoc = Ok pageCount
          /\ (PDFConverter.compress pdf lvl (Some PDFController.relay)
                (emit (pdf_opening pageCount) w)).1 = Ok out
          /\ PDFController.originalSize rp = Z.of_nat (length pdf)
          /\ PDFController.compressedSize rp = Z.of_nat (length out)
          /\ PDFController.compressionRatio rp
             = JS.toFixed toStringLarge 1
                 (JS.mul (JS.div (JS.sub (JS.of_Z (Z.of_nat (length pdf)))
                                         (JS.of_Z (Z.of_nat (length out))))
                                 (JS.of_Z (Z.of_nat (length pdf))))
                         (JS.of_Z 100)) +:+ "%"
          /\ (Routes.postPdf (Routes.mkPdfBody level (Some pdf_data)) w).1
             = Ok (Routes.PdfCompressed rp)
          /\ (0 < Z.of_nat (length pdf) < 2 ^ 53 -> Z.of_nat (length out) < 2 ^ 53 ->
              ratio_string (Z.of_nat (length pdf)) (Z.of_nat (length out))
                (PDFController.compressionRatio rp))).
Proof.
  intros HH HS HP image_data format pdf_data level w ri rp Hdata Hformat Hpdata
    image pdf lvl Hri Hrp.
  split.
  - destruct (convertImage_success image format lvl w ri Hri) as (md & out & Hmd & Hconv & ->).
    exists md, out. split; [exact Hmd|]. split; [exact Hconv|].
    split; [reflexivity|]. split; [reflexivity|]. split; [reflexivity|]. split.
    + rewrite postImage_run by assumption. fold image lvl.
      destruct (ImageController.convertImage image format lvl w) as [[r|e] w'];
        cbn [fst] in *; congruence.
    + intros Hlen Hout. cbn [image_result ImageController.compressionRatio].
      apply compressionRatio_shape; lia.
  - destruct (compressPDF_success_result pdf lvl w rp Hrp)
      as (pdfDoc & n & out & Hload & Hcount & Hcomp & ->).
    exists pdfDoc, n, out. split; [exact Hload|]. split; [exact Hcount|].
    split; [exact Hcomp|].
    split; [reflexivity|]. split; [reflexivity|]. split; [reflexivity|]. split.
    + rewrite postPdf_run by assumption. fold pdf lvl.
      destruct (PDFController.compressPDF pdf lvl w) as [[r|e] w'];
        cbn [fst] in *; congruence.
    + intros Hlen Hout. cbn [pdf_result PDFController.compressionRatio].
      apply compressionRatio_shape; lia.
Qed.

Lemma conversion_sizes_and_ratio_witness :
  let grown := [Byte.xff; Byte.xd8; Byte.xff; Byte.xe0; Byte.x00; Byte.x10;
                Byte.x4a; Byte.x46; Byte.x49; Byte.x46; Byte.x00; Byte.x01] in
  let shrunk := [Byte.x25; Byte.x50; Byte.x44; Byte.x46; Byte.x2d; Byte.x31] in
  let ri := ImageController.mkResult
              "/api/convert/download/converted_1700000000000.jpeg" "jpeg" 8 12 "-50.0%" in
  let rp := PDFController.mkResult
              "/api/convert/download/compressed_1700000000000.pdf" 8 6 "25.0%" in
  (@ImageController.convertImage Fixtures.host (Fixtures.sharp_ok grown)
     (@base64_decode Fixtures.host "iVBORw0KGgo=") "jpeg"
     (Routes.or_else None "medium") Fixtures.world).1 = Ok ri
  /\ (@PDFController.compressPDF Fixtures.host (Fixtures.pdflib_ok 2 shrunk)
        (@base64_decode Fixtures.host "JVBERi0xLjc=")
        (Routes.or_else None "medium") Fixtures.world).1 = Ok rp
  /\ (@Routes.postImage Fixtures.host (Fixtures.sharp_ok grown)
        (Routes.mkImageBody (Some "jpeg") None (Some "iVBORw0KGgo=")) Fixtures.world).1
     = Ok (Routes.ImageConverted ri)
  /\ (@Routes.postPdf Fixtures.host (Fixtures.pdflib_ok 2 shrunk)
        (Routes.mkPdfBody None (Some "JVBERi0xLjc=")) Fixtures.world).1
     = Ok (Routes.PdfCompressed rp)
  /\ ratio_string 8 12 "-50.0%"
  /\ ratio_string 8 6 "25.0%".
Proof.
  cbv zeta.
  set (grown := [Byte.xff; Byte.xd8; Byte.xff; Byte.xe0; Byte.x00; Byte.x10;
                 Byte.x4a; Byte.x46; Byte.x49; Byte.x46; Byte.x00; Byte.x01]).
  set (shrunk := [Byte.x25; Byte.x50; Byte.x44; Byte.x46; Byte.x2d; Byte.x31]).
  set (ri := ImageController.mkResult
               "/api/convert/download/converted_1700000000000.jpeg" "jpeg" 8 12 "-50.0%").
  set (rp := PDFController.mkResult
               "/api/convert/download/compressed_1700000000000.pdf" 8 6 "25.0%").
  assert (Hi : (@ImageController.convertImage Fixtures.host (Fixtures.sharp_ok grown)
     (@base64_decode Fixtures.host "iVBORw0KGgo=") "jpeg"
     (Routes.or_else None "medium") Fixtures.world).1 = Ok ri)
    by (vm_compute; reflexivity).
  assert (Hp : (@PDFController.compressPDF Fixtures.host (Fixtures.pdflib_ok 2 shrunk)
        (@base64_decode Fixtures.host "JVBERi0xLjc=")
        (Routes.or_else None "medium") Fixtures.world).1 = Ok rp)
    by (vm_compute; reflexivity).
  pose proof (@conversion_sizes_and_ratio
                Fixtures.host (Fixtures.sharp_ok grown) (Fixtures.pdflib_ok 2 shrunk)
                "iVBORw0KGgo=" "jpeg" "JVBERi0xLjc=" None Fixtures.world ri rp
                ltac:(discriminate) ltac:(discriminate) ltac:(discriminate) Hi Hp)
    as [(md & out & _ & Hout & _ & _ & _ & Hroute & Hshape)
        (doc & pages & pout & _ & Hpages & Hpout & _ & _ & _ & Hproute & Hpshape)].
  vm_compute in Hpages. injection Hpages as Hpages. subst pages.
  vm_compute in Hout. injection Hout as Hout. subst out.
  vm_compute in Hpout. injection Hpout as Hpout. subst pout.
  split; [exact Hi|]. split; [exact Hp|].
  split; [exact Hroute|]. split; [exact Hproute|].
  split.
  - apply Hshape; vm_compute; [split|]; reflexivity.
  - apply Hpshape; vm_compute; [split|]; reflexivity.
Defined.

(** * Further properties of the code *)

(** ** The store under sweeps, puts, retrievals and timers *)

Lemma keep_keep t1 t2 o : keep t2 (keep t1 o) = keep (Z.max t1 t2) o.
Proof.
  destruct o as [f|]; [|reflexivity]. unfold keep, expired.
  destruct (Z.gtb_spec (t1 - timestamp f) maxAge) as [H1|H1];
    destruct (Z.gtb_spec (Z.max t1 t2 - timestamp f) maxAge) as [H|H];
    try destruct (Z.gtb_spec (t2 - timestamp f) maxAge) as [H2|H2];
    try reflexivity; lia.
Qed.

Lemma keep_Some t o f : keep t o = Some f -> o = Some f /\ t - timestamp f <= maxAge.
Proof.
  destruct o as [f'|]; [|discriminate]. unfold keep, expired.
  destruct (Z.gtb_spec (t - timestamp f') maxAge); [discriminate|].
  intros [= <-]. split; [reflexivity|lia].
Qed.

(** X1.  Sweeps compose: a sweep at [t1] followed by a sweep at [t2]
    leaves the store that one sweep at the later of the two times leaves,
    in whatever order the two times come.  A sweep only removes: a record
    found after it was there before, unchanged, and is at most ten minutes
    old at the time of the sweep. *)
Theorem sweeps_compose :
  forall (t1 t2 : Z) (tf : TempFiles),
    cleanupOldFiles t2 (cleanupOldFiles t1 tf) = cleanupOldFiles (Z.max t1 t2) tf
    /\ cleanupOldFiles t2 (cleanupOldFiles t1 tf)
       = cleanupOldFiles t1 (cleanupOldFiles t2 tf)
    /\ (forall k f, live (cleanupOldFiles t1 tf) k = Some f ->
          live tf k = Some f /\ t1 - timestamp f <= 600000).
Proof.
  intros t1 t2 tf.
  assert (Hmax : forall a b, cleanupOldFiles b (cleanupOldFiles a tf)
                             = cleanupOldFiles (Z.max a b) tf).
  { intros a b. destruct tf as [files|]; [|reflexivity]. cbn [cleanupOldFiles].
    f_equal. apply map_eq. intros k. rewrite !cleanup_lookup. apply keep_keep. }
  split; [apply Hmax|]. split.
  - rewrite !Hmax. now rewrite Z.max_comm.
  - intros k f Hk. rewrite live_cleanup in Hk. apply keep_Some in Hk.
    now rewrite maxAge_eq in Hk.
Qed.



(** *** Integrity over any sequence of store operations *)

(** The response that serves a record. *)
Definition served (f : FileData) : Response :=
  FileResponse (mimeType f) (contentDisposition_of (originalName f))
               (Z.of_nat (length (buffer f))) (buffer f).

(** What the store holds, and what its timers aim at, was put there. *)
Lemma run_ops_invariant (Q : string -> FileData -> Prop) ops : forall g,
  (forall k f, live (tempFiles g) k = Some f -> Q k f) ->
  (forall tm, tm ∈ timers g -> exists f, Q (target tm) f) ->
  (forall c, OpPut c ∈ ops ->
             Q (identifier c) (artifact_record (t_stamp c) (artifact c))) ->
  (forall k f, live (tempFiles (run_ops ops g)) k = Some f -> Q k f)
  /\ (forall tm, tm ∈ timers (run_ops ops g) -> exists f, Q (target tm) f).
Proof.
  induction ops as [|op ops IH]; intros g Hg Ht Hops; [split; assumption|].
  cbn [run_ops foldl]. apply IH.
  - intros k f. destruct op as [c|now filename|now]; cbn [run_op].
    + rewrite live_put. intros [Hk _]%keep_Some. case_decide as Hd.
      * injection Hk as <-. subst k. apply Hops. left.
      * now apply Hg.
    + rewrite tempFiles_download. apply Hg.
    + rewrite live_runTimers. destruct (existsb _ _); [discriminate|apply Hg].
  - intros tm. destruct op as [c|now filename|now]; cbn [run_op].
    + rewrite put_timers. apply Ht.
    + intros [H|[Htm [f Hf]]]%timers_download; [now apply Ht|].
      exists f. rewrite Htm. now apply Hg.
    + cbn [runTimers timers]. intros [_ H]%list_elem_of_filter. now apply Ht.
  - intros c Hc. apply Hops. now right.
Qed.

(** X3.  Integrity of the store over any history.  Start the process
    ([global.tempFiles] undefined, no timer pending) and run any sequence
    of puts, retrievals and timer rounds.  Whatever a retrieval then
    serves under a name is the record some put of the history stored
    under that very name, with its bytes, content type and display name;
    every deletion still pending aims at a name that a put has issued;
    and a name that no put has issued is answered 404 or, for the name of
    a member of [Object.prototype], 500, never with content. *)
Theorem served_content_was_stored :
  forall (ops : list StoreOp) (now : Z) (filename : string),
    let g := run_ops ops empty_store in
    let issued k f := exists c, OpPut c ∈ ops /\ identifier c = k
                                /\ f = artifact_record (t_stamp c) (artifact c) in
    (forall contentType contentDisposition contentLength body,
        (download now filename g).1
        = FileResponse contentType contentDisposition contentLength body ->
        exists f, issued filename f /\ (download now filename g).1 = served f)
    /\ (forall tm, tm ∈ timers g -> exists f, issued (target tm) f)
    /\ ((forall c, OpPut c ∈ ops -> identifier c <> filename) ->
        (download now filename g).1 = JsonError 404 "File not found or expired"
        \/ (JS.inherited filename = true
            /\ (download now filename g).1 = JsonError 500 "Failed to download file")).
Proof.
  intros ops now filename g issued.
  destruct (run_ops_invariant issued ops empty_store) as [Hlive Htimers].
  { intros k f. discriminate. }
  { intros tm Htm. inversion Htm. }
  { intros c Hc. exists c. auto. }
  fold g in Hlive, Htimers.
  assert (Hcases : forall f, live (tempFiles g) filename = Some f ->
                             (download now filename g).1 = served f).
  { intros f Hf. now rewrite (download_found _ _ _ _ Hf). }
  split; [|split; [exact Htimers|]].
  - intros ct cd len body Hresp.
    destruct (live (tempFiles g) filename) as [f|] eqn:Hf.
    + exists f. split; [now apply Hlive|now apply Hcases].
    + exfalso. revert Hresp. unfold download. unfold live in Hf.
      destruct (tempFiles g) as [files|]; [|discriminate].
      unfold JS.get. rewrite Hf. destruct (JS.inherited filename); discriminate.
  - intros Hfresh.
    destruct (live (tempFiles g) filename) as [f|] eqn:Hf.
    + exfalso. destruct (Hlive _ _ Hf) as (c & Hc & Hid & _). now apply (Hfresh c).
    + unfold download. unfold live in Hf.
      destruct (tempFiles g) as [files|]; [|now left].
      unfold JS.get. rewrite Hf. destruct (JS.inherited filename); [right|left]; auto.
Qed.



(** X5.  Names of members of [Object.prototype].  A retrieval under such
    a name, say ["constructor"] or ["toString"], when the store holds no
    record of that name, answers 404 as long as [global.tempFiles] does
    not exist and 500 from the first put on; either way it changes
    nothing and schedules nothing.  No identifier that a
    [storeForDownload] issues is such a name. *)
Theorem download_of_prototype_member_name :
  forall (now : Z) (filename : string) (g : Globals),
    JS.inherited filename = true ->
    live (tempFiles g) filename = None ->
    download now filename g
    = (match tempFiles g with
       | Some _ => JsonError 500 "Failed to download file"
       | None => JsonError 404 "File not found or expired"
       end, g)
    /\ (forall t_name t_stamp t_sweep a,
          (put t_name t_stamp t_sweep a g).1 <> downloadPrefix +:+ filename).
Proof.
  intros now filename g Hproto Hnone. split.
  - unfold download. unfold live in Hnone.
    destruct (tempFiles g) as [files|]; [|reflexivity].
    unfold JS.get. now rewrite Hnone, Hproto.
  - intros t_name t_stamp t_sweep a. rewrite put_url.
    intros E. apply (inj (String.app downloadPrefix)) in E.
    pose proof (artifact_filename_not_inherited t_name a) as Hn.
    rewrite E in Hn. congruence.
Qed.

Lemma download_of_prototype_member_name_witness :
  let g := (put 1700000000000 1700000000000 1700000000000
                (PdfArtifact [Byte.x25; Byte.x50]) empty_store).2 in
  download 5 "constructor" empty_store
  = (JsonError 404 "File not found or expired", empty_store)
  /\ download 1700000001000 "constructor" g
     = (JsonError 500 "Failed to download file", g).
Proof.
  cbv zeta. split.
  - exact (proj1 (download_of_prototype_member_name 5 "constructor" empty_store
                    eq_refl eq_refl)).
  - exact (proj1 (download_of_prototype_member_name 1700000001000 "constructor"
                    (put 1700000000000 1700000000000 1700000000000
                         (PdfArtifact [Byte.x25; Byte.x50]) empty_store).2
                    eq_refl ltac:(vm_compute; reflexivity))).
Defined.

(** ** What a conversion does to the store *)

Lemma put_stored a w :
  put (clock w (ticks w)) (clock w (S (ticks w))) (clock w (S (S (ticks w)))) a (globals w)
  = ((stored a w).1, (stored a w).2).
Proof. unfold stored. now destruct (put _ _ _ a (globals w)). Qed.

(** X6.  A conversion touches the store at most once.  A run of
    [convertImage] or of [compressPDF] that throws leaves the store and
    its timers exactly as they were, and has not read the clock; a run
    that returns has made one [storeForDownload], of the buffer whose
    length it reports as result size, under the URL it returns, with
    three consecutive clock readings, and nothing else. *)
Theorem conversion_touches_store_by_one_put :
  forall `{Host} `{ImageConverter.Sharp} `{PDFConverter.PdfLib}
         (buf : Buffer) (format level : string) (w : World),
    let image_run := ImageController.convertImage buf format level w in
    let pdf_run := PDFController.compressPDF buf level w in
    let t_name := clock w (ticks w) in
    let t_stamp := clock w (S (ticks w)) in
    let t_sweep := clock w (S (S (ticks w))) in
    match image_run.1 with
    | Throw _ => globals image_run.2 = globals w /\ ticks image_run.2 = ticks w
    | Ok r =>
        exists out,
          ImageController.convertedSize r = Z.of_nat (length out)
          /\ (ImageController.downloadUrl r, globals image_run.2)
             = put t_name t_stamp t_sweep (ImageArtifact out format) (globals w)
          /\ ticks image_run.2 = S (S (S (ticks w)))
    end
    /\ match pdf_run.1 with
       | Throw _ => globals pdf_run.2 = globals w /\ ticks pdf_run.2 = ticks w
       | Ok r =>
           exists out,
             PDFController.compressedSize r = Z.of_nat (length out)
             /\ (PDFController.downloadUrl r, globals pdf_run.2)
                = put t_name t_stamp t_sweep (PdfArtifact out) (globals w)
             /\ ticks pdf_run.2 = S (S (S (ticks w)))
       end.
Proof.
  intros HH HS HP buf format level w. cbv zeta. split.
  - rewrite convertImage_run.
    destruct (image_body buf format level) as [[out|e] evs]; cbn [fst snd].
    + exists out. split; [reflexivity|].
      rewrite globals_emit, ticks_emit. unfold with_store. cbn [globals ticks].
      rewrite stored_emit, ticks_emit, put_stored. auto.
    + now rewrite globals_emit, ticks_emit.
  - rewrite compressPDF_run.
    destruct (pdf_body buf level) as [[out|e] evs]; cbn [fst snd].
    + exists out. split; [reflexivity|].
      rewrite globals_emit, ticks_emit. unfold with_store. cbn [globals ticks].
      rewrite stored_emit, ticks_emit, put_stored. auto.
    + now rewrite globals_emit, ticks_emit.
Qed.

(** ** The answers of the conversion routes *)

Lemma truthy_Some (field : option string) :
  Routes.truthy field = true ->
  exists s, field = Some s /\ s <> "" /\ Routes.or_else field "" = s.
Proof.
  destruct field as [s|]; [|discriminate]. unfold Routes.truthy, Routes.or_else.
  case_bool_decide; [discriminate|]. eauto.
Qed.

(** X7.  The two conversion routes answer every request whose fields are
    strings or absent, and never let an error escape.  A request without
    [fileData] (or, for images, without [outputFormat]), the empty string
    counting as absent, is answered 400 before anything is published,
    stored or read from the clock.  Every other request is answered with
    the result of the conversion or with 500; the message of a 500 is the
    message of the orchestrator, which starts with its own prefix, so
    the fallback texts of the handlers are never sent. *)
Theorem convert_routes_always_answer :
  forall `{Host} `{ImageConverter.Sharp} `{PDFConverter.PdfLib}
         (image_request : Routes.ImageBody) (pdf_request : Routes.PdfBody) (w : World),
    (exists resp,
        (Routes.postImage image_request w).1 = Ok resp
        /\ if Routes.truthy (Routes.image_fileData image_request)
              && Routes.truthy (Routes.image_outputFormat image_request)
           then (exists r, resp = Routes.ImageConverted r)
                \/ (exists m, resp = Routes.ApiError 500 ("Image conversion failed: " +:+ m))
           else resp = Routes.ApiError 400
                         "Missing required parameters: fileData and outputFormat"
                /\ (Routes.postImage image_request w).2 = w)
    /\ (exists resp,
          (Routes.postPdf pdf_request w).1 = Ok resp
          /\ if Routes.truthy (Routes.pdf_fileData pdf_request)
             then (exists r, resp = Routes.PdfCompressed r)
                  \/ (exists m, resp = Routes.ApiError 500 ("PDF compression failed: " +:+ m))
             else resp = Routes.ApiError 400 "Missing required parameter: fileData"
                  /\ (Routes.postPdf pdf_request w).2 = w).
Proof.
  intros HH HS HP [format level data] [plevel pdata] w. split.
  - cbn [Routes.image_fileData Routes.image_outputFormat].
    destruct (Routes.truthy data) eqn:Hd; cbn [andb];
      [destruct (Routes.truthy format) eqn:Hf|].
    + apply truthy_Some in Hd as (d & -> & Hd & _).
      apply truthy_Some in Hf as (f & -> & Hf & _).
      rewrite postImage_run by assumption. rewrite convertImage_run.
      destruct (image_body _ _ _) as [[out|e] evs]; cbn [fst].
      * eexists. split; [reflexivity|]. left. eauto.
      * eexists. split; [reflexivity|]. right. exists e.
        rewrite or_else_nonempty; [reflexivity|apply prefixed_nonempty].
    + unfold Routes.postImage. cbn [Routes.image_fileData Routes.image_outputFormat].
      rewrite Hd, Hf. cbn [negb orb]. eexists. split; [reflexivity|]. auto.
    + unfold Routes.postImage. cbn [Routes.image_fileData Routes.image_outputFormat].
      rewrite Hd. cbn [negb orb]. eexists. split; [reflexivity|]. auto.
  - cbn [Routes.pdf_fileData].
    destruct (Routes.truthy pdata) eqn:Hd.
    + apply truthy_Some in Hd as (d & -> & Hd & _).
      rewrite postPdf_run by assumption. rewrite compressPDF_run.
      destruct (pdf_body _ _) as [[out|e] evs]; cbn [fst].
      * eexists. split; [reflexivity|]. left. eauto.
      * eexists. split; [reflexivity|]. right. exists e.
        rewrite or_else_nonempty; [reflexivity|apply prefixed_nonempty].
    + unfold Routes.postPdf. cbn [Routes.pdf_fileData].
      rewrite Hd. cbn [negb]. eexists. split; [reflexivity|]. auto.
Qed.

(** ** Output formats *)

Lemma select_encoder_Ok (format : string) (s : ImageConverter.SettingsVal) :
  (exists enc, ImageConverter.select_encoder format s = Ok enc)
  <-> JS.toLowerCase format ∈ ImageConverter.getSupportedOutputFormats.
Proof.
  unfold ImageConverter.select_encoder, ImageConverter.getSupportedOutputFormats.
  rewrite !elem_of_cons, elem_of_nil.
  repeat case_bool_decide; cbn [orb]; split; intros Hx; eauto 10;
    try (destruct Hx as [enc Hx]; discriminate Hx);
    intuition congruence.
Qed.

Lemma select_encoder_Throw (format : string) (s : ImageConverter.SettingsVal) :
  JS.toLowerCase format ∉ ImageConverter.getSupportedOutputFormats ->
  ImageConverter.select_encoder format s
  = Throw ("Unsupported output format: " +:+ format).
Proof.
  intros Hn. destruct (ImageConverter.select_encoder format s) as [enc|e] eqn:E.
  - exfalso. apply Hn. apply (select_encoder_Ok format s). eauto.
  - revert E. unfold ImageConverter.select_encoder.
    repeat case_bool_decide; cbn [orb]; congruence.
Qed.

Lemma supported_output_mime (f : string) :
  f ∈ ImageConverter.getSupportedOutputFormats ->
  exists m, ImageStore.mimeTypes !! f = Some m
            /\ m ∈ ["image/jpeg"; "image/png"; "image/webp"; "image/bmp";
                    "image/gif"; "image/tiff"].
Proof.
  unfold ImageConverter.getSupportedOutputFormats.
  rewrite !elem_of_cons, elem_of_nil.
  intros [-> | [-> | [-> | [-> | [-> | [-> | [-> | []]]]]]]];
    eexists; (split; [vm_compute; reflexivity|]);
    rewrite !elem_of_cons; tauto.
Qed.

(** X8.  The output formats agree across the code.  The [switch] of
    [convert] has a case for a requested format exactly when its
    lower-case spelling is one of [getSupportedOutputFormats()], which is
    what [canConvert] tests, exactly when it is one of the image output
    formats that [GET /formats] advertises, and exactly when
    [getMimeType] has an entry for it, which is then an [image/...] type
    that the upload filter accepts; for any other format that is not the
    name of a member of [Object.prototype], [getMimeType] falls back on
    [application/octet-stream].  The input formats of [canConvert] are
    those that [GET /formats] advertises as supported. *)
Theorem output_formats_agree :
  forall (inputFormat outputFormat : string) (s : ImageConverter.SettingsVal),
    let f := JS.toLowerCase outputFormat in
    ((exists enc, ImageConverter.select_encoder outputFormat s = Ok enc)
     <-> JS.includes ImageConverter.getSupportedOutputFormats f = true)
    /\ (JS.includes ImageConverter.getSupportedOutputFormats f
        = JS.includes (Upload.outputFormats_images Upload.getFormats) f)
    /\ (JS.includes ImageConverter.getSupportedOutputFormats f = true
        <-> exists m, ImageStore.mimeTypes !! f = Some m)
    /\ (forall m, ImageStore.mimeTypes !! f = Some m ->
          ImageStore.getMimeType outputFormat = Str m
          /\ JS.includes Upload.SUPPORTED_IMAGE_TYPES m = true)
    /\ (JS.includes ImageConverter.getSupportedOutputFormats f = false ->
        JS.inherited f = false ->
        ImageStore.getMimeType outputFormat = Str "application/octet-stream")
    /\ (ImageConverter.canConvert inputFormat outputFormat = true ->
        exists enc, ImageConverter.select_encoder outputFormat s = Ok enc)
    /\ (JS.includes ImageConverter.getSupportedInputFormats (JS.toLowerCase inputFormat)
        = JS.includes (Upload.supportedFormats_images Upload.getFormats)
                      (JS.toLowerCase inputFormat)).
Proof.
  intros inputFormat outputFormat s f.
  assert (Hsel : (exists enc, ImageConverter.select_encoder outputFormat s = Ok enc)
                 <-> JS.includes ImageConverter.getSupportedOutputFormats f = true).
  { rewrite select_encoder_Ok. unfold JS.includes. symmetry. apply bool_decide_eq_true. }
  assert (Hperm : forall (l l' : list string) x,
             (forall y, y ∈ l <-> y ∈ l') -> JS.includes l x = JS.includes l' x).
  { intros l l' x Hll. unfold JS.includes. apply bool_decide_ext, Hll. }
  assert (Hmime : JS.includes ImageConverter.getSupportedOutputFormats f = true
                  <-> exists m, ImageStore.mimeTypes !! f = Some m).
  { unfold JS.includes. rewrite bool_decide_eq_true. split.
    + intros Hin. destruct (supported_output_mime f Hin) as (m & Hm & _). eauto.
    + intros [m Hm]. unfold ImageStore.mimeTypes in Hm.
      cbn [list_to_map foldr fst snd uncurry] in Hm.
      unfold ImageConverter.getSupportedOutputFormats. rewrite !elem_of_cons.
      repeat (rewrite lookup_insert in Hm; case_decide as Hd;
              [symmetry in Hd; tauto|clear Hd]).
      now rewrite lookup_empty in Hm. }
  split; [exact Hsel|]. split; [|split; [exact Hmime|split; [|split; [|split]]]].
  - apply Hperm. intros y.
    unfold Upload.getFormats, ImageConverter.getSupportedOutputFormats,
      ImageConverter.getSupportedInputFormats.
    cbn [Upload.outputFormats_images Upload.supportedFormats_images].
    rewrite !elem_of_cons, !elem_of_nil. tauto.
  - intros m Hm. unfold ImageStore.getMimeType, JS.get. fold f. rewrite Hm.
    split; [reflexivity|].
    unfold ImageStore.mimeTypes in Hm.
    cbn [list_to_map foldr fst snd uncurry] in Hm.
    repeat (rewrite lookup_insert in Hm; case_decide as Hd;
            [injection Hm as <-; vm_compute; reflexivity|clear Hd]).
    now rewrite lookup_empty in Hm.
  - intros Hinc Hi. unfold ImageStore.getMimeType, JS.get. fold f.
    destruct (ImageStore.mimeTypes !! f) as [m|] eqn:Hm.
    + exfalso. assert (Ht : JS.includes ImageConverter.getSupportedOutputFormats f = true)
        by (apply Hmime; eauto). congruence.
    + now rewrite Hi.
  - unfold ImageConverter.canConvert. intros [_ Hout]%andb_true_iff. now apply Hsel.
  - apply Hperm. intros y.
    unfold Upload.getFormats, ImageConverter.getSupportedOutputFormats,
      ImageConverter.getSupportedInputFormats.
    cbn [Upload.outputFormats_images Upload.supportedFormats_images].
    rewrite !elem_of_cons, !elem_of_nil. tauto.
Qed.

(** ** Success and failure of a conversion *)

Lemma image_body_Ok `{Host} `{ImageConverter.Sharp} buf format level out evs :
  image_body buf format level = (Ok out, evs) ->
  exists md s enc,
    ImageConverter.sharp_new buf = Ok tt
    /\ ImageConverter.sharp_metadata buf = Ok md
    /\ ImageConverter.getCompressionSettings format level = Ok s
    /\ ImageConverter.select_encoder format s = Ok enc
    /\ ImageConverter.sharp_format enc = Ok tt
    /\ ImageConverter.sharp_toBuffer buf enc = Ok out
    /\ evs = image_opening
             ++ [image_relayed 10 "Initializing conversion...";
                 image_relayed 30 "Applying compression settings...";
                 image_relayed 60 "Converting image...";
                 image_relayed 90 "Finalizing conversion...";
                 image_relayed 100 "Conversion complete!"]
             ++ [event (JS.of_Z 90) "Preparing download..."].
Proof.
  unfold image_body, convert_outcome.
  destruct (ImageConverter.sharp_new buf) as [[]|?]; [|intros [=]].
  destruct (ImageConverter.sharp_metadata buf) as [md|?]; [|intros [=]].
  destruct (ImageConverter.getCompressionSettings format level) as [s|?];
    [|intros [=]].
  destruct (ImageConverter.select_encoder format s) as [enc|?] eqn:Eenc; [|intros [=]].
  destruct (ImageConverter.sharp_format enc) as [[]|?] eqn:Efmt; [|intros [=]].
  destruct (ImageConverter.sharp_toBuffer buf enc) as [out'|?] eqn:Ebuf; [|intros [=]].
  intros Heq. apply pair_equal_spec in Heq as [Hout <-].
  injection Hout as <-. exists md, s, enc. auto 10.
Qed.

Lemma image_body_of_codec `{Host} `{ImageConverter.Sharp} buf format level md s enc out :
  ImageConverter.sharp_new buf = Ok tt ->
  ImageConverter.sharp_metadata buf = Ok md ->
  ImageConverter.getCompressionSettings format level = Ok s ->
  ImageConverter.select_encoder format s = Ok enc ->
  ImageConverter.sharp_format enc = Ok tt ->
  ImageConverter.sharp_toBuffer buf enc = Ok out ->
  exists evs, image_body buf format level = (Ok out, evs).
Proof.
  intros Hnew Hmd Hs Henc Hfmt Hbuf. unfold image_body, convert_outcome.
  rewrite Hnew, Hmd, Hs, Henc, Hfmt, Hbuf. eauto.
Qed.

Lemma pdf_body_Ok `{PDFConverter.PdfLib} buf level out evs :
  pdf_body buf level = (Ok out, evs) ->
  exists pdfDoc n,
    PDFConverter.pdf_load buf = Ok pdfDoc
    /\ PDFConverter.pdf_pageCount pdfDoc = Ok n
    /\ PDFConverter.pdf_save pdfDoc
         (PDFConverter.save_options (PDFConverter.getCompressionSettings level)) = Ok out.
Proof.
  unfold pdf_body, compress_outcome.
  destruct (PDFConverter.pdf_load buf) as [pdfDoc|?]; [|intros [=]].
  destruct (PDFConverter.pdf_pageCount pdfDoc) as [n|?] eqn:Ecount; [|intros [=]].
  destruct (PDFConverter.pdf_save pdfDoc _) as [out'|?] eqn:Esave; [|intros [=]].
  intros Heq. apply pair_equal_spec in Heq as [Hout _].
  injection Hout as <-. eauto.
Qed.

(** X9.  A conversion succeeds exactly when the codec library does.
    [convertImage] returns a result if and only if [sharp] accepts the
    buffer, reads its metadata, the settings lookup does not throw, the
    [switch] has a case for the format, the format method accepts the
    settings and [toBuffer] yields a buffer; [compressPDF] returns a
    result if and only if [pdf-lib] loads the buffer, counts the pages of
    the document without throwing, and saves the document.  These calls
    into the codec library are all that can make a run fail: the
    broadcasts, the store and the ratio (also for an empty input) cannot.
    The last event of a successful run is the one with percent 100. *)
Theorem conversion_succeeds_exactly_when_the_codec_does :
  forall `{Host} `{ImageConverter.Sharp} `{PDFConverter.PdfLib}
         (buf : Buffer) (format level : string) (w : World),
    ((exists r, (ImageController.convertImage buf format level w).1 = Ok r)
     <-> exists md s enc out,
           ImageConverter.sharp_new buf = Ok tt
           /\ ImageConverter.sharp_metadata buf = Ok md
           /\ ImageConverter.getCompressionSettings format level = Ok s
           /\ ImageConverter.select_encoder format s = Ok enc
           /\ ImageConverter.sharp_format enc = Ok tt
           /\ ImageConverter.sharp_toBuffer buf enc = Ok out)
    /\ ((exists r, (PDFController.compressPDF buf level w).1 = Ok r)
        <-> exists pdfDoc pageCount out,
              PDFConverter.pdf_load buf = Ok pdfDoc
              /\ PDFConverter.pdf_pageCount pdfDoc = Ok pageCount
              /\ PDFConverter.pdf_save pdfDoc
                   (PDFConverter.save_options (PDFConverter.getCompressionSettings level))
                 = Ok out)
    /\ (forall r, (ImageController.convertImage buf format level w).1 = Ok r ->
          last (published (ImageController.convertImage buf format level w).2)
          = Some (event (JS.of_Z 100) "Conversion completed!"))
    /\ (forall r, (PDFController.compressPDF buf level w).1 = Ok r ->
          last (published (PDFController.compressPDF buf level w).2)
          = Some (event (JS.of_Z 100) "Compression completed!")).
Proof.
  intros HH HS HP buf format level w.
  rewrite convertImage_run, compressPDF_run.
  split; [|split; [|split]].
  - destruct (image_body buf format level) as [[out|e] evs] eqn:E; cbn [fst]; split.
    + intros _. destruct (image_body_Ok _ _ _ _ _ E) as (md & s & enc & ?).
      exists md, s, enc, out. tauto.
    + eauto.
    + intros [r [=]].
    + intros (md & s & enc & out & Hnew & Hmd & Hs & Henc & Hfmt & Hbuf).
      destruct (image_body_of_codec _ _ _ _ _ _ _ Hnew Hmd Hs Henc Hfmt Hbuf) as [evs' E'].
      congruence.
  - destruct (pdf_body buf level) as [[out|e] evs] eqn:E; cbn [fst]; split.
    + intros _. destruct (pdf_body_Ok _ _ _ _ E) as (pdfDoc & n & ? & ? & ?).
      exists pdfDoc, n, out. tauto.
    + eauto.
    + intros [r [=]].
    + intros (pdfDoc & n & out & Hload & Hcount & Hsave). revert E.
      unfold pdf_body, compress_outcome. rewrite Hload, Hcount, Hsave. discriminate.
  - intros r. destruct (image_body buf format level) as [[out|e] evs]; cbn [fst snd];
      [|intros [=]].
    intros _. rewrite published_emit. apply last_snoc.
  - intros r. destruct (pdf_body buf level) as [[out|e] evs]; cbn [fst snd];
      [|intros [=]].
    intros _. rewrite published_emit. apply last_snoc.
Qed.

Lemma image_body_unsupported `{Host} `{ImageConverter.Sharp} buf format level :
  JS.toLowerCase format ∉ ImageConverter.getSupportedOutputFormats ->
  exists e evs, image_body buf format level = (Throw e, evs).
Proof.
  intros Hn. destruct (image_body buf format level) as [[out|e] evs] eqn:E; [|eauto].
  exfalso. apply image_body_Ok in E as (md & s & enc & _ & _ & _ & Henc & _).
  apply Hn. apply (select_encoder_Ok format s). eauto.
Qed.

Lemma settings_of_unsupported `{Host} format level :
  JS.toLowerCase format ∉ ImageConverter.getSupportedOutputFormats ->
  JS.inherited (JS.toLowerCase format) = false ->
  ImageConverter.getCompressionSettings format level
  = Ok (ImageConverter.Options ImageConverter.no_options).
Proof.
  intros Hn Hi. unfold ImageConverter.getCompressionSettings, JS.get.
  replace (ImageConverter.settings !! JS.toLowerCase format) with (@None (gmap string ImageConverter.SharpOptions)).
  - now rewrite Hi.
  - symmetry. unfold ImageConverter.settings.
    cbn [list_to_map foldr fst snd uncurry].
    unfold ImageConverter.getSupportedOutputFormats in Hn.
    rewrite !elem_of_cons, elem_of_nil in Hn.
    rewrite !lookup_insert_ne by (intros Heq; apply Hn; rewrite <- Heq; tauto).
    apply lookup_empty.
Qed.

(** X10.  An output format that [convert] has no case for is not refused
    by the route: the request goes through the orchestrator and comes back
    as a 500, with nothing stored.  When [sharp] reads the input and the
    format is not the name of a member of [Object.prototype], four
    progress events are published before the failure event, and the
    message names the format as it was requested. *)
Theorem unsupported_output_format_is_answered_500 :
  forall `{Host} `{ImageConverter.Sharp}
         (data format : string) (level : option string) (w : World),
    data <> "" -> format <> "" ->
    JS.includes ImageConverter.getSupportedOutputFormats (JS.toLowerCase format) = false ->
    let buf := base64_decode data in
    let run := Routes.postImage (Routes.mkImageBody (Some format) level (Some data)) w in
    let e := "Failed to convert image: Unsupported output format: " +:+ format in
    (exists m, run.1 = Ok (Routes.ApiError 500 ("Image conversion failed: " +:+ m)))
    /\ globals run.2 = globals w
    /\ (forall md,
          ImageConverter.sharp_new buf = Ok tt ->
          ImageConverter.sharp_metadata buf = Ok md ->
          JS.inherited (JS.toLowerCase format) = false ->
          run.1 = Ok (Routes.ApiError 500 ("Image conversion failed: " +:+ e))
          /\ published run.2
             = published w
               ++ [event (JS.of_Z 10) "Analyzing image...";
                   event (JS.of_Z 30) "Starting conversion...";
                   image_relayed 10 "Initializing conversion...";
                   image_relayed 30 "Applying compression settings...";
                   mkEvent (JS.of_Z 0) "Conversion failed" (Some e)]).
Proof.
  intros HH HS data format level w Hd Hf Hinc buf run e.
  assert (Hn : JS.toLowerCase format ∉ ImageConverter.getSupportedOutputFormats).
  { intros Hin. unfold JS.includes in Hinc.
    now rewrite bool_decide_eq_true_2 in Hinc. }
  subst run. rewrite postImage_run by assumption. fold buf.
  rewrite convertImage_run.
  split; [|split].
  - destruct (image_body_unsupported buf format (Routes.or_else level "medium") Hn)
      as (m & evs & ->). cbn [fst]. exists m.
    rewrite or_else_nonempty; [reflexivity|apply prefixed_nonempty].
  - destruct (image_body_unsupported buf format (Routes.or_else level "medium") Hn)
      as (m & evs & ->). cbn [snd]. apply globals_emit.
  - intros md Hnew Hmd Hi. unfold image_body, convert_outcome.
    rewrite Hnew, Hmd, settings_of_unsupported, select_encoder_Throw by assumption.
    cbn [fst snd]. rewrite or_else_nonempty by apply prefixed_nonempty.
    split; [reflexivity|]. rewrite published_emit. reflexivity.
Qed.

Lemma unsupported_output_format_witness :
  let run := @Routes.postImage Fixtures.host (Fixtures.sharp_ok [Byte.x00])
               (Routes.mkImageBody (Some "heic") None (Some "iVBORw0KGgo=")) Fixtures.world in
  JS.includes ImageConverter.getSupportedOutputFormats (JS.toLowerCase "heic") = false
  /\ run.1 = Ok (Routes.ApiError 500
       "Image conversion failed: Failed to convert image: Unsupported output format: heic")
  /\ globals run.2 = globals Fixtures.world.
Proof.
  cbv zeta.
  pose proof (@unsupported_output_format_is_answered_500 Fixtures.host
                (Fixtures.sharp_ok [Byte.x00]) "iVBORw0KGgo=" "heic" None Fixtures.world
                ltac:(discriminate) ltac:(discriminate) eq_refl) as H.
  cbv zeta in H. destruct H as (_ & Hg & Hexact).
  destruct (Hexact (ImageConverter.mkMetadata "png" 1000 1000) eq_refl eq_refl eq_refl)
    as [Hresp _].
  split; [reflexivity|]. split; [exact Hresp|exact Hg].
Defined.

(** ** From the conversion request to the download *)








(** ** Listeners *)

(** What a listener is left with after the frames of [evs], in order. *)
Definition deliver_all (evs : list ProgressEvent) (c : Client) : Client :=
  foldl (fun c ev => deliver (ProgressFrame ev) c) c evs.

Lemma wss_emit evs : forall w, wss (emit evs w) = map (deliver_all evs) <$> wss w.
Proof.
  induction evs as [|ev evs IH]; intros w.
  - cbn. destruct (wss w) as [clients|]; [|reflexivity]. cbn.
    f_equal. symmetry. apply map_id.
  - rewrite emit_cons, IH. cbn [broadcastProgress snd wss].
    destruct (wss w) as [clients|]; [|reflexivity]. cbn.
    f_equal. rewrite map_map. reflexivity.
Qed.

Lemma deliver_all_app evs1 evs2 c :
  deliver_all (evs1 ++ evs2) c = deliver_all evs2 (deliver_all evs1 c).
Proof. apply foldl_app. Qed.

Lemma deliver_all_spec evs : forall c,
  readyState (deliver_all evs c) = readyState c
  /\ linkUp (deliver_all evs c) = linkUp c
  /\ (readyState c = 1 -> linkUp c = true ->
      received (deliver_all evs c) = received c ++ map ProgressFrame evs
      /\ failures (deliver_all evs c) = failures c)
  /\ (readyState c = 1 -> linkUp c = false ->
      received (deliver_all evs c) = received c
      /\ failures (deliver_all evs c) = (failures c + length evs)%nat)
  /\ (readyState c <> 1 -> deliver_all evs c = c).
Proof.
  induction evs as [|ev evs IH]; intros c.
  - cbn. rewrite app_nil_r, Nat.add_0_r. tauto.
  - change (deliver_all (ev :: evs) c)
      with (deliver_all evs (deliver (ProgressFrame ev) c)).
    destruct (IH (deliver (ProgressFrame ev) c)) as (I1 & I2 & I3 & I4 & I5).
    destruct (deliver_spec (ProgressFrame ev) c) as (D1 & D2 & D3 & D4 & D5).
    rewrite I1, I2, D1, D2. split; [reflexivity|]. split; [reflexivity|].
    split; [|split].
    + intros Hrs Hup. destruct (D3 Hrs Hup) as [Dr Df].
      destruct (I3 ltac:(congruence) ltac:(congruence)) as [Ir If].
      rewrite Ir, If, Dr, Df. split; [|reflexivity].
      now rewrite <- app_assoc.
    + intros Hrs Hup. destruct (D4 Hrs Hup) as [Dr Df].
      destruct (I4 ltac:(congruence) ltac:(congruence)) as [Ir If].
      rewrite Ir, If, Dr, Df. split; [reflexivity|]. cbn [length]. lia.
    + intros Hrs. rewrite I5; [exact (D5 Hrs) | rewrite D1; exact Hrs].
Qed.

Lemma published_with_store a w : published (with_store a w) = published w.
Proof. reflexivity. Qed.

Lemma wss_with_store a w : wss (with_store a w) = wss w.
Proof. reflexivity. Qed.

(** The listeners and the history after a run are those after its events. *)
Lemma image_run_events `{Host} `{ImageConverter.Sharp} buf format level w :
  exists evs,
    published (ImageController.convertImage buf format level w).2 = published w ++ evs
    /\ wss (ImageController.convertImage buf format level w).2
       = map (deliver_all evs) <$> wss w.
Proof.
  rewrite convertImage_run.
  destruct (image_body buf format level) as [[out|e] evs]; cbn [snd].
  - exists (evs ++ [event (JS.of_Z 100) "Conversion completed!"]).
    rewrite published_emit, published_with_store, published_emit, <- app_assoc.
    split; [reflexivity|].
    rewrite wss_emit, wss_with_store, wss_emit.
    destruct (wss w) as [clients|]; [|reflexivity]. cbn. f_equal.
    rewrite map_map. apply map_ext. intros c. now rewrite deliver_all_app.
  - exists (evs ++ [image_failure e]). rewrite published_emit. split; [reflexivity|].
    apply wss_emit.
Qed.

Lemma pdf_run_events `{Host} `{PDFConverter.PdfLib} buf level w :
  exists evs,
    published (PDFController.compressPDF buf level w).2 = published w ++ evs
    /\ wss (PDFController.compressPDF buf level w).2
       = map (deliver_all evs) <$> wss w.
Proof.
  rewrite compressPDF_run.
  destruct (pdf_body buf level) as [[out|e] evs]; cbn [snd].
  - exists (evs ++ [event (JS.of_Z 100) "Compression completed!"]).
    rewrite published_emit, published_with_store, published_emit, <- app_assoc.
    split; [reflexivity|].
    rewrite wss_emit, wss_with_store, wss_emit.
    destruct (wss w) as [clients|]; [|reflexivity]. cbn. f_equal.
    rewrite map_map. apply map_ext. intros c. now rewrite deliver_all_app.
  - exists (evs ++ [pdf_failure e]). rewrite published_emit. split; [reflexivity|].
    apply wss_emit.
Qed.

Lemma listeners_after evs clients clients' :
  clients' = map (deliver_all evs) clients ->
  length clients' = length clients
  /\ forall (i : nat) c, clients !! i = Some c ->
       exists c',
         clients' !! i = Some c'
         /\ readyState c' = readyState c
         /\ (readyState c = 1 -> linkUp c = true ->
             received c' = received c ++ map ProgressFrame evs)
         /\ (readyState c = 1 -> linkUp c = false ->
             received c' = received c
             /\ failures c' = (failures c + length evs)%nat)
         /\ (readyState c <> 1 -> c' = c).
Proof.
  intros ->. split; [apply length_map|].
  intros i c Hc. exists (deliver_all evs c).
  split; [now rewrite list_lookup_fmap, Hc|].
  destruct (deliver_all_spec evs c) as (S1 & _ & S3 & S4 & S5).
  split; [exact S1|]. split; [|split; [exact S4|exact S5]].
  intros Hrs Hup. now destruct (S3 Hrs Hup).
Qed.

(** X13.  Every listener sees the whole run, in order.  Let [evs] be the
    events a run of [convertImage] or of [compressPDF] publishes, whether
    it succeeds or fails.  A listener whose socket is open and whose link
    works has exactly the frames of [evs], in the order they were
    published, appended to what it had received; one whose socket is not
    open is left as it was; one whose writes fail receives nothing and
    counts one failure per event.  The run neither adds nor removes a
    listener, and changes no [readyState]. *)
Theorem listeners_receive_the_run_in_order :
  forall `{Host} `{ImageConverter.Sharp} `{PDFConverter.PdfLib}
         (buf : Buffer) (format level : string) (w : World) (clients : list Client),
    wss w = Some clients ->
    let image_run := ImageController.convertImage buf format level w in
    let pdf_run := PDFController.compressPDF buf level w in
    let seen evs clients' :=
      length clients' = length clients
      /\ forall (i : nat) c, clients !! i = Some c ->
           exists c',
             clients' !! i = Some c'
             /\ readyState c' = readyState c
             /\ (readyState c = 1 -> linkUp c = true ->
                 received c' = received c ++ map ProgressFrame evs)
             /\ (readyState c = 1 -> linkUp c = false ->
                 received c' = received c
                 /\ failures c' = (failures c + length evs)%nat)
             /\ (readyState c <> 1 -> c' = c) in
    (exists evs clients',
        published image_run.2 = published w ++ evs
        /\ wss image_run.2 = Some clients' /\ seen evs clients')
    /\ (exists evs clients',
          published pdf_run.2 = published w ++ evs
          /\ wss pdf_run.2 = Some clients' /\ seen evs clients').
Proof.
  intros HH HS HP buf format level w clients Hwss. cbv zeta. split.
  - destruct (image_run_events buf format level w) as (evs & Hpub & Hw).
    rewrite Hwss in Hw. exists evs, (map (deliver_all evs) clients).
    split; [exact Hpub|]. split; [exact Hw|]. now apply listeners_after.
  - destruct (pdf_run_events buf level w) as (evs & Hpub & Hw).
    rewrite Hwss in Hw. exists evs, (map (deliver_all evs) clients).
    split; [exact Hpub|]. split; [exact Hw|]. now apply listeners_after.
Qed.

Lemma listeners_receive_the_run_witness :
  let run := @ImageController.convertImage Fixtures.host
               (Fixtures.sharp_ok [Byte.x89; Byte.x50])
               [Byte.x89; Byte.x50; Byte.x4e; Byte.x47] "png" "medium" Fixtures.world in
  wss Fixtures.world = Some [mkClient 1 true [] 0; mkClient 3 true [] 0]
  /\ exists open closed,
       wss run.2 = Some [open; closed]
       /\ received open = map ProgressFrame (published run.2)
       /\ length (received open) = 9%nat
       /\ closed = mkClient 3 true [] 0.
Proof.
  cbv zeta. split; [reflexivity|].
  destruct (@listeners_receive_the_run_in_order Fixtures.host
              (Fixtures.sharp_ok [Byte.x89; Byte.x50]) (Fixtures.pdflib_ok 1 [])
              [Byte.x89; Byte.x50; Byte.x4e; Byte.x47] "png" "medium" Fixtures.world
              _ eq_refl) as [(evs & clients' & Hpub & Hw & Hlen & Hseen) _].
  destruct (Hseen 0%nat _ eq_refl) as (c0 & H0 & _ & Hrecv & _).
  destruct (Hseen 1%nat _ eq_refl) as (c1 & H1 & _ & _ & _ & Hsame).
  destruct clients' as [|x [|y [|z rest]]]; try discriminate Hlen.
  cbn in H0, H1. injection H0 as ->. injection H1 as ->.
  exists c0, c1. split; [exact Hw|].
  specialize (Hrecv eq_refl eq_refl). cbn [received app] in Hrecv.
  cbn [published Fixtures.world app] in Hpub.
  split; [now rewrite Hrecv, Hpub|]. split.
  - rewrite Hrecv, length_map, <- Hpub. vm_compute. reflexivity.
  - apply Hsame. discriminate.
Defined.

(** X14.  The listeners do not influence a conversion.  Two runs on the
    same request, in two states of the process that agree on the store
    and on the clock and differ in their listeners and in their histories
    in any way, return or throw the same, leave the same store and
    publish the same events. *)
Theorem listeners_do_not_influence_the_conversion :
  forall `{Host} `{ImageConverter.Sharp} `{PDFConverter.PdfLib}
         (buf : Buffer) (format level : string) (w1 w2 : World),
    globals w1 = globals w2 -> clock w1 = clock w2 -> ticks w1 = ticks w2 ->
    let image1 := ImageController.convertImage buf format level w1 in
    let image2 := ImageController.convertImage buf format level w2 in
    let pdf1 := PDFController.compressPDF buf level w1 in
    let pdf2 := PDFController.compressPDF buf level w2 in
    (image1.1 = image2.1 /\ globals image1.2 = globals image2.2
     /\ drop (length (published w1)) (published image1.2)
        = drop (length (published w2)) (published image2.2))
    /\ (pdf1.1 = pdf2.1 /\ globals pdf1.2 = globals pdf2.2
        /\ drop (length (published w1)) (published pdf1.2)
           = drop (length (published w2)) (published pdf2.2)).
Proof.
  intros HH HS HP buf format level w1 w2 Hg Hc Ht. cbv zeta.
  assert (Hstored : forall a, stored a w1 = stored a w2)
    by (intros a; unfold stored; now rewrite Hg, Hc, Ht).
  rewrite !convertImage_run, !compressPDF_run. split.
  - destruct (image_body buf format level) as [[out|e] evs]; cbn [fst snd].
    + rewrite !globals_emit, !published_emit. unfold with_store.
      cbn [globals published]. rewrite !stored_emit, !published_emit, Hstored.
      rewrite <- !app_assoc, !drop_app_length. auto.
    + rewrite !globals_emit, !published_emit, !drop_app_length. auto.
  - destruct (pdf_body buf level) as [[out|e] evs]; cbn [fst snd].
    + rewrite !globals_emit, !published_emit. unfold with_store.
      cbn [globals published]. rewrite !stored_emit, !published_emit, Hstored.
      rewrite <- !app_assoc, !drop_app_length. auto.
    + rewrite !globals_emit, !published_emit, !drop_app_length. auto.
Qed.

Lemma listeners_do_not_influence_witness :
  let deaf := {| wss := None; published := [event (JS.of_Z 100) "Conversion completed!"];
                 globals := globals Fixtures.world; clock := clock Fixtures.world;
                 ticks := ticks Fixtures.world |} in
  (@Routes.postImage Fixtures.host (Fixtures.sharp_ok [Byte.x89])
     (Routes.mkImageBody (Some "webp") (Some "low") (Some "iVBORw0KGgo=")) deaf).1
  = (@Routes.postImage Fixtures.host (Fixtures.sharp_ok [Byte.x89])
       (Routes.mkImageBody (Some "webp") (Some "low") (Some "iVBORw0KGgo=")) Fixtures.world).1.
Proof.
  cbv zeta.
  rewrite !postImage_run by discriminate.
  destruct (@listeners_do_not_influence_the_conversion Fixtures.host
              (Fixtures.sharp_ok [Byte.x89]) (Fixtures.pdflib_ok 1 [])
              (@base64_decode Fixtures.host "iVBORw0KGgo=") "webp"
              (Routes.or_else (Some "low") "medium")
              {| wss := None; published := [event (JS.of_Z 100) "Conversion completed!"];
                 globals := globals Fixtures.world; clock := clock Fixtures.world;
                 ticks := ticks Fixtures.world |}
              Fixtures.world eq_refl eq_refl eq_refl) as [(Hres & _) _].
  cbv zeta in Hres.
  destruct (ImageController.convertImage _ _ _ _) as [[r1|e1] w1];
    destruct (ImageController.convertImage _ _ _ Fixtures.world) as [[r2|e2] w2];
    cbn [fst] in *; congruence.
Defined.

(** ** The percentages of an image conversion *)

(** The percentages of the events, up to the first one that carries an
    error. *)
Definition percents_before_failure (evs : list ProgressEvent) : list JS.number :=
  map progress (filter (fun ev => error ev = None) evs).

Lemma image_body_events `{Host} `{ImageConverter.Sharp} buf format level :
  exists n,
    (n <= 8)%nat
    /\ map progress (image_body buf format level).2
       = take n (map JS.of_Z [10; 30; 36; 48; 66; 84; 90; 90])
    /\ no_error_field (image_body buf format level).2
    /\ (forall out, (image_body buf format level).1 = Ok out -> n = 8%nat).
Proof.
  unfold image_body, convert_outcome.
  destruct (ImageConverter.sharp_new buf) as [[]|?];
    [|exists 1%nat; repeat split; (lia || (repeat constructor) || discriminate)].
  destruct (ImageConverter.sharp_metadata buf) as [md|?];
    [|exists 1%nat; repeat split; (lia || (repeat constructor) || discriminate)].
  destruct (ImageConverter.getCompressionSettings format level) as [s|?];
    [|exists 3%nat; repeat split;
      (lia || (vm_compute; reflexivity) || (repeat constructor) || discriminate)].
  destruct (ImageConverter.select_encoder format s) as [enc|?];
    [|exists 4%nat; repeat split;
      (lia || (vm_compute; reflexivity) || (repeat constructor) || discriminate)].
  destruct (ImageConverter.sharp_format enc) as [[]|?];
    [|exists 4%nat; repeat split;
      (lia || (vm_compute; reflexivity) || (repeat constructor) || discriminate)].
  destruct (ImageConverter.sharp_toBuffer buf enc) as [out|?];
    [|exists 5%nat; repeat split;
      (lia || (vm_compute; reflexivity) || (repeat constructor) || discriminate)].
  exists 8%nat. repeat split;
    (lia || (vm_compute; reflexivity) || (repeat constructor)).
Qed.

Lemma filter_all_no_error evs :
  no_error_field evs -> filter (fun ev => error ev = None) evs = evs.
Proof.
  induction 1 as [|ev evs Hev _ IH]; [reflexivity|].
  rewrite filter_cons_True by exact Hev. now rewrite IH.
Qed.

(** X15.  The percentages of any image conversion.  Whatever the input,
    the format, the level and the behaviour of [sharp] are, the percentages
    a run of [convertImage] publishes before a failure event are an initial
    part of 10, 30, 36, 48, 66, 84, 90, 90, 100: whole numbers between 10
    and 100 that never go down.  A run that returns publishes all nine and
    no error; a run that throws publishes at most eight of them and then
    exactly one more event, with percent 0 and the error. *)
Theorem image_percentages :
  forall `{Host} `{ImageConverter.Sharp} (buf : Buffer) (format level : string) (w : World),
    let run := ImageController.convertImage buf format level w in
    let scale := map JS.of_Z [10; 30; 36; 48; 66; 84; 90; 90; 100] in
    exists evs n,
      published run.2 = published w ++ evs
      /\ percents_before_failure evs = take n scale
      /\ nondecreasing (percents_before_failure evs) = true
      /\ match run.1 with
         | Ok _ => n = 9%nat /\ no_error_field evs
         | Throw e =>
             (n <= 8)%nat
             /\ exists m before,
                  e = "Image conversion failed: " +:+ m
                  /\ evs = before ++ [mkEvent (JS.of_Z 0) "Conversion failed" (Some m)]
                  /\ no_error_field before
         end.
Proof.
  intros HH HS buf format level w. cbv zeta. rewrite convertImage_run.
  destruct (image_body_events buf format level) as (n & Hn & Hperc & Hno & Hfull).
  destruct (image_body buf format level) as [[out|e] evs]; cbn [fst snd] in *.
  - exists (evs ++ [event (JS.of_Z 100) "Conversion completed!"]), 9%nat.
    rewrite published_emit, published_with_store, published_emit, <- app_assoc.
    split; [reflexivity|].
    assert (Hall : no_error_field (evs ++ [event (JS.of_Z 100) "Conversion completed!"]))
      by (apply Forall_app; split; [exact Hno|repeat constructor]).
    unfold percents_before_failure. rewrite (filter_all_no_error _ Hall), map_app, Hperc.
    rewrite (Hfull out eq_refl).
    split; [reflexivity|]. split; [vm_compute; reflexivity|]. split; [reflexivity|exact Hall].
  - exists (evs ++ [image_failure e]), n. rewrite published_emit.
    split; [reflexivity|].
    unfold percents_before_failure. rewrite filter_app, (filter_all_no_error _ Hno).
    rewrite filter_cons_False, filter_nil, app_nil_r by discriminate.
    split.
    + rewrite Hperc. change (map JS.of_Z [10; 30; 36; 48; 66; 84; 90; 90; 100])
        with (map JS.of_Z [10; 30; 36; 48; 66; 84; 90; 90] ++ [JS.of_Z 100]).
      rewrite take_app_le; [reflexivity|]. rewrite length_map. cbn. lia.
    + split.
      * rewrite Hperc. clear Hperc Hfull.
        do 9 (destruct n as [|n]; [vm_compute; reflexivity|]). lia.
      * split; [exact Hn|]. exists e, evs. auto.
Qed.

(** ** The ratio of an empty input *)

Lemma ratio_of_zero `{Host} (c : Z) :
  0 <= c < 2 ^ 53 ->
  compressionRatio_of 0 c = if c =? 0 then "NaN%" else "-Infinity%".
Proof.
  intros Hc. unfold compressionRatio_of.
  destruct (Z.eqb_spec c 0) as [->|Hne]; [reflexivity|].
  destruct (of_Z_pos c ltac:(lia)) as (m & e & Heq & _).
  rewrite Heq. reflexivity.
Qed.

(** X16.  Division by zero in the ratio.  When the request buffer is
    empty and the codec still returns a result of [c] bytes, the ratio
    [((0 - c) / 0 * 100).toFixed(1) + '%'] does not throw: it is the
    string ["NaN%"] when the result is empty too, and ["-Infinity%"]
    otherwise, and the orchestrators return it as it is. *)
Theorem ratio_of_an_empty_input :
  forall `{Host} `{ImageConverter.Sharp} `{PDFConverter.PdfLib}
         (c : Z) (format level : string) (w : World),
    0 <= c < 2 ^ 53 ->
    compressionRatio_of 0 c = (if c =? 0 then "NaN%" else "-Infinity%")
    /\ (forall r, (ImageController.convertImage [] format level w).1 = Ok r ->
          ImageController.convertedSize r = c ->
          ImageController.originalSize r = 0
          /\ ImageController.compressionRatio r
             = if c =? 0 then "NaN%" else "-Infinity%")
    /\ (forall r, (PDFController.compressPDF [] level w).1 = Ok r ->
          PDFController.compressedSize r = c ->
          PDFController.originalSize r = 0
          /\ PDFController.compressionRatio r
             = if c =? 0 then "NaN%" else "-Infinity%").
Proof.
  intros HH HS HP c format level w Hc.
  split; [now apply ratio_of_zero|]. split.
  - intros r Hr Hsize.
    destruct (convertImage_success [] format level w r Hr) as (md & out & _ & _ & ->).
    cbn [image_result ImageController.convertedSize ImageController.originalSize
         ImageController.compressionRatio length] in *.
    split; [reflexivity|]. rewrite Hsize. now apply ratio_of_zero.
  - intros r Hr Hsize.
    destruct (compressPDF_success_result [] level w r Hr)
      as (doc & n & out & _ & _ & _ & ->).
    cbn [pdf_result PDFController.compressedSize PDFController.originalSize
         PDFController.compressionRatio length] in *.
    split; [reflexivity|]. rewrite Hsize. now apply ratio_of_zero.
Qed.

Lemma ratio_of_an_empty_input_witness :
  0 <= 4 < 2 ^ 53
  /\ @compressionRatio_of Fixtures.host 0 4 = "-Infinity%"
  /\ ImageController.compressionRatio
       (@image_result Fixtures.host "/api/convert/download/converted_0.png" [] "png"
          [Byte.x89; Byte.x50; Byte.x4e; Byte.x47]) = "-Infinity%".
Proof.
  assert (Hc : 0 <= 4 < 2 ^ 53) by (split; [lia|reflexivity]).
  split; [exact Hc|].
  split; [|vm_compute; reflexivity].
  exact (proj1 (@ratio_of_an_empty_input Fixtures.host (Fixtures.sharp_ok [])
                  (Fixtures.pdflib_ok 1 []) 4 "png" "medium" Fixtures.world Hc)).
Defined.

(** ** The spelling of the output format *)

Lemma lower_ascii_idem c : JS.lower_ascii (JS.lower_ascii c) = JS.lower_ascii c.
Proof. destruct c as [[] [] [] [] [] [] [] []]; reflexivity. Qed.

Lemma toLowerCase_idem s : JS.toLowerCase (JS.toLowerCase s) = JS.toLowerCase s.
Proof.
  induction s as [|c s IH]; [reflexivity|].
  cbn [JS.toLowerCase]. now rewrite lower_ascii_idem, IH.
Qed.

Lemma settings_lower `{Host} format level :
  ImageConverter.getCompressionSettings (JS.toLowerCase format) level
  = ImageConverter.getCompressionSettings format level.
Proof. unfold ImageConverter.getCompressionSettings. now rewrite toLowerCase_idem. Qed.

Lemma select_encoder_lower format s :
  JS.toLowerCase format ∈ ImageConverter.getSupportedOutputFormats ->
  ImageConverter.select_encoder (JS.toLowerCase format) s
  = ImageConverter.select_encoder format s.
Proof.
  intros Hin. unfold ImageConverter.select_encoder. rewrite toLowerCase_idem.
  unfold ImageConverter.getSupportedOutputFormats in Hin.
  rewrite !elem_of_cons, elem_of_nil in Hin.
  repeat case_bool_decide; cbn [orb]; try reflexivity. exfalso. tauto.
Qed.

Lemma settings_by_entry `{Host} format level entry :
  ImageConverter.settings !! JS.toLowerCase format = Some entry ->
  JS.inherited level = false ->
  ImageConverter.getCompressionSettings format level
  = Ok (ImageConverter.Options
          (default (default ImageConverter.no_options (entry !! "medium"))
                   (entry !! level))).
Proof.
  intros Hentry Hi. unfold ImageConverter.getCompressionSettings, JS.get.
  rewrite Hentry, Hi.
  destruct (entry !! level); [reflexivity|].
  destruct (entry !! "medium"); reflexivity.
Qed.

Lemma jpg_settings `{Host} level :
  JS.inherited level = false ->
  ImageConverter.getCompressionSettings "jpg" level
  = ImageConverter.getCompressionSettings "jpeg" level.
Proof.
  intros Hi.
  assert (Hjpg : ImageConverter.settings !! JS.toLowerCase "jpg"
                 = Some ImageConverter.jpeg_levels).
  { unfold ImageConverter.settings. cbn [list_to_map foldr fst snd uncurry].
    change (JS.toLowerCase "jpg") with "jpg". apply lookup_insert_eq. }
  assert (Hjpeg : ImageConverter.settings !! JS.toLowerCase "jpeg"
                  = Some ImageConverter.jpeg_levels).
  { unfold ImageConverter.settings. cbn [list_to_map foldr fst snd uncurry].
    change (JS.toLowerCase "jpeg") with "jpeg".
    rewrite lookup_insert_ne by discriminate. apply lookup_insert_eq. }
  now rewrite (settings_by_entry "jpg" level _ Hjpg Hi),
              (settings_by_entry "jpeg" level _ Hjpeg Hi).
Qed.

(** X17.  The spelling of the output format.  [convert] treats a
    supported format in any letter case as its lower-case spelling, and
    ['jpg'] as ['jpeg']: for every buffer, level, callback and state it
    relays the same events and returns or throws the same; [getMimeType]
    gives the same type.  (For ['jpg'] against ['jpeg'] the level is taken
    not to be the name of a member of [Object.prototype].) *)
Theorem output_format_spelling :
  forall `{Host} `{ImageConverter.Sharp} (buf : Buffer) (format level : string)
         (metadata : ImageConverter.Metadata)
         (progressCallback : option (JS.number -> string -> M unit)) (w : World),
    JS.includes ImageConverter.getSupportedOutputFormats (JS.toLowerCase format) = true ->
    ImageConverter.convert buf format level metadata progressCallback w
    = ImageConverter.convert buf (JS.toLowerCase format) level metadata progressCallback w
    /\ ImageStore.getMimeType format = ImageStore.getMimeType (JS.toLowerCase format)
    /\ (JS.toLowerCase format = "jpg" -> JS.inherited level = false ->
        ImageConverter.convert buf format level metadata progressCallback w
        = ImageConverter.convert buf "jpeg" level metadata progressCallback w
        /\ ImageStore.getMimeType format = ImageStore.getMimeType "jpeg").
Proof.
  intros HH HS buf format level md cb w Hinc.
  assert (Hin : JS.toLowerCase format ∈ ImageConverter.getSupportedOutputFormats)
    by (unfold JS.includes in Hinc; now apply bool_decide_eq_true in Hinc).
  assert (Hconv : ImageConverter.convert buf format level md cb w
                  = ImageConverter.convert buf (JS.toLowerCase format) level md cb w).
  { unfold ImageConverter.convert. rewrite settings_lower.
    unfold try_catch, bind, lift.
    destruct (ImageConverter.sharp_new buf) as [[]|?]; [|reflexivity].
    destruct (ImageConverter.report cb 10 _ w) as [[[]|?] w1]; [|reflexivity].
    destruct (ImageConverter.getCompressionSettings format level) as [s|?]; [|reflexivity].
    destruct (ImageConverter.report cb 30 _ w1) as [[[]|?] w2]; [|reflexivity].
    now rewrite select_encoder_lower. }
  assert (Hmime : ImageStore.getMimeType format
                  = ImageStore.getMimeType (JS.toLowerCase format))
    by (unfold ImageStore.getMimeType; now rewrite toLowerCase_idem).
  split; [exact Hconv|]. split; [exact Hmime|].
  intros Hjpg Hi. rewrite Hconv, Hmime, Hjpg. split; [|reflexivity].
  unfold ImageConverter.convert. now rewrite jpg_settings.
Qed.

Lemma output_format_spelling_witness :
  JS.includes ImageConverter.getSupportedOutputFormats (JS.toLowerCase "JPG") = true
  /\ @ImageConverter.convert Fixtures.host (Fixtures.sharp_ok [Byte.xff; Byte.xd8])
       [Byte.x89; Byte.x50] "JPG" "high" (ImageConverter.mkMetadata "png" 1 1)
       (Some ImageController.relay) Fixtures.world
     = @ImageConverter.convert Fixtures.host (Fixtures.sharp_ok [Byte.xff; Byte.xd8])
         [Byte.x89; Byte.x50] "jpeg" "high" (ImageConverter.mkMetadata "png" 1 1)
         (Some ImageController.relay) Fixtures.world.
Proof.
  split; [reflexivity|].
  exact (proj1 (proj2 (proj2
    (@output_format_spelling Fixtures.host (Fixtures.sharp_ok [Byte.xff; Byte.xd8])
       [Byte.x89; Byte.x50] "JPG" "high" (ImageConverter.mkMetadata "png" 1 1)
       (Some ImageController.relay) Fixtures.world eq_refl)) eq_refl eq_refl)).
Defined.

(** ** The pages of a PDF *)

Lemma lookup_page_events (n i : nat) :
  (i < n)%nat -> map (page_event n) (seq 0 n) !! i = Some (page_event n i).
Proof.
  intros Hi. rewrite list_lookup_fmap, lookup_seq_lt by exact Hi. reflexivity.
Qed.

(** X18.  Every page is announced once, in order.  When [pdf-lib] loads
    the buffer and counts [n] pages in the document, the events a run of
    [compressPDF] publishes start with "Analyzing PDF...", the page count
    and the three opening events of the converter; then comes, for each
    page from 1 to [n] in order, one event "Processing page i of n...",
    then "Applying document optimizations..." and "Generating compressed
    PDF...".  A run that succeeds publishes [n + 10] events in all, one
    that fails at [save] publishes [n + 8]: the seven events before and
    between, and the failure event. *)
Theorem every_page_is_announced_once_in_order :
  forall `{Host} `{PDFConverter.PdfLib} (buf : Buffer) (level : string) (w : World)
         (pdfDoc : PDFConverter.PdfDoc) (n : nat),
    PDFConverter.pdf_load buf = Ok pdfDoc ->
    PDFConverter.pdf_pageCount pdfDoc = Ok n ->
    let run := PDFController.compressPDF buf level w in
    exists evs,
      published run.2 = published w ++ evs
      /\ message <$> evs !! 0%nat = Some "Analyzing PDF..."
      /\ message <$> evs !! 1%nat
         = Some ("Processing PDF with " +:+ pretty n +:+ " pages...")
      /\ message <$> evs !! 4%nat = Some "Applying compression..."
      /\ (forall i : nat, (i < n)%nat ->
            message <$> evs !! (5 + i)%nat
            = Some ("Processing page " +:+ pretty (S i) +:+ " of " +:+ pretty n +:+ "..."))
      /\ message <$> evs !! (5 + n)%nat = Some "Applying document optimizations..."
      /\ message <$> evs !! (6 + n)%nat = Some "Generating compressed PDF..."
      /\ length evs = match run.1 with
                      | Ok _ => (n + 10)%nat
                      | Throw _ => (n + 8)%nat
                      end.
Proof.
  intros HH HP buf level w pdfDoc n Hload Hcount run. subst run.
  rewrite compressPDF_run. unfold pdf_body, compress_outcome. rewrite Hload, Hcount.
  set (r10 := pdf_relayed (JS.of_Z 10) "Loading PDF document...").
  set (r30 := pdf_relayed (JS.of_Z 30) "Analyzing document structure...").
  set (r50 := pdf_relayed (JS.of_Z 50) "Applying compression...").
  set (r85 := pdf_relayed (JS.of_Z 85) "Applying document optimizations...").
  set (r90 := pdf_relayed (JS.of_Z 90) "Generating compressed PDF...").
  assert (Hshape : forall tail : list ProgressEvent,
    let evs := pdf_opening n ++ ([r10; r30; r50] ++ compression_events n ++ [r90]) ++ tail in
    message <$> evs !! 0%nat = Some "Analyzing PDF..."
    /\ message <$> evs !! 1%nat
       = Some ("Processing PDF with " +:+ pretty n +:+ " pages...")
    /\ message <$> evs !! 4%nat = Some "Applying compression..."
    /\ (forall i : nat, (i < n)%nat ->
          message <$> evs !! (5 + i)%nat
          = Some ("Processing page " +:+ pretty (S i) +:+ " of " +:+ pretty n +:+ "..."))
    /\ message <$> evs !! (5 + n)%nat = Some "Applying document optimizations..."
    /\ message <$> evs !! (6 + n)%nat = Some "Generating compressed PDF..."
    /\ length evs = (n + 7 + length tail)%nat).
  { intros tail evs. subst evs. unfold compression_events. fold r85.
    assert (Hlen : length (map (page_event n) (seq 0 n)) = n)
      by now rewrite length_map, length_seq.
    split; [reflexivity|]. split; [reflexivity|]. split; [reflexivity|].
    split; [|split; [|split]].
    - intros i Hi.
      change (pdf_opening n ++ ([r10; r30; r50]
                ++ (map (page_event n) (seq 0 n) ++ [r85]) ++ [r90]) ++ tail)
        with ([event (JS.of_Z 10) "Analyzing PDF...";
               event (JS.of_Z 20) ("Processing PDF with " +:+ pretty n +:+ " pages...");
               r10; r30; r50]
              ++ ((map (page_event n) (seq 0 n) ++ [r85]) ++ [r90]) ++ tail).
      rewrite lookup_app_r by (cbn [length]; lia).
      replace (5 + i - length _)%nat with i by (cbn [length]; lia).
      rewrite <- !app_assoc, lookup_app_l by lia.
      now rewrite lookup_page_events.
    - change (pdf_opening n ++ ([r10; r30; r50]
                ++ (map (page_event n) (seq 0 n) ++ [r85]) ++ [r90]) ++ tail)
        with ([event (JS.of_Z 10) "Analyzing PDF...";
               event (JS.of_Z 20) ("Processing PDF with " +:+ pretty n +:+ " pages...");
               r10; r30; r50]
              ++ ((map (page_event n) (seq 0 n) ++ [r85]) ++ [r90]) ++ tail).
      rewrite lookup_app_r by (cbn [length]; lia).
      replace (5 + n - length _)%nat with n by (cbn [length]; lia).
      rewrite <- !app_assoc, lookup_app_r by lia.
      rewrite Hlen, Nat.sub_diag. reflexivity.
    - change (pdf_opening n ++ ([r10; r30; r50]
                ++ (map (page_event n) (seq 0 n) ++ [r85]) ++ [r90]) ++ tail)
        with ([event (JS.of_Z 10) "Analyzing PDF...";
               event (JS.of_Z 20) ("Processing PDF with " +:+ pretty n +:+ " pages...");
               r10; r30; r50]
              ++ ((map (page_event n) (seq 0 n) ++ [r85]) ++ [r90]) ++ tail).
      rewrite lookup_app_r by (cbn [length]; lia).
      replace (6 + n - length _)%nat with (S n) by (cbn [length]; lia).
      rewrite <- !app_assoc, lookup_app_r by lia.
      rewrite Hlen. replace (S n - n)%nat with 1%nat by lia. reflexivity.
    - rewrite !length_app, Hlen. cbn [length pdf_opening]. lia. }
  destruct (PDFConverter.pdf_save pdfDoc _) as [out|e]; cbn [fst snd].
  - eexists. split.
    + rewrite published_emit, published_with_store, published_emit, <- !app_assoc.
      reflexivity.
    + specialize (Hshape [pdf_relayed (JS.of_Z 100) "Compression complete!";
                          event (JS.of_Z 90) "Preparing download...";
                          event (JS.of_Z 100) "Compression completed!"]).
      cbv zeta in Hshape. rewrite <- !app_assoc in *. cbn [app] in *.
      destruct Hshape as (S0 & S1 & S4 & Spages & S85 & S90 & Slen).
      repeat (split; [assumption|]). rewrite Slen. cbn [length]. lia.
  - eexists. split.
    + rewrite published_emit, <- !app_assoc. reflexivity.
    + specialize (Hshape [pdf_failure ("Failed to compress PDF: " +:+ e)]).
      cbv zeta in Hshape. rewrite <- !app_assoc in *. cbn [app] in *.
      destruct Hshape as (S0 & S1 & S4 & Spages & S85 & S90 & Slen).
      repeat (split; [assumption|]). rewrite Slen. cbn [length]. lia.
Qed.

Lemma every_page_is_announced_witness :
  let run := @PDFController.compressPDF Fixtures.host (Fixtures.pdflib_ok 3 [Byte.x25])
               [Byte.x25; Byte.x50; Byte.x44; Byte.x46] "medium" Fixtures.world in
  @PDFConverter.pdf_load (Fixtures.pdflib_ok 3 [Byte.x25])
    [Byte.x25; Byte.x50; Byte.x44; Byte.x46] = Ok tt
  /\ @PDFConverter.pdf_pageCount (Fixtures.pdflib_ok 3 [Byte.x25]) tt = Ok 3%nat
  /\ exists evs,
       published run.2 = evs
       /\ message <$> evs !! 7%nat = Some "Processing page 3 of 3..."
       /\ length evs = 13%nat.
Proof.
  cbv zeta. split; [reflexivity|]. split; [reflexivity|].
  destruct (@every_page_is_announced_once_in_order Fixtures.host
              (Fixtures.pdflib_ok 3 [Byte.x25]) [Byte.x25; Byte.x50; Byte.x44; Byte.x46]
              "medium" Fixtures.world tt 3%nat eq_refl eq_refl)
    as (evs & Hpub & _ & _ & _ & Hpages & _ & _ & Hlen).
  exists evs. split; [exact Hpub|]. split.
  - exact (Hpages 2%nat ltac:(repeat constructor)).
  - rewrite Hlen. reflexivity.
Defined.

(** ** Validation of a PDF *)

(** X19.  [validatePDF] and [getPDFInfo] never throw and leave the
    process as it is, whatever [pdf-lib] does.  [validatePDF] answers
    [true] exactly when [PDFDocument.load] accepts the buffer.
    [getPDFInfo] is stricter: its [isValid] is [true] exactly when [load]
    accepts the buffer and [getPageCount] then returns, so a document it
    calls valid is one that [validatePDF] accepts, and the two differ
    exactly for a buffer that loads and whose pages cannot be counted.
    The [size] reported is always the byte length of the buffer; a valid
    document comes with its page count and no error, an invalid one with
    page count 0 and the message of the error thrown, by [load] or by
    [getPageCount]. *)
Theorem validatePDF_and_getPDFInfo_verdicts :
  forall `{PDFConverter.PdfLib} (buf : Buffer) (w : World),
    exists valid info,
      PDFConverter.validatePDF buf w = (Ok valid, w)
      /\ PDFConverter.getPDFInfo buf w = (Ok info, w)
      /\ PDFConverter.info_size info = Z.of_nat (length buf)
      /\ (valid = true <-> exists pdfDoc, PDFConverter.pdf_load buf = Ok pdfDoc)
      /\ (PDFConverter.info_isValid info = true
          <-> exists pdfDoc n,
                PDFConverter.pdf_load buf = Ok pdfDoc
                /\ PDFConverter.pdf_pageCount pdfDoc = Ok n)
      /\ (PDFConverter.info_isValid info = true -> valid = true)
      /\ (valid = true /\ PDFConverter.info_isValid info = false
          <-> exists pdfDoc e,
                PDFConverter.pdf_load buf = Ok pdfDoc
                /\ PDFConverter.pdf_pageCount pdfDoc = Throw e)
      /\ match PDFConverter.pdf_load buf with
         | Ok pdfDoc =>
             match PDFConverter.pdf_pageCount pdfDoc with
             | Ok n =>
                 PDFConverter.info_isValid info = true
                 /\ PDFConverter.info_pageCount info = n
                 /\ PDFConverter.info_error info = None
             | Throw e =>
                 PDFConverter.info_isValid info = false
                 /\ PDFConverter.info_pageCount info = 0%nat
                 /\ PDFConverter.info_error info = Some e
             end
         | Throw e =>
             PDFConverter.info_isValid info = false
             /\ PDFConverter.info_pageCount info = 0%nat
             /\ PDFConverter.info_error info = Some e
         end.
Proof.
  intros HP buf w.
  unfold PDFConverter.validatePDF, PDFConverter.getPDFInfo, try_catch, bind, lift, ret.
  destruct (PDFConverter.pdf_load buf) as [pdfDoc|e].
  - destruct (PDFConverter.pdf_pageCount pdfDoc) as [n|e] eqn:Ecount.
    + eexists _, _. split; [reflexivity|]. split; [reflexivity|].
      cbn [PDFConverter.info_size PDFConverter.info_isValid PDFConverter.info_pageCount
           PDFConverter.info_error].
      split; [reflexivity|]. split; [split; eauto|]. split; [split; eauto|].
      split; [reflexivity|]. split; [|auto].
      split; [intros [_ [=]]|].
      intros (doc & e & [= <-] & He). congruence.
    + eexists _, _. split; [reflexivity|]. split; [reflexivity|].
      cbn [PDFConverter.info_size PDFConverter.info_isValid PDFConverter.info_pageCount
           PDFConverter.info_error].
      split; [reflexivity|]. split; [split; eauto|]. split.
      { split; [intros [=]|]. intros (doc & n & [= <-] & Hn). congruence. }
      split; [intros [=]|]. split; [|auto].
      split; [eauto|auto].
  - eexists _, _. split; [reflexivity|]. split; [reflexivity|].
    cbn [PDFConverter.info_size PDFConverter.info_isValid PDFConverter.info_pageCount
         PDFConverter.info_error].
    split; [reflexivity|]. split; [split; [intros [=]|intros [doc [=]]]|].
    split; [split; [intros [=]|intros (doc & n & [=] & _)]|].
    split; [intros [=]|]. split; [|auto].
    split; [intros [[=] _]|intros (doc & e' & [=] & _)].
Qed.

(** X20.  What [validatePDF] predicts for the compression.  A buffer it
    rejects makes [compressPDF] throw the error of [load] behind its
    prefix after exactly two events, "Analyzing PDF..." with percent 10 and
    the failure event with percent 0, with nothing stored, and the route
    answers 500; the converter on its own throws it behind
    "Failed to compress PDF: ".  A buffer it accepts may still fail: when
    [getPageCount] throws on the loaded document, [compressPDF] fails in
    the same way with the error of [getPageCount], after the same two
    events, and the converter on its own throws it behind
    "Failed to compress PDF: Failed to apply compression: "; when the
    pages can be counted, the buffer is compressed exactly when [save]
    succeeds. *)
Theorem validatePDF_predicts_the_compression :
  forall `{Host} `{PDFConverter.PdfLib}
         (data : string) (level : option string) (w : World) (valid : bool),
    data <> "" ->
    let buf := base64_decode data in
    let lvl := Routes.or_else level "medium" in
    (PDFConverter.validatePDF buf w).1 = Ok valid ->
    let run := PDFController.compressPDF buf lvl w in
    let route := Routes.postPdf (Routes.mkPdfBody level (Some data)) w in
    let fails_with (e : string) (e_converter : string) :=
      run.1 = Throw ("PDF compression failed: " +:+ e)
      /\ published run.2
         = published w ++ [event (JS.of_Z 10) "Analyzing PDF...";
                           mkEvent (JS.of_Z 0) "Compression failed" (Some e)]
      /\ globals run.2 = globals w
      /\ route.1 = Ok (Routes.ApiError 500 ("PDF compression failed: " +:+ e))
      /\ (PDFConverter.compress buf lvl None w).1 = Throw e_converter in
    if valid
    then exists pdfDoc,
           PDFConverter.pdf_load buf = Ok pdfDoc
           /\ match PDFConverter.pdf_pageCount pdfDoc with
              | Ok n =>
                  (exists r, run.1 = Ok r)
                  <-> exists out,
                        PDFConverter.pdf_save pdfDoc
                          (PDFConverter.save_options
                             (PDFConverter.getCompressionSettings lvl))
                        = Ok out
              | Throw e =>
                  fails_with e
                    ("Failed to compress PDF: Failed to apply compression: " +:+ e)
              end
    else exists e,
           PDFConverter.pdf_load buf = Throw e
           /\ fails_with e ("Failed to compress PDF: " +:+ e).
Proof.
  intros HH HP data level w valid Hd buf lvl Hvalid run route.
  subst run route. cbv zeta. rewrite postPdf_run by assumption. fold buf lvl.
  rewrite compressPDF_run. unfold pdf_body, compress_outcome.
  revert Hvalid.
  unfold PDFConverter.validatePDF, try_catch, bind, lift, ret.
  destruct (PDFConverter.pdf_load buf) as [pdfDoc|e] eqn:Hload; cbn [fst];
    intros [= <-].
  - exists pdfDoc. split; [reflexivity|].
    destruct (PDFConverter.pdf_pageCount pdfDoc) as [n|e] eqn:Hcount.
    + destruct (PDFConverter.pdf_save pdfDoc _) as [out|e]; cbn [fst]; split.
      * eauto.
      * eauto.
      * intros [r [=]].
      * intros [out [=]].
    + cbn [fst snd]. rewrite published_emit, globals_emit.
      rewrite or_else_nonempty by apply prefixed_nonempty.
      repeat (split; [reflexivity|]).
      unfold PDFConverter.compress, PDFConverter.applyCompression,
        try_catch, bind, lift, PDFConverter.report, ret, throw.
      now rewrite Hload, Hcount.
  - exists e. split; [reflexivity|]. cbn [fst snd].
    rewrite published_emit, globals_emit.
    rewrite or_else_nonempty by apply prefixed_nonempty.
    repeat (split; [reflexivity|]).
    unfold PDFConverter.compress, try_catch, bind, lift, PDFConverter.report, ret, throw.
    now rewrite Hload.
Qed.

Lemma validatePDF_predicts_the_compression_witness :
  let garbage : PDFConverter.PdfLib :=
    {| PDFConverter.PdfDoc := unit;
       PDFConverter.pdf_load := fun _ => Throw "No PDF header found";
       PDFConverter.pdf_pageCount := fun _ => Ok 0%nat;
       PDFConverter.pdf_save := fun _ _ => Ok [] |} in
  let header_only : PDFConverter.PdfLib :=
    {| PDFConverter.PdfDoc := unit;
       PDFConverter.pdf_load := fun _ => Ok tt;
       PDFConverter.pdf_pageCount := fun _ => Throw "Expected instance of PDFDict";
       PDFConverter.pdf_save := fun _ _ => Ok [] |} in
  ((@PDFConverter.validatePDF garbage (Fixtures.decode 0 0 "aGVsbG8=") Fixtures.world).1
   = Ok false
   /\ (@Routes.postPdf Fixtures.host garbage
         (Routes.mkPdfBody None (Some "aGVsbG8=")) Fixtures.world).1
      = Ok (Routes.ApiError 500 "PDF compression failed: No PDF header found"))
  /\ ((@PDFConverter.validatePDF header_only (Fixtures.decode 0 0 "JVBERi0xLjc=")
         Fixtures.world).1 = Ok true
      /\ (@Routes.postPdf Fixtures.host header_only
            (Routes.mkPdfBody None (Some "JVBERi0xLjc=")) Fixtures.world).1
         = Ok (Routes.ApiError 500 "PDF compression failed: Expected instance of PDFDict")).
Proof.
  cbv zeta. split.
  - split; [reflexivity|].
    pose proof (@validatePDF_predicts_the_compression Fixtures.host
      {| PDFConverter.PdfDoc := unit;
         PDFConverter.pdf_load := fun _ => Throw "No PDF header found";
         PDFConverter.pdf_pageCount := fun _ => Ok 0%nat;
         PDFConverter.pdf_save := fun _ _ => Ok [] |}
      "aGVsbG8=" None Fixtures.world false ltac:(discriminate) eq_refl) as H.
    cbv zeta in H. cbv iota in H.
    destruct H as (e & He & _ & _ & _ & Hroute & _).
    injection He as <-. exact Hroute.
  - split; [reflexivity|].
    pose proof (@validatePDF_predicts_the_compression Fixtures.host
      {| PDFConverter.PdfDoc := unit;
         PDFConverter.pdf_load := fun _ => Ok tt;
         PDFConverter.pdf_pageCount := fun _ => Throw "Expected instance of PDFDict";
         PDFConverter.pdf_save := fun _ _ => Ok [] |}
      "JVBERi0xLjc=" None Fixtures.world true ltac:(discriminate) eq_refl) as H.
    cbv zeta in H. cbv iota in H.
    destruct H as (doc & _ & H). cbn [PDFConverter.pdf_pageCount] in H.
    destruct H as (_ & _ & _ & Hroute & _). exact Hroute.
Defined.

(** ** The upload route and the error middleware *)

(** X21.  Accepted uploads are images or PDFs, never both.  The filter
    of the upload accepts a file exactly when the route then reports
    [isImage] or [isPDF] for it, and the two are never both true; for a
    PDF the MIME type is [application/pdf], for an image it is
    [image/<f>] for one of the input formats [f] that the image converter
    supports; the reported name, type and size are those of the file. *)
Theorem accepted_upload_is_image_or_pdf :
  forall (file : Upload.File),
    exists info,
      Upload.postFile (Some file) = Upload.Uploaded info
      /\ Upload.originalName info = Upload.originalname file
      /\ Upload.mimeType info = Upload.mimetype file
      /\ Upload.info_size info = Upload.size file
      /\ (Upload.fileFilter file = Upload.Accept
          <-> Upload.isImage info || Upload.isPDF info = true)
      /\ Upload.isImage info && Upload.isPDF info = false
      /\ (Upload.isPDF info = true <-> Upload.mimetype file = "application/pdf")
      /\ (Upload.isImage info = true
          <-> exists f, f ∈ ImageConverter.getSupportedInputFormats
                        /\ Upload.mimetype file = "image/" +:+ f).
Proof.
  intros [name type sz buf]. eexists. split; [reflexivity|].
  cbn [Upload.originalName Upload.mimeType Upload.info_size Upload.isImage Upload.isPDF
       Upload.originalname Upload.mimetype Upload.size].
  split; [reflexivity|]. split; [reflexivity|]. split; [reflexivity|].
  unfold Upload.fileFilter, JS.includes, Upload.ALL_SUPPORTED_TYPES.
  cbn [Upload.mimetype].
  assert (Hdisj : type ∈ Upload.SUPPORTED_IMAGE_TYPES -> type ∈ Upload.SUPPORTED_PDF_TYPES
                  -> False).
  { unfold Upload.SUPPORTED_IMAGE_TYPES, Upload.SUPPORTED_PDF_TYPES.
    rewrite !elem_of_cons, !elem_of_nil. intros Hi [-> | []].
    repeat (destruct Hi as [Hi|Hi]; [discriminate Hi|]). exact Hi. }
  split; [|split; [|split]].
  - rewrite orb_true_iff, !bool_decide_eq_true. case_bool_decide as Hall.
    + split; [intros _|reflexivity]. now apply elem_of_app.
    + split; [discriminate|]. intros Hor. exfalso. apply Hall. now apply elem_of_app.
  - apply andb_false_iff.
    destruct (bool_decide (type ∈ Upload.SUPPORTED_IMAGE_TYPES)) eqn:Hi; [|now left].
    right. apply bool_decide_eq_false. apply bool_decide_eq_true in Hi. eauto.
  - rewrite bool_decide_eq_true. unfold Upload.SUPPORTED_PDF_TYPES.
    rewrite elem_of_cons, elem_of_nil. tauto.
  - rewrite bool_decide_eq_true.
    unfold Upload.SUPPORTED_IMAGE_TYPES, ImageConverter.getSupportedInputFormats.
    rewrite !elem_of_cons, !elem_of_nil. split.
    + intros [-> | [-> | [-> | [-> | [-> | [-> | [-> | [-> | []]]]]]]]];
        eexists; (split; [|reflexivity]); rewrite !elem_of_cons; tauto.
    + intros (f & Hf & ->). rewrite !elem_of_cons, elem_of_nil in Hf.
      destruct Hf as [-> | [-> | [-> | [-> | [-> | [-> | [-> | [-> | []]]]]]]]]; tauto.
Qed.

(** X22.  How a refused upload is answered.  The error that the filter
    hands to its callback for a MIME type outside the supported ones is a
    plain [Error] without a [status]; the error middleware of the server
    answers such an error with status 500 and the message of the filter,
    which names the type.  The error of [multer] for a file over the
    limit, with the code [LIMIT_FILE_SIZE], is answered with status 400
    and a fixed text, whatever its own message is; a request without a
    file part is answered 400 by the route. *)
Theorem refused_upload_is_answered :
  forall (file : Upload.File) (message : string),
    (JS.includes Upload.ALL_SUPPORTED_TYPES (Upload.mimetype file) = false ->
     exists e,
       Upload.fileFilter file = Upload.Reject e
       /\ e = "Unsupported file type: " +:+ Upload.mimetype file
              +:+ ". Supported types: Images (jpg, jpeg, png, webp, bmp, gif, tiff, heic) and PDF files."
       /\ Server.errorHandler (Server.OtherError None e) = (500, e))
    /\ (JS.includes Upload.ALL_SUPPORTED_TYPES (Upload.mimetype file) = true ->
        Upload.fileFilter file = Upload.Accept)
    /\ Server.errorHandler (Server.MulterError "LIMIT_FILE_SIZE" message)
       = (400, "File too large. Maximum size is 50MB.")
    /\ Upload.postFile None = Upload.UploadError 400 "No file uploaded".
Proof.
  intros file message. split; [|split; [|split]].
  - intros Hinc. unfold Upload.fileFilter. rewrite Hinc. eexists.
    split; [reflexivity|]. split; [reflexivity|].
    unfold Server.errorHandler. rewrite bool_decide_eq_false_2; [reflexivity|].
    apply prefixed_nonempty.
  - intros Hinc. unfold Upload.fileFilter. now rewrite Hinc.
  - reflexivity.
  - reflexivity.
Qed.

(** ** The names the service issues *)

(** A letter, a digit, an underscore or a point. *)
Definition name_char (c : ascii) : bool :=
  let n := nat_of_ascii c in
  ((48 <=? n) && (n <=? 57) || (65 <=? n) && (n <=? 90)
   || (97 <=? n) && (n <=? 122) || (n =? 95) || (n =? 46))%nat.

Fixpoint plain_name (s : string) : bool :=
  match s with
  | EmptyString => true
  | String c s' => name_char c && plain_name s'
  end.

(** A lower-case letter. *)
Definition lower_letter (c : ascii) : bool :=
  ((97 <=? nat_of_ascii c) && (nat_of_ascii c <=? 122))%nat.

Fixpoint lower_letters (s : string) : bool :=
  match s with
  | EmptyString => true
  | String c s' => lower_letter c && lower_letters s'
  end.

Lemma plain_name_app (a b : string) :
  plain_name (a +:+ b) = plain_name a && plain_name b.
Proof.
  induction a as [|c a IH]; [reflexivity|].
  change (plain_name (String c a +:+ b)) with (name_char c && plain_name (a +:+ b)).
  cbn [plain_name]. now rewrite IH, andb_assoc.
Qed.

Lemma name_char_digit c : is_digit c = true -> name_char c = true.
Proof. unfold is_digit, name_char. intros ->. reflexivity. Qed.

Lemma plain_name_digits s : all_digits s = true -> plain_name s = true.
Proof.
  induction s as [|c s IH]; [reflexivity|]. cbn [all_digits plain_name].
  intros [Hc Hs]%andb_true_iff. now rewrite name_char_digit, IH.
Qed.

Lemma name_char_lower c : lower_letter (JS.lower_ascii c) = true -> name_char c = true.
Proof. destruct c as [[] [] [] [] [] [] [] []]; vm_compute; congruence. Qed.

Lemma plain_name_lower s : lower_letters (JS.toLowerCase s) = true -> plain_name s = true.
Proof.
  induction s as [|c s IH]; [reflexivity|]. cbn [JS.toLowerCase lower_letters plain_name].
  intros [Hc Hs]%andb_true_iff. now rewrite name_char_lower, IH.
Qed.

Lemma supported_format_letters f :
  f ∈ ImageConverter.getSupportedOutputFormats -> lower_letters f = true.
Proof.
  unfold ImageConverter.getSupportedOutputFormats. rewrite !elem_of_cons, elem_of_nil.
  intros [-> | [-> | [-> | [-> | [-> | [-> | [-> | []]]]]]]]; reflexivity.
Qed.

(** X23.  The names the service issues are plain.  When a conversion
    returns a result (and the clock reading is not negative), the file
    name at the end of its download URL is made of letters, digits,
    underscores and points only, and so is the display name of the stored
    record: the requested format, which goes into both as the client
    spelled it, has passed the [switch] of [convert] and so consists of
    letters.  The URL is therefore a single path segment that needs no
    escaping, and the [Content-Disposition] header of the download holds
    no quote or control character inside the file name. *)
Theorem issued_names_are_plain :
  forall `{Host} `{ImageConverter.Sharp} `{PDFConverter.PdfLib}
         (buf : Buffer) (format level : string) (w : World),
    0 <= clock w (ticks w) ->
    (forall r, (ImageController.convertImage buf format level w).1 = Ok r ->
       exists name,
         ImageController.downloadUrl r = "/api/convert/download/" +:+ name
         /\ name = "converted_" +:+ pretty (clock w (ticks w)) +:+ "." +:+ format
         /\ plain_name name = true
         /\ plain_name format = true
         /\ plain_name ("converted_image." +:+ format) = true)
    /\ (forall r, (PDFController.compressPDF buf level w).1 = Ok r ->
          exists name,
            PDFController.downloadUrl r = "/api/convert/download/" +:+ name
            /\ name = "compressed_" +:+ pretty (clock w (ticks w)) +:+ ".pdf"
            /\ plain_name name = true).
Proof.
  intros HH HS HP buf format level w Hclock.
  pose proof (plain_name_digits _ (all_digits_pretty_Z _ Hclock)) as Hdigits.
  split.
  - intros r. rewrite convertImage_run.
    destruct (image_body buf format level) as [[out|e] evs] eqn:E; [|intros [=]].
    cbn [fst]. intros [= <-].
    destruct (image_body_Ok _ _ _ _ _ E) as (md & s & enc & _ & _ & _ & Henc & _).
    assert (Hfmt : plain_name format = true).
    { apply plain_name_lower, supported_format_letters.
      apply (select_encoder_Ok format s). eauto. }
    exists ("converted_" +:+ pretty (clock w (ticks w)) +:+ "." +:+ format).
    split; [reflexivity|]. split; [reflexivity|].
    rewrite !plain_name_app, Hdigits, Hfmt. repeat split; reflexivity.
  - intros r. rewrite compressPDF_run.
    destruct (pdf_body buf level) as [[out|e] evs] eqn:E; [|intros [=]].
    cbn [fst]. intros [= <-].
    exists ("compressed_" +:+ pretty (clock w (ticks w)) +:+ ".pdf").
    split; [reflexivity|]. split; [reflexivity|].
    rewrite !plain_name_app, Hdigits. reflexivity.
Qed.

Lemma issued_names_are_plain_witness :
  0 <= clock Fixtures.world (ticks Fixtures.world)
  /\ exists r,
       (@ImageController.convertImage Fixtures.host (Fixtures.sharp_ok [Byte.x47])
          [Byte.x89; Byte.x50] "GIF" "low" Fixtures.world).1 = Ok r
       /\ ImageController.downloadUrl r
          = "/api/convert/download/converted_1700000000000.GIF"
       /\ plain_name "converted_1700000000000.GIF" = true.
Proof.
  assert (Hc : 0 <= clock Fixtures.world (ticks Fixtures.world))
    by (vm_compute; discriminate).
  split; [exact Hc|].
  destruct (@issued_names_are_plain Fixtures.host (Fixtures.sharp_ok [Byte.x47])
              (Fixtures.pdflib_ok 1 []) [Byte.x89; Byte.x50] "GIF" "low" Fixtures.world Hc)
    as [Himage _].
  set (r := ImageController.mkResult
              "/api/convert/download/converted_1700000000000.GIF" "GIF" 2 1 "50.0%").
  assert (Hr : (@ImageController.convertImage Fixtures.host (Fixtures.sharp_ok [Byte.x47])
                  [Byte.x89; Byte.x50] "GIF" "low" Fixtures.world).1 = Ok r)
    by (vm_compute; reflexivity).
  destruct (Himage r Hr) as (name & _ & Hname & Hplain & _).
  exists r. split; [exact Hr|]. split; [reflexivity|].
  rewrite Hname in Hplain. exact Hplain.
Defined.

(** ** The percentages of a short PDF *)

(** X24.  Up to eight pages the percentages of a PDF compression behave.
    When [pdf-lib] loads the buffer, counts at most eight pages in the
    document and saves it, the percentages that [compressPDF] publishes start at
    10, end at 100 and never go down on the way, and no event carries an
    error. *)
Theorem pdf_percentages_up_to_eight_pages :
  forall `{Host} `{PDFConverter.PdfLib} (buf : Buffer) (level : string) (w : World)
         (pdfDoc : PDFConverter.PdfDoc) (n : nat) (out : Buffer),
    PDFConverter.pdf_load buf = Ok pdfDoc ->
    PDFConverter.pdf_pageCount pdfDoc = Ok n ->
    (n <= 8)%nat ->
    PDFConverter.pdf_save pdfDoc
      (PDFConverter.save_options (PDFConverter.getCompressionSettings level)) = Ok out ->
    let run := PDFController.compressPDF buf level w in
    exists evs,
      published run.2 = published w ++ evs
      /\ no_error_field evs
      /\ progress <$> head evs = Some (JS.of_Z 10)
      /\ progress <$> last evs = Some (JS.of_Z 100)
      /\ nondecreasing (map progress evs) = true.
Proof.
  intros HH HP buf level w pdfDoc n out Hload Hcount Hpages Hsave.
  destruct (compressPDF_success buf level w pdfDoc n out Hload Hcount Hsave) as [_ Hpub].
  cbv zeta. exists (pdf_success_events n).
  split; [exact Hpub|].
  split; [|split; [reflexivity|split]].
  - unfold pdf_success_events. apply Forall_app. split; [repeat constructor|].
    apply Forall_app. split; [repeat constructor|].
    apply Forall_app. split; [apply compression_events_no_error|repeat constructor].
  - unfold pdf_success_events. rewrite !app_assoc.
    change [pdf_relayed (JS.of_Z 90) "Generating compressed PDF...";
            pdf_relayed (JS.of_Z 100) "Compression complete!";
            event (JS.of_Z 90) "Preparing download...";
            event (JS.of_Z 100) "Compression completed!"]
      with ([pdf_relayed (JS.of_Z 90) "Generating compressed PDF...";
             pdf_relayed (JS.of_Z 100) "Compression complete!";
             event (JS.of_Z 90) "Preparing download..."]
            ++ [event (JS.of_Z 100) "Compression completed!"]).
    rewrite app_assoc, last_snoc. reflexivity.
  - now apply pdf_progress_nondecreasing_up_to_eight_pages.
Qed.

Lemma pdf_percentages_up_to_eight_pages_witness :
  let run := @PDFController.compressPDF Fixtures.host
               (Fixtures.pdflib_ok 8 [Byte.x25; Byte.x50; Byte.x44; Byte.x46])
               (Fixtures.decode 0 0 "JVBERi0xLjc=") "medium" Fixtures.world in
  (8 <= 8)%nat
  /\ nondecreasing (map progress (published run.2)) = true
  /\ length (published run.2) = 18%nat.
Proof.
  cbv zeta.
  destruct (@pdf_percentages_up_to_eight_pages Fixtures.host
              (Fixtures.pdflib_ok 8 [Byte.x25; Byte.x50; Byte.x44; Byte.x46])
              (Fixtures.decode 0 0 "JVBERi0xLjc=") "medium" Fixtures.world tt 8%nat
              [Byte.x25; Byte.x50; Byte.x44; Byte.x46] eq_refl eq_refl (le_n 8) eq_refl)
    as (evs & Hpub & _ & _ & _ & Hmono).
  cbn [published Fixtures.world app] in Hpub.
  split; [apply le_n|]. rewrite Hpub. split; [exact Hmono|].
  rewrite <- Hpub. vm_compute. reflexivity.
Defined.

(** ** What the compression level changes *)

Lemma process_pages_settings totalPages s s' cb indices :
  PDFConverter.process_pages totalPages s cb indices
  = PDFConverter.process_pages totalPages s' cb indices.
Proof.
  induction indices as [|i rest IH]; [reflexivity|].
  cbn [PDFConverter.process_pages]. now rewrite IH.
Qed.

Lemma applyCompression_settings `{PDFConverter.PdfLib} pdfDoc s s' cb w :
  PDFConverter.applyCompression pdfDoc s cb w
  = PDFConverter.applyCompression pdfDoc s' cb w.
Proof.
  unfold PDFConverter.applyCompression, try_catch, bind, lift.
  destruct (PDFConverter.pdf_pageCount pdfDoc) as [n|?]; [|reflexivity].
  now rewrite (process_pages_settings _ s s').
Qed.

Lemma compress_by_save_options `{PDFConverter.PdfLib} buf level1 level2 cb w :
  PDFConverter.save_options (PDFConverter.getCompressionSettings level1)
  = PDFConverter.save_options (PDFConverter.getCompressionSettings level2) ->
  PDFConverter.compress buf level1 cb w = PDFConverter.compress buf level2 cb w.
Proof.
  intros Hopt. unfold PDFConverter.compress, try_catch, bind, lift. cbv zeta.
  destruct (PDFConverter.report cb (JS.of_Z 10) _ w) as [[[]|?] w1]; [|reflexivity].
  destruct (PDFConverter.pdf_load buf) as [pdfDoc|?]; [|reflexivity].
  destruct (PDFConverter.report cb (JS.of_Z 30) _ w1) as [[[]|?] w2]; [|reflexivity].
  destruct (PDFConverter.report cb (JS.of_Z 50) _ w2) as [[[]|?] w3]; [|reflexivity].
  rewrite (applyCompression_settings pdfDoc (PDFConverter.getCompressionSettings level1)
             (PDFConverter.getCompressionSettings level2)).
  now rewrite Hopt.
Qed.

Lemma compressPDF_by_save_options `{Host} `{PDFConverter.PdfLib} buf level1 level2 w :
  PDFConverter.save_options (PDFConverter.getCompressionSettings level1)
  = PDFConverter.save_options (PDFConverter.getCompressionSettings level2) ->
  PDFController.compressPDF buf level1 w = PDFController.compressPDF buf level2 w.
Proof.
  intros Hopt. unfold PDFController.compressPDF, try_catch, bind, lift. cbv zeta.
  destruct (broadcastProgress _ w) as [[[]|?] w1]; [|reflexivity].
  destruct (PDFConverter.pdf_load buf) as [pdfDoc|?]; [|reflexivity].
  destruct (PDFConverter.pdf_pageCount pdfDoc) as [n|?]; [|reflexivity].
  destruct (broadcastProgress _ w1) as [[[]|?] w2]; [|reflexivity].
  now rewrite (compress_by_save_options buf level1 level2 _ w2 Hopt).
Qed.

(** X25.  For a PDF the level counts only through two options of [save].
    Two levels for which [getCompressionSettings] gives the same
    [useObjectStreams] and [objectStreamCompressionMethod] make [compress],
    [compressPDF] and [POST /pdf] behave exactly alike, for every buffer,
    callback and state: the other three settings only select what
    [optimizePage] and [optimizeDocument] write to the console.  In the
    table ['high'] has the options of ['medium'], so compressing at
    ['high'] is compressing at ['medium']; ['low'] differs from them in
    [useObjectStreams] alone. *)
Theorem pdf_level_counts_through_save_options :
  forall `{Host} `{PDFConverter.PdfLib} (buf : Buffer) (data : option string)
         (progressCallback : option (JS.number -> string -> M unit)) (w : World),
    (forall level1 level2,
        PDFConverter.save_options (PDFConverter.getCompressionSettings level1)
        = PDFConverter.save_options (PDFConverter.getCompressionSettings level2) ->
        PDFConverter.compress buf level1 progressCallback w
        = PDFConverter.compress buf level2 progressCallback w
        /\ PDFController.compressPDF buf level1 w = PDFController.compressPDF buf level2 w)
    /\ PDFConverter.compress buf "high" progressCallback w
       = PDFConverter.compress buf "medium" progressCallback w
    /\ PDFController.compressPDF buf "high" w = PDFController.compressPDF buf "medium" w
    /\ Routes.postPdf (Routes.mkPdfBody (Some "high") data) w
       = Routes.postPdf (Routes.mkPdfBody (Some "medium") data) w
    /\ PDFConverter.save_options (PDFConverter.getCompressionSettings "medium")
       = PDFConverter.mkSaveOptions (Some true) false (Some "deflate")
    /\ PDFConverter.save_options (PDFConverter.getCompressionSettings "low")
       = PDFConverter.mkSaveOptions (Some false) false (Some "deflate").
Proof.
  intros HH HP buf data cb w.
  assert (Hhigh : PDFConverter.save_options (PDFConverter.getCompressionSettings "high")
                  = PDFConverter.save_options (PDFConverter.getCompressionSettings "medium"))
    by (vm_compute; reflexivity).
  split; [|split; [|split; [|split; [|split]]]].
  - intros level1 level2 Hopt. split.
    + now apply compress_by_save_options.
    + now apply compressPDF_by_save_options.
  - now apply compress_by_save_options.
  - now apply compressPDF_by_save_options.
  - unfold Routes.postPdf. cbn [Routes.pdf_fileData Routes.pdf_compressionLevel].
    change (Routes.or_else (Some "high") "medium") with "high".
    change (Routes.or_else (Some "medium") "medium") with "medium".
    destruct (negb (Routes.truthy data)); [reflexivity|].
    unfold try_catch, bind.
    now rewrite (compressPDF_by_save_options _ "high" "medium" w Hhigh).
  - vm_compute. reflexivity.
  - vm_compute. reflexivity.
Qed.

Lemma image_settings_unrecognized `{Host} format level :
  recognized level = false -> JS.inherited level = false ->
  JS.inherited (JS.toLowerCase format) = false ->
  ImageConverter.getCompressionSettings format level
  = ImageConverter.getCompressionSettings format "medium".
Proof.
  intros Hr Hi Hf.
  destruct (ImageConverter.settings !! JS.toLowerCase format) as [entry|] eqn:E.
  - now apply (unrecognized_level_selects_medium format level Hr Hi).
  - unfold ImageConverter.getCompressionSettings, JS.get. now rewrite E, Hf.
Qed.

Lemma convertImage_by_settings `{Host} `{ImageConverter.Sharp} buf format level1 level2 w :
  ImageConverter.getCompressionSettings format level1
  = ImageConverter.getCompressionSettings format level2 ->
  ImageController.convertImage buf format level1 w
  = ImageController.convertImage buf format level2 w.
Proof.
  intros Hs.
  assert (Hconv : forall md cb' w',
             ImageConverter.convert buf format level1 md cb' w'
             = ImageConverter.convert buf format level2 md cb' w').
  { intros md cb' w'. unfold ImageConverter.convert. now rewrite Hs. }
  unfold ImageController.convertImage, try_catch, bind.
  destruct (broadcastProgress _ w) as [ [ [] | e ] w1 ]; [|reflexivity].
  destruct (lift (ImageConverter.sharp_new buf) w1) as [ [ [] | e ] w2 ]; [|reflexivity].
  destruct (lift (ImageConverter.sharp_metadata buf) w2) as [ [ md | e ] w3 ]; [|reflexivity].
  destruct (broadcastProgress _ w3) as [ [ [] | e ] w4 ]; [|reflexivity].
  now rewrite Hconv.
Qed.

(** X26.  A level the tables do not know counts as ['medium'].  Let the
    level of a request, after the default of the route for a missing or
    empty one, be neither ['low'], ['medium'], ['high'] nor the name of a
    member of [Object.prototype].  Then [POST /pdf] behaves exactly as
    for ['medium'], and so does [POST /image] for any format that is not
    such a name: the same events, the same stored artifact, the same
    answer. *)
Theorem unrecognized_level_behaves_as_medium :
  forall `{Host} `{ImageConverter.Sharp} `{PDFConverter.PdfLib}
         (level format data : option string) (w : World),
    recognized (Routes.or_else level "medium") = false ->
    JS.inherited (Routes.or_else level "medium") = false ->
    Routes.postPdf (Routes.mkPdfBody level data) w
    = Routes.postPdf (Routes.mkPdfBody (Some "medium") data) w
    /\ (JS.inherited (JS.toLowerCase (Routes.or_else format "")) = false ->
        Routes.postImage (Routes.mkImageBody format level data) w
        = Routes.postImage (Routes.mkImageBody format (Some "medium") data) w).
Proof.
  intros HH HS HP level format data w Hr Hi.
  set (L := Routes.or_else level "medium") in *.
  split.
  - unfold Routes.postPdf. cbn [Routes.pdf_fileData Routes.pdf_compressionLevel].
    fold L. change (Routes.or_else (Some "medium") "medium") with "medium".
    destruct (negb (Routes.truthy data)); [reflexivity|].
    unfold try_catch, bind.
    rewrite (compressPDF_by_save_options _ L "medium" w); [reflexivity|].
    now rewrite (proj1 (unrecognized_level_selects_medium "" L Hr Hi)).
  - intros Hf. unfold Routes.postImage.
    cbn [Routes.image_fileData Routes.image_outputFormat Routes.image_compressionLevel].
    fold L. change (Routes.or_else (Some "medium") "medium") with "medium".
    destruct (negb (Routes.truthy data) || negb (Routes.truthy format)); [reflexivity|].
    unfold try_catch, bind.
    rewrite (convertImage_by_settings _ _ L "medium" w); [reflexivity|].
    now apply image_settings_unrecognized.
Qed.

Lemma unrecognized_level_behaves_as_medium_witness :
  recognized (Routes.or_else (Some "ultra") "medium") = false
  /\ @Routes.postPdf Fixtures.host (Fixtures.pdflib_ok 2 [Byte.x25])
       (Routes.mkPdfBody (Some "ultra") (Some "JVBERi0xLjc=")) Fixtures.world
     = @Routes.postPdf Fixtures.host (Fixtures.pdflib_ok 2 [Byte.x25])
         (Routes.mkPdfBody (Some "medium") (Some "JVBERi0xLjc=")) Fixtures.world.
Proof.
  split; [reflexivity|].
  exact (proj1 (@unrecognized_level_behaves_as_medium Fixtures.host
                  (Fixtures.sharp_ok []) (Fixtures.pdflib_ok 2 [Byte.x25])
                  (Some "ultra") None (Some "JVBERi0xLjc=") Fixtures.world
                  eq_refl eq_refl)).
Defined.
